(** * Overstory orchestration kernel: session registry, coordinator
      lifecycle, status reconciliation, mulch client, hook deployment and
      merge integration.

    The development follows the TypeScript sources: asynchronous functions
    become computations in a small state-and-exception monad over an explicit
    [World] (files, terminal-multiplexer sessions, standard output), thrown
    errors become [Throw], and [try]/[catch] becomes [try_catch]. *)

From stdpp Require Import base option list strings gmap pretty.
From Stdlib Require Import ZArith Ascii String.

Local Open Scope string_scope.
Local Open Scope list_scope.

(** ** Errors (src/errors.ts) *)

Module Errors.

(** Modelled from the spec: [errors.ts] is not among the sources; only its
    callers and tests are.  The tests construct [new AgentError(msg,
    {agentName})] and read back [agentName], [code = "AGENT_ERROR"],
    [name = "AgentError"] and [message]; [ValidationError] exposes [field]
    and [value].  The context object is optional at every call site, so an
    error constructed without it has no agent name. *)
Record OverstoryError := mkOverstoryError {
  name : string;
  code : string;
  message : string;
  agentName : option string;
  field : option string;
  value : option string
}.

Record AgentErrorContext := { ctx_agentName : option string }.

Definition AgentError (msg : string) (context : option AgentErrorContext)
  : OverstoryError :=
  {| name := "AgentError"; code := "AGENT_ERROR"; message := msg;
     agentName := context ≫= ctx_agentName;
     field := None; value := None |}.

Definition ValidationError (msg fld val : string) : OverstoryError :=
  {| name := "ValidationError"; code := "VALIDATION_ERROR"; message := msg;
     agentName := None; field := Some fld; value := Some val |}.

(** What a JavaScript [throw] can carry here: one of the project's tagged
    errors, or an error raised by the runtime (a failed write, a failed
    subprocess, a syntax error of [JSON.parse]). *)
Inductive Exn :=
| Tagged (e : OverstoryError)
| RuntimeError (msg : string).

Definition isAgentError (x : Exn) : bool :=
  match x with
  | Tagged e => String.eqb (name e) "AgentError"
  | RuntimeError _ => false
  end.

Definition exn_agentName (x : Exn) : option string :=
  match x with
  | Tagged e => agentName e
  | RuntimeError _ => None
  end.

Definition exn_message (x : Exn) : string :=
  match x with
  | Tagged e => message e
  | RuntimeError m => m
  end.

End Errors.
Import Errors.

(** ** Session records (src/types.ts, as the coordinator builds them) *)

Inductive SessionState := booting | working | completed | stalled | zombie.

Global Instance SessionState_eq_dec : EqDecision SessionState.
Proof. solve_decision. Defined.

Record AgentSession := mkAgentSession {
  s_id : string;
  s_agentName : string;
  capability : string;
  worktreePath : string;
  branchName : string;
  beadId : string;
  tmuxSession : string;
  state : SessionState;
  pid : N;
  parentAgent : option string;
  depth : nat;
  startedAt : string;
  lastActivity : string
}.

Definition set_state (st : SessionState) (s : AgentSession) : AgentSession :=
  {| s_id := s_id s; s_agentName := s_agentName s; capability := capability s;
     worktreePath := worktreePath s; branchName := branchName s;
     beadId := beadId s; tmuxSession := tmuxSession s; state := st;
     pid := pid s; parentAgent := parentAgent s; depth := depth s;
     startedAt := startedAt s; lastActivity := lastActivity s |}.

Definition set_lastActivity (t : string) (s : AgentSession) : AgentSession :=
  {| s_id := s_id s; s_agentName := s_agentName s; capability := capability s;
     worktreePath := worktreePath s; branchName := branchName s;
     beadId := beadId s; tmuxSession := tmuxSession s; state := state s;
     pid := pid s; parentAgent := parentAgent s; depth := depth s;
     startedAt := startedAt s; lastActivity := t |}.

(** ** The world the commands run in *)

(** Writes and renames of files, in the order they were issued; directories
    are not kept. *)
Inductive FsOp :=
| OpWrite (path content : string)
| OpRename (src dst : string).

(** Result of one subprocess run ([runCommand] in src/mulch/client.ts). *)
Record CommandResult := mkCommandResult {
  cr_stdout : string;
  cr_stderr : string;
  exitCode : Z
}.

Record VerboseAgentDetail := mkVerboseAgentDetail {
  vd_worktreePath : string;
  vd_logsDir : string;
  vd_lastMailSent : option string;
  vd_lastMailReceived : option string;
  vd_capability : string
}.

(** [StatusData] of src/commands/status.ts. *)
Record StatusData := mkStatusData {
  agents : list AgentSession;
  worktrees : list (string * string * string);   (* path, branch, head *)
  tmuxSessions : list (string * N);              (* name, pid *)
  unreadMailCount : nat;
  mergeQueueCount : nat;
  recentMetricsCount : nat;
  verboseDetails : option (gmap string VerboseAgentDetail)
}.

(** What an invocation shows on the terminal.  Only the payload is kept; the
    layout of the human-readable lines is not modelled. *)
Inductive Output :=
| OutHelp
| OutStarted (json : bool) (tmux root : string) (p : N)
| OutStopped (json : bool) (sessionId : string)
| OutNotRunning (json : bool)
| OutStatus (json running : bool) (sessionId : string) (st : SessionState)
            (tmux : string) (p : N) (started activity : string)
| OutAttach (tmux : string).           (* terminal handed to tmux attach *)

(** Project configuration, as [loadConfig] returns it (src/config.ts is an
    external collaborator; only the fields the commands read are kept). *)
Record Config := mkConfig {
  project_root : string;
  project_canonicalBranch : string;
  mulch_enabled : bool;
  mulch_domains : list string
}.

(** The mail store, as far as status reads it. *)
Record MailStore := mkMailStore {
  unreadTo : string -> nat;
  lastFrom : string -> option string;
  lastTo : string -> option string
}.

(** What the surroundings answer during one invocation: the clock, the
    terminal, and the outcome of each collaborator whose source is outside
    the kernel ([None] or [inr]: it returns normally).  The clock is one
    instant for the whole invocation: readings the program takes moments
    apart are not told apart, so nothing is to be concluded from two of them
    being equal.  The identity store (src/agents/identity.ts) is not among
    the sources: what is known of it is that it may fail and that on a first
    run it creates files under [.overstory/agents]; the files it writes
    during the invocation are [identity_writes], none when the identity is
    already there. *)
Record Env := mkEnv {
  loadConfig_outcome : Exn + Config;
  isTTY : bool;
  now_iso : string;                      (* new Date().toISOString() *)
  now_ms : N;                            (* Date.now() *)
  deployHooks_outcome : option Exn;       (* a failure before the hooks are built *)
  identity_outcome : option Exn;         (* mkdir, loadIdentity, createIdentity *)
  identity_writes : list (string * string);   (* path, content; in order *)
  createSession_outcome : Exn + N;       (* the pid of the new session *)
  sendKeys_outcome : option Exn;
  listWorktrees_outcome : Exn + list (string * string * string);
  mailStore : option MailStore;          (* None: no mail.db, or it fails *)
  mergeQueuePending : nat;               (* pending entries of the queue file *)
  recentMetrics : nat;
  spawn : list string -> string -> CommandResult   (* Bun.spawn(cmd, {cwd}) *)
}.

Record World := mkWorld {
  env : Env;
  files : gmap string string;          (* path to content *)
  fs_readonly : bool;                  (* every write and rename fails *)
  fs_ops : list FsOp;                  (* oldest first *)
  tmux : option (list (string * N));   (* live sessions; None: no server *)
  stdout : list Output                 (* oldest first *)
}.

Definition with_files (f : gmap string string) (ops : list FsOp) (w : World)
  : World :=
  {| env := env w; files := f; fs_readonly := fs_readonly w;
     fs_ops := fs_ops w ++ ops; tmux := tmux w; stdout := stdout w |}.

Definition with_tmux (t : option (list (string * N))) (w : World) : World :=
  {| env := env w; files := files w; fs_readonly := fs_readonly w;
     fs_ops := fs_ops w; tmux := t; stdout := stdout w |}.

Definition with_stdout (o : Output) (w : World) : World :=
  {| env := env w; files := files w; fs_readonly := fs_readonly w;
     fs_ops := fs_ops w; tmux := tmux w; stdout := stdout w ++ [o] |}.

(** ** Computations: state plus exceptions *)

Inductive Outcome (A : Type) :=
| Return (a : A)
| Throw (x : Exn).
Arguments Return {A} a.
Arguments Throw {A} x.

Global Instance Outcome_fmap : FMap Outcome :=
  fun A B f o => match o with Return a => Return (f a) | Throw x => Throw x end.

Definition Eff (A : Type) : Type := World -> Outcome A * World.

Definition ret {A} (a : A) : Eff A := fun w => (Return a, w).
Definition throw {A} (x : Exn) : Eff A := fun w => (Throw x, w).

Definition bind {A B} (m : Eff A) (k : A -> Eff B) : Eff B :=
  fun w =>
    match m w with
    | (Return a, w') => k a w'
    | (Throw x, w') => (Throw x, w')
    end.

(** [try { m } catch { h }]: the effects [m] had before it threw stay. *)
Definition try_catch {A} (m : Eff A) (h : Exn -> Eff A) : Eff A :=
  fun w =>
    match m w with
    | (Return a, w') => (Return a, w')
    | (Throw x, w') => h x w'
    end.

Definition get_world : Eff World := fun w => (Return w, w).

Declare Scope eff_scope.
Delimit Scope eff_scope with eff.
Notation "x ←← m ; k" := (bind m (fun x => k))
  (at level 100, m at next level, right associativity) : eff_scope.
Notation "m ;;; k" := (bind m (fun _ => k))
  (at level 100, right associativity) : eff_scope.
Notation "'when' c 'then' m" := (if c then m else ret tt)
  (at level 99, c at level 9) : eff_scope.
Local Open Scope eff_scope.

(** ** Runtime primitives (Bun, node:fs, tmux wrapper) *)

(** [Bun.write(path, content)]: writes straight to [path]. *)
Definition Bun_write (path content : string) : Eff unit :=
  fun w =>
    if fs_readonly w then (Throw (RuntimeError "EROFS: write"), w)
    else (Return tt, with_files (<[path := content]> (files w))
                                [OpWrite path content] w).

(** [rename(src, dst)] of node:fs/promises: [dst] is replaced as a whole. *)
Definition rename (src dst : string) : Eff unit :=
  fun w =>
    if fs_readonly w then (Throw (RuntimeError "EROFS: rename"), w)
    else match files w !! src with
         | None => (Throw (RuntimeError "ENOENT: rename"), w)
         | Some c =>
             (Return tt, with_files (<[dst := c]> (delete src (files w)))
                                    [OpRename src dst] w)
         end.

(** [Bun.file(path).exists()] and [.text()]. *)
Definition file_exists (path : string) : Eff bool :=
  fun w => (Return (bool_decide (is_Some (files w !! path))), w).

Definition file_text (path : string) : Eff string :=
  fun w =>
    match files w !! path with
    | Some c => (Return c, w)
    | None => (Throw (RuntimeError "ENOENT: read"), w)
    end.

(** Modelled from the spec: [worktree/tmux.ts] is an external collaborator
    whose source is absent; its contract is "is this named session alive",
    list, kill and create.  Without a server no session is alive and the
    listing fails. *)
Definition sessionAlive (w : World) (nm : string) : bool :=
  match tmux w with
  | Some l => bool_decide (nm ∈ l.*1)
  | None => false
  end.

Definition isSessionAlive (nm : string) : Eff bool :=
  fun w => (Return (sessionAlive w nm), w).

Definition listSessions : Eff (list (string * N)) :=
  fun w =>
    match tmux w with
    | Some l => (Return l, w)
    | None => (Throw (Tagged (AgentError "tmux list-sessions failed" None)), w)
    end.

Definition killSession (nm : string) : Eff unit :=
  fun w =>
    (Return tt,
     with_tmux (filter (fun p => p.1 ≠ nm) <$> tmux w) w).

Definition write_stdout (o : Output) : Eff unit :=
  fun w => (Return tt, with_stdout o w).

(** [args.includes(flag)] *)
Definition includes (args : list string) (flag : string) : bool :=
  bool_decide (flag ∈ args).

(** Collaborators that only succeed or fail. *)
Definition external (o : World -> option Exn) : Eff unit :=
  fun w => match o w with
           | Some x => (Throw x, w)
           | None => (Return tt, w)
           end.

Definition loadConfig : Eff Config :=
  fun w => match loadConfig_outcome (env w) with
           | inl x => (Throw x, w)
           | inr c => (Return c, w)
           end.

Definition createSession (nm : string) : Eff N :=
  fun w => match createSession_outcome (env w) with
           | inl x => (Throw x, w)
           | inr p => (Return p, with_tmux (Some (default [] (tmux w) ++ [(nm, p)])) w)
           end.

Definition toISOString : Eff string := fun w => (Return (now_iso (env w)), w).
Definition Date_now : Eff N := fun w => (Return (now_ms (env w)), w).

(** [join(a, b, c)] of node:path on already normal segments. *)
Definition join3 (a b c : string) : string := a ++ "/" ++ b ++ "/" ++ c.

(** Writing files one after the other; the first failure stops the rest. *)
Fixpoint writeAll (l : list (string * string)) : Eff unit :=
  match l with
  | [] => ret tt
  | (path, content) :: rest => Bun_write path content ;;; writeAll rest
  end.

(** The files once [l] has been written, and the log of writing it. *)
Definition filesAfter (l : list (string * string)) (f : gmap string string)
  : gmap string string :=
  foldl (fun f pc => <[pc.1 := pc.2]> f) f l.

Definition writesOf (l : list (string * string)) : list FsOp :=
  map (fun pc => OpWrite pc.1 pc.2) l.

(** White space, as [String.prototype.trim] and [Number.parseInt] strip it:
    the WhiteSpace and LineTerminator characters of ECMAScript.  A text is
    kept as the bytes of its UTF-8 encoding, so the characters beyond ASCII
    are two or three bytes: U+00A0; U+1680; U+2000 to U+200A, U+2028, U+2029
    and U+202F; U+205F; U+3000; U+FEFF. *)
Definition white1 (c : ascii) : bool :=
  bool_decide (N_of_ascii c ∈ [9; 10; 11; 12; 13; 32]%N).

Definition white2 (c c1 : ascii) : bool :=
  bool_decide (N_of_ascii c = 194%N ∧ N_of_ascii c1 = 160%N).

Definition white3 (c c1 c2 : ascii) : bool :=
  let b := N_of_ascii c in
  let b1 := N_of_ascii c1 in
  let b2 := N_of_ascii c2 in
  bool_decide
    ((b = 225 ∧ b1 = 154 ∧ b2 = 128) ∨
     (b = 226 ∧ b1 = 128 ∧ (128 <= b2 <= 138 ∨ b2 = 168 ∨ b2 = 169 ∨ b2 = 175)) ∨
     (b = 226 ∧ b1 = 129 ∧ b2 = 159) ∨
     (b = 227 ∧ b1 = 128 ∧ b2 = 128) ∨
     (b = 239 ∧ b1 = 187 ∧ b2 = 191))%N.

(** [s.trimStart()] *)
Fixpoint trimStart (s : string) : string :=
  match s with
  | String c r =>
      if white1 c then trimStart r
      else
        match r with
        | String c1 r1 =>
            if white2 c c1 then trimStart r1
            else
              match r1 with
              | String c2 r2 => if white3 c c1 c2 then trimStart r2 else s
              | EmptyString => s
              end
        | EmptyString => s
        end
  | EmptyString => EmptyString
  end.

(** [s.trimEnd()]: what is left of [s] before the white space it ends in.
    No byte inside a character starts a white-space character, so the text
    can be walked byte by byte. *)
Fixpoint trimEnd (s : string) : string :=
  match s with
  | String c r =>
      if String.eqb (trimStart s) "" then EmptyString
      else String c (trimEnd r)
  | EmptyString => EmptyString
  end.

(** [s.trim()] *)
Definition trim (s : string) : string := trimEnd (trimStart s).

Definition isAscii (s : string) : bool :=
  forallb (fun c => (N_of_ascii c <? 128)%N) (list_ascii_of_string s).

(** [JSON.parse] and [JSON.stringify(., null, "\t")] at the type the
    registry is read and written at; they belong to the runtime, so the
    commands are parametric in them.  [JSON_parse text] is [None] when the
    parser throws.  A text that is JSON but not an array of session records
    has no place here: the reader would hand it on as it is, and the command
    that walks it would fail on it; what is stated of a registry is stated
    of one that is missing, is not JSON, or holds session records. *)
Class Json := {
  JSON_parse : string -> option (list AgentSession);
  JSON_stringify : list AgentSession -> string
}.

(** ** JSON documents (the runtime's [JSON.stringify] and [JSON.parse]) *)

Module JSON.

#[warnings="-register-all"]
Inductive json :=
| JNull
| JBool (b : bool)
| JNum (n : Z)
| JStr (s : string)
| JArr (items : list json)
| JObj (members : list (string * json)).

(** The double quote, by its code. *)
Definition dquote : ascii := "034"%char.

Definition hex_digit (n : N) : ascii :=
  match n with
  | 0 => "0" | 1 => "1" | 2 => "2" | 3 => "3" | 4 => "4" | 5 => "5"
  | 6 => "6" | 7 => "7" | 8 => "8" | 9 => "9" | 10 => "a" | 11 => "b"
  | 12 => "c" | 13 => "d" | 14 => "e" | _ => "f"
  end%N%char.

(** One character of a string literal, as [JSON.stringify] quotes it. *)
Definition escape_char (c : ascii) : string :=
  if Ascii.eqb c dquote then String "\" (String dquote "")
  else if Ascii.eqb c "\" then "\\"
  else if Ascii.eqb c "008" then "\b"
  else if Ascii.eqb c "009" then "\t"
  else if Ascii.eqb c "010" then "\n"
  else if Ascii.eqb c "012" then "\f"
  else if Ascii.eqb c "013" then "\r"
  else if (N_of_ascii c <? 32)%N
       then "\u00" +:+ String (hex_digit (N_of_ascii c / 16))
                        (String (hex_digit (N_of_ascii c mod 16)) "")
       else String c "".

Fixpoint escape (s : string) : string :=
  match s with
  | EmptyString => ""
  | String c s' => escape_char c +:+ escape s'
  end.

Definition quote (s : string) : string :=
  String dquote (escape s +:+ String dquote "").

Fixpoint tabs (n : nat) : string :=
  match n with
  | O => ""
  | S n' => String "009" (tabs n')
  end.

Definition newline : string := String "010" "".

Fixpoint join (sep : string) (l : list string) : string :=
  match l with
  | [] => ""
  | [x] => x
  | x :: rest => x +:+ sep +:+ join sep rest
  end.

(** [JSON.stringify(v, null, "\t")] at nesting depth [ind]. *)
Fixpoint stringify_at (ind : nat) (v : json) : string :=
  match v with
  | JNull => "null"
  | JBool true => "true"
  | JBool false => "false"
  | JNum n => pretty n
  | JStr s => quote s
  | JArr [] => "[]"
  | JArr items =>
      "[" +:+ newline +:+
      join ("," +:+ newline)
        (map (fun x => tabs (S ind) +:+ stringify_at (S ind) x) items) +:+
      newline +:+ tabs ind +:+ "]"
  | JObj [] => "{}"
  | JObj members =>
      "{" +:+ newline +:+
      join ("," +:+ newline)
        (map (fun kv => tabs (S ind) +:+ quote (fst kv) +:+ ": " +:+
                        stringify_at (S ind) (snd kv)) members) +:+
      newline +:+ tabs ind +:+ "}"
  end.

Definition stringify (v : json) : string := stringify_at 0 v.


(** *** Parsing *)

Definition is_ws (c : ascii) : bool :=
  Ascii.eqb c " " || Ascii.eqb c "009" || Ascii.eqb c "010" || Ascii.eqb c "013".

Fixpoint skip_ws (s : string) : string :=
  match s with
  | String c s' => if is_ws c then skip_ws s' else s
  | EmptyString => EmptyString
  end.

Definition hex_value (c : ascii) : option N :=
  let n := N_of_ascii c in
  if (48 <=? n)%N && (n <=? 57)%N then Some (n - 48)%N
  else if (97 <=? n)%N && (n <=? 102)%N then Some (n - 87)%N
  else if (65 <=? n)%N && (n <=? 70)%N then Some (n - 55)%N
  else None.

(** UTF-8 bytes of a code point of the basic plane. *)
Definition utf8 (cp : N) : string :=
  if (cp <? 128)%N then String (ascii_of_N cp) ""
  else if (cp <? 2048)%N
  then String (ascii_of_N (192 + cp / 64))
         (String (ascii_of_N (128 + cp mod 64)) "")
  else String (ascii_of_N (224 + cp / 4096))
         (String (ascii_of_N (128 + (cp / 64) mod 64))
            (String (ascii_of_N (128 + cp mod 64)) "")).

(** The rest of a string literal after its opening quote: the decoded
    content and what follows the closing quote. *)
Fixpoint parse_string_body (s : string) : option (string * string) :=
  match s with
  | EmptyString => None
  | String c rest =>
      if Ascii.eqb c dquote then Some ("", rest)
      else if Ascii.eqb c "\" then
        match rest with
        | String e rest' =>
            let simple (d : ascii) :=
              '(body, tl) ← parse_string_body rest' ; Some (String d body, tl) in
            if Ascii.eqb e dquote then simple dquote
            else if Ascii.eqb e "\" then simple "\"%char
            else if Ascii.eqb e "/" then simple "/"%char
            else if Ascii.eqb e "b" then simple "008"%char
            else if Ascii.eqb e "f" then simple "012"%char
            else if Ascii.eqb e "n" then simple "010"%char
            else if Ascii.eqb e "r" then simple "013"%char
            else if Ascii.eqb e "t" then simple "009"%char
            else if Ascii.eqb e "u" then
              match rest' with
              | String h1 (String h2 (String h3 (String h4 rest''))) =>
                  a ← hex_value h1 ; b ← hex_value h2 ;
                  c' ← hex_value h3 ; d ← hex_value h4 ;
                  '(body, tl) ← parse_string_body rest'' ;
                  Some (utf8 (a * 4096 + b * 256 + c' * 16 + d)%N +:+ body, tl)
              | _ => None
              end
            else None
        | EmptyString => None
        end
      else if (N_of_ascii c <? 32)%N then None
      else '(body, tl) ← parse_string_body rest ; Some (String c body, tl)
  end.

Definition is_digit (c : ascii) : bool :=
  (48 <=? N_of_ascii c)%N && (N_of_ascii c <=? 57)%N.

Fixpoint parse_digits (s : string) (acc : N) : N * string :=
  match s with
  | String c rest =>
      if is_digit c then parse_digits rest (acc * 10 + (N_of_ascii c - 48))%N
      else (acc, s)
  | EmptyString => (acc, s)
  end.

(** The digits of a JSON number: a single zero, or a run of digits that
    does not start with a zero. *)
Definition parse_natural (s : string) : option (N * string) :=
  match s with
  | String c rest =>
      if is_digit c
      then
        if Ascii.eqb c "0" &&
           match rest with
           | String d _ => is_digit d
           | EmptyString => false
           end
        then None
        else Some (parse_digits s 0%N)
      else None
  | EmptyString => None
  end.

(** Whole numbers only: the registry and the hook configuration hold no
    fractions or exponents, and a document that has one is not read here. *)
Definition parse_number (s : string) : option (Z * string) :=
  match s with
  | String "-" rest =>
      '(n, tl) ← parse_natural rest ; Some ((- Z.of_N n)%Z, tl)
  | _ => '(n, tl) ← parse_natural s ; Some (Z.of_N n, tl)
  end.

(** [expect lit s]: what follows the literal [lit] at the start of [s]. *)
Fixpoint expect (lit s : string) : option string :=
  match lit with
  | EmptyString => Some s
  | String a lit' =>
      match s with
      | String b s' => if Ascii.eqb a b then expect lit' s' else None
      | EmptyString => None
      end
  end.

Definition head_is (c : ascii) (s : string) : bool :=
  match s with
  | String d _ => Ascii.eqb d c
  | EmptyString => false
  end.

Definition tail (s : string) : string :=
  match s with
  | String _ t => t
  | EmptyString => EmptyString
  end.

(** Recursive descent; [fuel] bounds the nesting and the number of
    elements, and the length of the text is always enough. *)
Fixpoint parse_value (fuel : nat) (s : string) : option (json * string) :=
  match fuel with
  | O => None
  | S fuel =>
      let s := skip_ws s in
      if head_is "{" s then
        let r := skip_ws (tail s) in
        if head_is "}" r then Some (JObj [], tail r)
        else '(ms, tl) ← parse_members fuel r ; Some (JObj ms, tl)
      else if head_is "[" s then
        let r := skip_ws (tail s) in
        if head_is "]" r then Some (JArr [], tail r)
        else '(xs, tl) ← parse_elements fuel r ; Some (JArr xs, tl)
      else if head_is dquote s then
        '(str, tl) ← parse_string_body (tail s) ; Some (JStr str, tl)
      else if head_is "t" s then tl ← expect "true" s ; Some (JBool true, tl)
      else if head_is "f" s then tl ← expect "false" s ; Some (JBool false, tl)
      else if head_is "n" s then tl ← expect "null" s ; Some (JNull, tl)
      else '(n, tl) ← parse_number s ; Some (JNum n, tl)
  end
with parse_elements (fuel : nat) (s : string) : option (list json * string) :=
  match fuel with
  | O => None
  | S fuel =>
      '(v, tl) ← parse_value fuel s ;
      let tl := skip_ws tl in
      if head_is "," tl then
        '(vs, tl') ← parse_elements fuel (tail tl) ; Some (v :: vs, tl')
      else if head_is "]" tl then Some ([v], tail tl)
      else None
  end
with parse_members (fuel : nat) (s : string)
  : option (list (string * json) * string) :=
  match fuel with
  | O => None
  | S fuel =>
      let s := skip_ws s in
      if head_is dquote s then
        '(k, tl) ← parse_string_body (tail s) ;
        let tl := skip_ws tl in
        if head_is ":" tl then
          '(v, tl') ← parse_value fuel (tail tl) ;
          let tl' := skip_ws tl' in
          if head_is "," tl' then
            '(ms, tl'') ← parse_members fuel (tail tl') ;
            Some ((k, v) :: ms, tl'')
          else if head_is "}" tl' then Some ([(k, v)], tail tl')
          else None
        else None
      else None
  end.

(** [JSON.parse]: [None] stands for the thrown [SyntaxError]. *)
Definition parse (s : string) : option json :=
  '(v, tl) ← parse_value (S (String.length s)) s ;
  if String.eqb (skip_ws tl) "" then Some v else None.

(** Documents without numbers, and the number of their nodes. *)
Fixpoint textual (v : json) : bool :=
  match v with
  | JNull | JBool _ | JStr _ => true
  | JNum _ => false
  | JArr items => forallb textual items
  | JObj members => forallb (fun kv => textual (snd kv)) members
  end.

Fixpoint size (v : json) : nat :=
  match v with
  | JArr items => S (list_sum (map (fun x => S (size x)) items))
  | JObj members => S (list_sum (map (fun kv => S (size (snd kv))) members))
  | _ => 1
  end.

(** The text of the elements of an array, and of the members of an object,
    from the first one to the closing bracket, followed by [rest]. *)
Fixpoint elems_text (ind : nat) (items : list json) (rest : string) : string :=
  match items with
  | [] => rest
  | [x] => stringify_at (S ind) x +:+ newline +:+ tabs ind +:+ "]" +:+ rest
  | x :: xs =>
      stringify_at (S ind) x +:+ "," +:+ newline +:+ tabs (S ind) +:+
      elems_text ind xs rest
  end.

Fixpoint members_text (ind : nat) (members : list (string * json))
  (rest : string) : string :=
  match members with
  | [] => rest
  | [kv] =>
      quote (fst kv) +:+ ": " +:+ stringify_at (S ind) (snd kv) +:+
      newline +:+ tabs ind +:+ "}" +:+ rest
  | kv :: ms =>
      quote (fst kv) +:+ ": " +:+ stringify_at (S ind) (snd kv) +:+
      "," +:+ newline +:+ tabs (S ind) +:+ members_text ind ms rest
  end.

End JSON.

(** Induction over documents, through the lists nested in them. *)
Section JsonInduction.
Import JSON.
Variable P : json -> Prop.
Hypothesis Hnull : P JNull.
Hypothesis Hbool : forall b, P (JBool b).
Hypothesis Hnum : forall n, P (JNum n).
Hypothesis Hstr : forall s, P (JStr s).
Hypothesis Harr : forall items, Forall P items -> P (JArr items).
Hypothesis Hobj :
  forall members, Forall (fun kv => P (snd kv)) members -> P (JObj members).

Fixpoint json_nested_ind (v : json) : P v :=
  match v with
  | JNull => Hnull
  | JBool b => Hbool b
  | JNum n => Hnum n
  | JStr s => Hstr s
  | JArr items =>
      Harr items
        ((fix go (l : list json) : Forall P l :=
            match l with
            | [] => @List.Forall_nil _ P
            | x :: l' => @List.Forall_cons _ P x l' (json_nested_ind x) (go l')
            end) items)
  | JObj members =>
      Hobj members
        ((fix go (l : list (string * json))
            : Forall (fun kv => P (snd kv)) l :=
            match l with
            | [] => @List.Forall_nil _ (fun kv => P (snd kv))
            | kv :: l' =>
                @List.Forall_cons _ (fun kv => P (snd kv)) kv l'
                  (json_nested_ind (snd kv)) (go l')
            end) members)
  end.
End JsonInduction.

(** ** Paths ([join] and [normalize] of node:path, POSIX flavour) *)

Module Path.

(** [s.split("/")] *)
Fixpoint splitSlash (s : string) : list string :=
  match s with
  | EmptyString => [EmptyString]
  | String c r =>
      if Ascii.eqb c "/" then EmptyString :: splitSlash r
      else
        match splitSlash r with
        | x :: xs => String c x :: xs
        | [] => [String c EmptyString]
        end
  end.

(** One step of [normalizeString]: empty segments and [.] are dropped; [..]
    takes back the segment before it, unless there is none or it is itself
    [..], in which case it is kept when the path is relative and dropped
    when it is absolute. *)
Definition pushSegment (allowAboveRoot : bool) (res : list string)
  (seg : string) : list string :=
  if String.eqb seg "" || String.eqb seg "." then res
  else if String.eqb seg ".." then
    match last res with
    | Some l =>
        if String.eqb l ".."
        then (if allowAboveRoot then res ++ [".."] else res)
        else removelast res
    | None => if allowAboveRoot then [".."] else []
    end
  else res ++ [seg].

Fixpoint endsWithSlash (s : string) : bool :=
  match s with
  | EmptyString => false
  | String c EmptyString => Ascii.eqb c "/"
  | String _ r => endsWithSlash r
  end.

Definition normalize (path : string) : string :=
  if String.eqb path "" then "."
  else
    let isAbsolute := String.prefix "/" path in
    let trailingSeparator := endsWithSlash path in
    let res :=
      JSON.join "/" (foldl (pushSegment (negb isAbsolute)) [] (splitSlash path)) in
    if String.eqb res ""
    then (if isAbsolute then "/" else if trailingSeparator then "./" else ".")
    else (if isAbsolute then "/" else "") ++ res ++
         (if trailingSeparator then "/" else "").

(** [join(...args)]: the arguments that are not empty, with a separator
    between them, normalized. *)
Definition join (args : list string) : string :=
  match filter (fun a => a ≠ EmptyString) args with
  | [] => "."
  | parts => normalize (JSON.join "/" parts)
  end.

End Path.

(** The registry file as a JSON document: an array of session objects. *)
Module SessionCodec.
Import JSON.

Definition state_name (st : SessionState) : string :=
  match st with
  | booting => "booting" | working => "working" | completed => "completed"
  | stalled => "stalled" | zombie => "zombie"
  end.

Definition state_of_name (s : string) : option SessionState :=
  if String.eqb s "booting" then Some booting
  else if String.eqb s "working" then Some working
  else if String.eqb s "completed" then Some completed
  else if String.eqb s "stalled" then Some stalled
  else if String.eqb s "zombie" then Some zombie
  else None.

Definition session_to_json (s : AgentSession) : json :=
  JObj [("id", JStr (s_id s));
        ("agentName", JStr (s_agentName s));
        ("capability", JStr (capability s));
        ("worktreePath", JStr (worktreePath s));
        ("branchName", JStr (branchName s));
        ("beadId", JStr (beadId s));
        ("tmuxSession", JStr (tmuxSession s));
        ("state", JStr (state_name (state s)));
        ("pid", JNum (Z.of_N (pid s)));
        ("parentAgent", from_option JStr JNull (parentAgent s));
        ("depth", JNum (Z.of_nat (depth s)));
        ("startedAt", JStr (startedAt s));
        ("lastActivity", JStr (lastActivity s))].

Fixpoint member (k : string) (ms : list (string * json)) : option json :=
  match ms with
  | [] => None
  | (k', v) :: rest => if String.eqb k k' then Some v else member k rest
  end.

Definition str_member (k : string) (ms : list (string * json)) : option string :=
  match member k ms with Some (JStr s) => Some s | _ => None end.

Definition nat_member (k : string) (ms : list (string * json)) : option nat :=
  match member k ms with
  | Some (JNum n) => if (0 <=? n)%Z then Some (Z.to_nat n) else None
  | _ => None
  end.

Definition N_member (k : string) (ms : list (string * json)) : option N :=
  match member k ms with
  | Some (JNum n) => if (0 <=? n)%Z then Some (Z.to_N n) else None
  | _ => None
  end.

Definition session_of_json (v : json) : option AgentSession :=
  match v with
  | JObj ms =>
      i ← str_member "id" ms ; a ← str_member "agentName" ms ;
      c ← str_member "capability" ms ; wt ← str_member "worktreePath" ms ;
      br ← str_member "branchName" ms ; bd ← str_member "beadId" ms ;
      tm ← str_member "tmuxSession" ms ;
      st ← str_member "state" ms ≫= state_of_name ;
      p ← N_member "pid" ms ;
      pa ← match member "parentAgent" ms with
           | Some JNull => Some None
           | Some (JStr s) => Some (Some s)
           | _ => None
           end ;
      d ← nat_member "depth" ms ;
      sa ← str_member "startedAt" ms ; la ← str_member "lastActivity" ms ;
      Some (mkAgentSession i a c wt br bd tm st p pa d sa la)
  | _ => None
  end.

(** A document that parses but is not an array of session records is
    outside what the cast [as AgentSession[]] can give a meaning to, and
    outside this reading of the registry: no such document is used below. *)
Definition parse_sessions (text : string) : option (list AgentSession) :=
  match parse text with
  | Some (JArr items) => mapM session_of_json items
  | _ => None
  end.

Definition stringify_sessions (ss : list AgentSession) : string :=
  stringify (JArr (map session_to_json ss)).

Definition codec : Json :=
  {| JSON_parse := parse_sessions; JSON_stringify := stringify_sessions |}.

End SessionCodec.

(** ** Guard synthesis and hook deployment (src/agents/hooks-deployer.ts) *)

Module HooksDeployer.

(** Modelled from the spec: [hooks-deployer.ts] and its template file are not
    among the sources; only the test file and the coordinator's call are.
    The definitions follow sections 4.1, 4.2 and 6 of the specification and
    the shapes the tests read back: a configuration is an object [hooks] of
    named arrays of [{matcher, hooks: [{type: "command", command}]}]; the
    template wires the six categories to the prime, mail-check and log
    commands with the placeholder where the agent name goes; the guard set
    is the ten team-tool blocks, then for a non-implementation capability
    the three file-tool blocks and the Bash file guard; the danger guard is
    one Bash rule; deployment substitutes the name, puts danger guard and
    capability guards in front of the template's PreToolUse rules and
    overwrites [<worktree>/.claude/settings.local.json].  The wording of
    the shell scripts is only as exact as the fragments the tests look
    for. *)
Record HookCommand := mkHookCommand {
  hc_type : string;
  hc_command : string
}.

Record HookEntry := mkHookEntry {
  matcher : string;
  hooks : list HookCommand
}.

(** The [hooks] object: categories in insertion order. *)
Definition HooksConfig : Type := list (string * list HookEntry).

Definition PLACEHOLDER : string := "{{AGENT_NAME}}".

Definition HOOK_CATEGORIES : list string :=
  ["SessionStart"; "UserPromptSubmit"; "PreToolUse"; "PostToolUse"; "Stop";
   "PreCompact"].

Definition commandHook (cmd : string) : HookCommand :=
  {| hc_type := "command"; hc_command := cmd |}.

Definition baseRule (cmd : string) : HookEntry :=
  {| matcher := ""; hooks := [commandHook cmd] |}.

Definition TEMPLATE : HooksConfig :=
  [("SessionStart", [baseRule "overstory prime --agent {{AGENT_NAME}}"]);
   ("UserPromptSubmit",
      [baseRule "overstory mail check --inject --agent {{AGENT_NAME}}"]);
   ("PreToolUse", [baseRule "overstory log tool-start --agent {{AGENT_NAME}}"]);
   ("PostToolUse", [baseRule "overstory log tool-end --agent {{AGENT_NAME}}"]);
   ("Stop", [baseRule "overstory log session-end --agent {{AGENT_NAME}}"]);
   ("PreCompact",
      [baseRule "overstory prime --agent {{AGENT_NAME}} --compact"])].

(** [occurs pat s]: [pat] is a substring of [s] ([s.includes(pat)]). *)
Fixpoint occurs (pat s : string) : bool :=
  String.prefix pat s ||
  match s with
  | EmptyString => false
  | String _ s' => occurs pat s'
  end.

(** Replacing every occurrence, scanning from the left; [skip] counts the
    characters of a match that are still to be dropped. *)
Fixpoint replaceAll_from (skip : nat) (s pat rep : string) : string :=
  match s with
  | EmptyString => EmptyString
  | String c s' =>
      match skip with
      | S k => replaceAll_from k s' pat rep
      | O =>
          if String.prefix pat s
          then rep +:+ replaceAll_from (String.length pat - 1) s' pat rep
          else String c (replaceAll_from 0 s' pat rep)
      end
  end.

Definition replaceAll (s pat rep : string) : string :=
  replaceAll_from 0 s pat rep.

Definition substituteEntry (agentName : string) (e : HookEntry) : HookEntry :=
  {| matcher := replaceAll (matcher e) PLACEHOLDER agentName;
     hooks := map (fun h => {| hc_type := replaceAll (hc_type h) PLACEHOLDER agentName;
                               hc_command := replaceAll (hc_command h) PLACEHOLDER agentName |})
                  (hooks e) |}.

Definition substitute (agentName : string) (config : HooksConfig) : HooksConfig :=
  map (fun kv => (replaceAll kv.1 PLACEHOLDER agentName,
                  map (substituteEntry agentName) kv.2)) config.

(** *** 4.1 Guard synthesizer *)

Definition NATIVE_TEAM_TOOLS : list string :=
  ["Task"; "TeamCreate"; "TeamDelete"; "SendMessage"; "TaskCreate";
   "TaskUpdate"; "TaskList"; "TaskGet"; "TaskOutput"; "TaskStop"].

Definition WRITE_TOOLS : list string := ["Write"; "Edit"; "NotebookEdit"].

Definition NON_IMPLEMENTATION_CAPABILITIES : list string :=
  ["scout"; "reviewer"; "lead"; "coordinator"; "supervisor"].

Definition COORDINATION_CAPABILITIES : list string :=
  ["coordinator"; "supervisor"].

Definition SAFE_BASH_PREFIXES : list string :=
  ["overstory "; "bd "; "git status"; "git log"; "git diff"; "git show";
   "git blame"; "git branch"; "mulch "; "bun test"; "bun run lint";
   "bun run typecheck"].

Definition COORDINATION_SAFE_PREFIXES : list string := ["git add"; "git commit"].

Definition DANGEROUS_BASH_PATTERNS : list string :=
  ["sed\s+-i"; "sed\s+--in-place"; "echo\s+.*>"; "printf\s+.*>"; "cat\s+.*>";
   "tee\s"; "\bvim\b"; "\bnano\b"; "\bvi\b"; "\bmv\s"; "\bcp\s"; "\brm\s";
   "\bmkdir\s"; "\btouch\s"; "\bchmod\s"; "\bchown\s"; ">>";
   "\bgit\s+add\b"; "\bgit\s+commit\b"; "\bgit\s+merge\b"; "\bgit\s+push\b";
   "\bgit\s+reset\b"; "\bgit\s+checkout\b"; "\bgit\s+rebase\b";
   "\bgit\s+stash\b"; "\bnpm\s+install\b"; "\bbun\s+install\b";
   "\bbun\s+add\b"].

Definition dq : string := String JSON.dquote "".

(** The structured line a triggered block guard prints. *)
Definition blockDecision (reason : string) : string :=
  "{" +:+ dq +:+ "decision" +:+ dq +:+ ":" +:+ dq +:+ "block" +:+ dq +:+ "," +:+
  dq +:+ "reason" +:+ dq +:+ ":" +:+ dq +:+ reason +:+ dq +:+ "}".

Definition blockGuard (tool reason : string) : HookEntry :=
  {| matcher := tool;
     hooks := [commandHook ("echo '" +:+ blockDecision reason +:+ "'")] |}.

(** Reading the command text of the intercepted Bash call from stdin. *)
Definition READ_COMMAND : string :=
  "read -r INPUT; CMD=$(echo " +:+ dq +:+ "$INPUT" +:+ dq +:+
  " | sed 's/.*" +:+ dq +:+ "command" +:+ dq +:+ ": *" +:+ dq +:+ "\([^" +:+ dq +:+
  "]*\)" +:+ dq +:+ ".*/\1/');".

Definition grepCmd (pattern : string) : string :=
  " if echo " +:+ dq +:+ "$CMD" +:+ dq +:+ " | grep -qE '" +:+ pattern +:+ "'; then".

Definition buildBashFileGuardScript (capability : string)
  (extraSafePrefixes : list string) : string :=
  READ_COMMAND +:+
  JSON.join ""
    (map (fun prefix => grepCmd ("^\s*" +:+ prefix) +:+ " exit 0; fi;")
         (SAFE_BASH_PREFIXES ++ extraSafePrefixes)) +:+
  grepCmd (JSON.join "|" DANGEROUS_BASH_PATTERNS) +:+
  " echo '" +:+
  blockDecision (capability +:+
    " agents cannot modify files - this command is not allowed") +:+
  "'; exit 0; fi;".

Definition getDangerGuards (agentName : string) : list HookEntry :=
  [{| matcher := "Bash";
      hooks := [commandHook
        (READ_COMMAND +:+
         grepCmd "git\s+push\s+\S+\s+(main|master)" +:+ " echo '" +:+
         blockDecision "Agents must not push to main/master - use overstory merge" +:+
         "'; exit 0; fi;" +:+
         grepCmd "git\s+reset\s+--hard" +:+ " echo '" +:+
         blockDecision "git reset --hard is not allowed - it destroys uncommitted work" +:+
         "'; exit 0; fi;" +:+
         grepCmd "git\s+checkout\s+-b\s" +:+
         " BRANCH=$(echo " +:+ dq +:+ "$CMD" +:+ dq +:+
         " | sed 's/.*git\s*checkout\s*-b\s*\([^ ]*\).*/\1/');" +:+
         " if ! echo " +:+ dq +:+ "$BRANCH" +:+ dq +:+
         " | grep -qE '^overstory/" +:+ agentName +:+ "/'; then echo '" +:+
         blockDecision "Branch must follow the overstory/<agent>/<bead> convention" +:+
         "'; exit 0; fi; fi;")] |}].

Definition getCapabilityGuards (capability : string) : list HookEntry :=
  let teamToolGuards :=
    map (fun tool => blockGuard tool
           ("Overstory agents must use overstory sling and overstory mail - " +:+
            tool +:+ " is not allowed"))
        NATIVE_TEAM_TOOLS in
  if bool_decide (capability ∈ NON_IMPLEMENTATION_CAPABILITIES)
  then
    let toolGuards :=
      map (fun tool => blockGuard tool
             (capability +:+ " agents cannot modify files - " +:+ tool +:+
              " is not allowed"))
          WRITE_TOOLS in
    let extraSafe :=
      if bool_decide (capability ∈ COORDINATION_CAPABILITIES)
      then COORDINATION_SAFE_PREFIXES else [] in
    teamToolGuards ++ toolGuards ++
    [{| matcher := "Bash";
        hooks := [commandHook (buildBashFileGuardScript capability extraSafe)] |}]
  else teamToolGuards.

(** *** 4.2 Hook deployer *)

(** [config.hooks.PreToolUse = [...guards, ...(config.hooks.PreToolUse ?? [])]] *)
Fixpoint prependTo (category : string) (guards : list HookEntry)
  (config : HooksConfig) : HooksConfig :=
  match config with
  | [] => [(category, guards)]
  | (k, rules) :: rest =>
      if String.eqb k category then (k, guards ++ rules) :: rest
      else (k, rules) :: prependTo category guards rest
  end.

Definition entry_to_json (e : HookEntry) : JSON.json :=
  JSON.JObj [("matcher", JSON.JStr (matcher e));
             ("hooks", JSON.JArr
                (map (fun h => JSON.JObj [("type", JSON.JStr (hc_type h));
                                          ("command", JSON.JStr (hc_command h))])
                     (hooks e)))].

Definition config_to_json (config : HooksConfig) : JSON.json :=
  JSON.JObj [("hooks", JSON.JObj
    (map (fun kv => (kv.1, JSON.JArr (map entry_to_json kv.2))) config))].

Definition buildConfig (agentName capability : string) : HooksConfig :=
  let config := substitute agentName TEMPLATE in
  let allGuards := getDangerGuards agentName ++ getCapabilityGuards capability in
  if bool_decide (List.length allGuards = 0) then config
  else prependTo "PreToolUse" allGuards config.

Definition settingsPath (worktreePath : string) : string :=
  join3 worktreePath ".claude" "settings.local.json".

Definition deployFailed (agentName what : string) : Exn :=
  Tagged (AgentError ("Failed to deploy hooks: " +:+ what)
            (Some {| ctx_agentName := Some agentName |})).

(** The text that is written for an agent of a capability. *)
Definition deployedText (agentName capability : string) : string :=
  JSON.stringify (config_to_json (buildConfig agentName capability)) +:+
  String "010" "".
Arguments deployedText : simpl never.

(** [templatePresent]: whether the template file can be read. *)
Definition deployHooks (templatePresent : bool)
  (worktreePath agentName : string) (capability : option string) : Eff unit :=
  let capability := default "builder" capability in
  if negb templatePresent
  then throw (deployFailed agentName "hooks template not found")
  else
    let config := buildConfig agentName capability in
    let finalContent :=
      JSON.stringify (config_to_json config) +:+ String "010" "" in
    try_catch (Bun_write (settingsPath worktreePath) finalContent)
      (fun _ => throw (deployFailed agentName "cannot write settings")).

(** Every string of a configuration. *)
Definition entryStrings (e : HookEntry) : list string :=
  matcher e :: flat_map (fun h => [hc_type h; hc_command h]) (hooks e).

Definition configStrings (config : HooksConfig) : list string :=
  flat_map (fun kv => kv.1 :: flat_map entryStrings kv.2) config.

Fixpoint category (k : string) (config : HooksConfig) : list HookEntry :=
  match config with
  | [] => []
  | (k', rules) :: rest =>
      if String.eqb k' k then rules else category k rest
  end.

Definition preToolUse (config : HooksConfig) : list HookEntry :=
  category "PreToolUse" config.

End HooksDeployer.

(** ** Coordinator command (src/commands/coordinator.ts) *)

Module Coordinator.
Section Coordinator.
Context `{Json}.

Definition COORDINATOR_NAME : string := "coordinator".
Definition TMUX_SESSION : string := "overstory-" ++ COORDINATOR_NAME.

Definition loadSessions (sessionsPath : string) : Eff (list AgentSession) :=
  ex ←← file_exists sessionsPath ;
  if negb ex then ret []
  else
    try_catch
      (text ←← file_text sessionsPath ;
       match JSON_parse text with
       | Some ss => ret ss
       | None => throw (RuntimeError "SyntaxError: JSON.parse")
       end)
      (fun _ => ret []).

Definition saveSessions (sessionsPath : string) (sessions : list AgentSession)
  : Eff unit :=
  Bun_write sessionsPath (JSON_stringify sessions ++ String "010" "").

Definition isActiveCoordinator (s : AgentSession) : Prop :=
  s_agentName s = COORDINATOR_NAME ∧ capability s = "coordinator" ∧
  state s ≠ completed ∧ state s ≠ zombie.

Global Instance isActiveCoordinator_dec s : Decision (isActiveCoordinator s).
Proof. unfold isActiveCoordinator. apply _. Defined.

(** [sessions.find(...)]: the first match, with its index, since the caller
    mutates the found element in place inside [sessions]. *)
Definition findCoordinatorSession (sessions : list AgentSession)
  : option (nat * AgentSession) :=
  list_find isActiveCoordinator sessions.

Definition resolveAttach (args : list string) (tty : bool) : bool :=
  if includes args "--attach" then true
  else if includes args "--no-attach" then false
  else tty.

Definition alreadyRunning (existing : AgentSession) : Exn :=
  Tagged (AgentError
    ("Coordinator is already running (tmux: " ++ tmuxSession existing ++
     ", since: " ++ startedAt existing ++ ")")
    (Some {| ctx_agentName := Some COORDINATOR_NAME |})).

Definition newCoordinatorSession (config : Config) (p : N) (ms : N)
  (t1 t2 : string) : AgentSession :=
  {| s_id := "session-" ++ pretty ms ++ "-" ++ COORDINATOR_NAME;
     s_agentName := COORDINATOR_NAME;
     capability := "coordinator";
     worktreePath := project_root config;
     branchName := project_canonicalBranch config;
     beadId := "";
     tmuxSession := TMUX_SESSION;
     state := booting;
     pid := p;
     parentAgent := None;
     depth := 0;
     startedAt := t1;
     lastActivity := t2 |}.

(** [deployHooks] overwrites the settings file of the project root; the
    identity store writes its files on a first run; both happen after the
    stale record was written back and before the session is created.
    [sendKeys] is seen by its outcome only. *)
Definition startCoordinator (args : list string) : Eff unit :=
  let json := includes args "--json" in
  tty ←← (fun w => (Return (isTTY (env w)), w)) ;
  let shouldAttach := resolveAttach args tty in
  config ←← loadConfig ;
  let projectRoot := project_root config in
  let sessionsPath := join3 projectRoot ".overstory" "sessions.json" in
  sessions ←← loadSessions sessionsPath ;
  sessions ←←
    match findCoordinatorSession sessions with
    | Some (i, existing) =>
        alive ←← isSessionAlive (tmuxSession existing) ;
        if alive then throw (alreadyRunning existing)
        else
          let sessions' := <[i := set_state completed existing]> sessions in
          saveSessions sessionsPath sessions' ;;;
          ret sessions'
    | None => ret sessions
    end ;
  external (fun w => deployHooks_outcome (env w)) ;;;
  HooksDeployer.deployHooks true projectRoot COORDINATOR_NAME
    (Some "coordinator") ;;;
  external (fun w => identity_outcome (env w)) ;;;
  identityFiles ←← (fun w => (Return (identity_writes (env w)), w)) ;
  writeAll identityFiles ;;;
  p ←← createSession TMUX_SESSION ;
  external (fun w => sendKeys_outcome (env w)) ;;;
  external (fun w => sendKeys_outcome (env w)) ;;;
  ms ←← Date_now ;
  t1 ←← toISOString ;
  t2 ←← toISOString ;
  let session := newCoordinatorSession config p ms t1 t2 in
  let sessions := sessions ++ [session] in
  saveSessions sessionsPath sessions ;;;
  write_stdout (OutStarted json TMUX_SESSION projectRoot p) ;;;
  when shouldAttach then write_stdout (OutAttach TMUX_SESSION).

Definition noActiveSession : Exn :=
  Tagged (AgentError "No active coordinator session found"
            (Some {| ctx_agentName := Some COORDINATOR_NAME |})).

Definition stopCoordinator (args : list string) : Eff unit :=
  let json := includes args "--json" in
  config ←← loadConfig ;
  let projectRoot := project_root config in
  let sessionsPath := join3 projectRoot ".overstory" "sessions.json" in
  sessions ←← loadSessions sessionsPath ;
  match findCoordinatorSession sessions with
  | None => throw noActiveSession
  | Some (i, session) =>
      alive ←← isSessionAlive (tmuxSession session) ;
      (when alive then killSession (tmuxSession session)) ;;;
      t ←← toISOString ;
      let session := set_lastActivity t (set_state completed session) in
      let sessions := <[i := session]> sessions in
      saveSessions sessionsPath sessions ;;;
      write_stdout (OutStopped json (s_id session))
  end.

Definition statusCoordinator (args : list string) : Eff unit :=
  let json := includes args "--json" in
  config ←← loadConfig ;
  let projectRoot := project_root config in
  let sessionsPath := join3 projectRoot ".overstory" "sessions.json" in
  sessions ←← loadSessions sessionsPath ;
  match findCoordinatorSession sessions with
  | None => write_stdout (OutNotRunning json)
  | Some (i, session) =>
      alive ←← isSessionAlive (tmuxSession session) ;
      session ←←
        (if negb alive && bool_decide (state session ≠ completed)
                       && bool_decide (state session ≠ zombie)
         then
           t ←← toISOString ;
           let session := set_lastActivity t (set_state zombie session) in
           saveSessions sessionsPath (<[i := session]> sessions) ;;;
           ret session
         else ret session) ;
      write_stdout
        (OutStatus json alive (s_id session) (state session)
           (tmuxSession session) (pid session) (startedAt session)
           (lastActivity session))
  end.

Definition unknownSubcommand (subcommand : string) : Exn :=
  Tagged (ValidationError
    ("Unknown coordinator subcommand: " ++ subcommand ++
     ". Run 'overstory coordinator --help' for usage.")
    "subcommand" subcommand).

Definition coordinatorCommand (args : list string) : Eff unit :=
  if includes args "--help" || includes args "-h" ||
     bool_decide (List.length args = 0)
  then write_stdout OutHelp
  else
    match args with
    | [] => write_stdout OutHelp
    | subcommand :: subArgs =>
        if String.eqb subcommand "start" then startCoordinator subArgs
        else if String.eqb subcommand "stop" then stopCoordinator subArgs
        else if String.eqb subcommand "status" then statusCoordinator subArgs
        else throw (unknownSubcommand subcommand)
    end.

End Coordinator.
End Coordinator.

(** ** Status command (src/commands/status.ts) *)

Module Status.
Section Status.
Context `{Json}.

(** [args.indexOf(flag)], then the element after it, if there is one. *)
Definition getFlag (args : list string) (flag : string) : option string :=
  match list_find (eq flag) args with
  | None => None
  | Some (idx, _) =>
      if bool_decide (List.length args <= idx + 1) then None
      else args !! (idx + 1)
  end.

Definition hasFlag (args : list string) (flag : string) : bool :=
  includes args flag.

(** On whole numbers of milliseconds, as the difference of two timestamps
    is; [/] is the floor and [Z.rem] is the remainder [%].  The program
    computes in doubles: below 2^53 in absolute value, which every difference
    of two timestamps is, its divisions and floors give these whole
    numbers. *)
Definition formatDuration (ms : Z) : string :=
  let seconds := (ms / 1000)%Z in
  if (seconds <? 60)%Z then pretty seconds ++ "s"
  else
    let minutes := (seconds / 60)%Z in
    let remainSec := Z.rem seconds 60 in
    if (minutes <? 60)%Z
    then pretty minutes ++ "m " ++ pretty remainSec ++ "s"
    else
      let hours := (minutes / 60)%Z in
      let remainMin := Z.rem minutes 60 in
      pretty hours ++ "h " ++ pretty remainMin ++ "m".

Definition loadSessions (root : string) : Eff (list AgentSession) :=
  let path := join3 root ".overstory" "sessions.json" in
  ex ←← file_exists path ;
  if negb ex then ret []
  else
    try_catch
      (text ←← file_text path ;
       match JSON_parse text with
       | Some ss => ret ss
       | None => throw (RuntimeError "SyntaxError: JSON.parse")
       end)
      (fun _ => ret []).

(** The reconciliation loop: [sessions] is walked in order, each element is
    mutated in place, and [sessionsUpdated] is the flag carried along. *)
Fixpoint reconcile (tmuxSessions : list (string * N))
  (sessions : list AgentSession) (sessionsUpdated : bool)
  : list AgentSession * bool :=
  match sessions with
  | [] => ([], sessionsUpdated)
  | session :: rest =>
      if bool_decide (state session = booting ∨ state session = working ∨
                      state session = stalled)
      then
        let tmuxAlive :=
          existsb (fun s => String.eqb s.1 (tmuxSession session)) tmuxSessions in
        if negb tmuxAlive
        then let '(rest', u) := reconcile tmuxSessions rest true in
             (set_state zombie session :: rest', u)
        else let '(rest', u) := reconcile tmuxSessions rest sessionsUpdated in
             (session :: rest', u)
      else let '(rest', u) := reconcile tmuxSessions rest sessionsUpdated in
           (session :: rest', u)
  end.

(** The condition under which the loop marks a session: it is booting,
    working or stalled, and no listed multiplexer session bears its name. *)
Definition lost (tmuxSessions : list (string * N)) (s : AgentSession) : bool :=
  bool_decide (state s = booting ∨ state s = working ∨ state s = stalled)
  && negb (existsb (fun t => String.eqb t.1 (tmuxSession s)) tmuxSessions).

(** The persisting block of [gatherStatus]: temporary file, then rename,
    inside a [try] whose [catch] is empty. *)
Definition persistReconciled (root : string) (sessions : list AgentSession)
  : Eff unit :=
  try_catch
    (let sessionsPath := join3 root ".overstory" "sessions.json" in
     let tmpPath := (sessionsPath ++ ".tmp")%string in
     Bun_write tmpPath (JSON_stringify sessions ++ String "010" "") ;;;
     rename tmpPath sessionsPath)
    (fun _ => ret tt).

Definition verboseDetail (root : string) (store : option MailStore)
  (session : AgentSession) : VerboseAgentDetail :=
  {| vd_worktreePath := worktreePath session;
     vd_logsDir := Path.join [root; ".overstory"; "logs"; s_agentName session];
     vd_lastMailSent := store ≫= (fun m => lastFrom m (s_agentName session));
     vd_lastMailReceived := store ≫= (fun m => lastTo m (s_agentName session));
     vd_capability := capability session |}.

(** [obj[key] = value] on an object that began as [{}]; the map holds the
    entries of the object itself.  The key [__proto__] is the accessor of
    the prototype: assigning to it makes no entry. *)
Definition assign {V} (key : string) (value : V) (obj : gmap string V)
  : gmap string V :=
  if String.eqb key "__proto__" then obj else <[key := value]> obj.

Definition gatherStatus (root agentName : string) (verbose : bool)
  : Eff StatusData :=
  sessions ←← loadSessions root ;
  wts ←← (fun w => match listWorktrees_outcome (env w) with
                   | inl x => (Throw x, w)
                   | inr l => (Return l, w)
                   end) ;
  tmuxSessions ←← try_catch listSessions (fun _ => ret []) ;
  let '(sessions, sessionsUpdated) := reconcile tmuxSessions sessions false in
  (when sessionsUpdated then persistReconciled root sessions) ;;;
  w ←← get_world ;
  let store := mailStore (env w) in
  let unread := from_option (fun m => unreadTo m agentName) 0 store in
  let details :=
    if verbose && negb (bool_decide (List.length sessions = 0))
    then Some (foldl (fun acc session =>
                        assign (s_agentName session)
                          (verboseDetail root store session) acc)
                     ∅ sessions)
    else None in
  ret {| agents := sessions;
         worktrees := wts;
         tmuxSessions := tmuxSessions;
         unreadMailCount := unread;
         mergeQueueCount := mergeQueuePending (env w);
         recentMetricsCount := recentMetrics (env w);
         verboseDetails := details |}.

(** [Number.parseInt(s, 10)]: leading white space, an optional sign, then
    the longest run of decimal digits, whatever follows them; [None] stands
    for NaN.  The number is kept exact where the program rounds a long run
    of digits to a double; it is below 500 in the one exactly when it is in
    the other. *)
Definition parseInt10 (s : string) : option Z :=
  let s := trimStart s in
  let '(negative, digits) :=
    match s with
    | String "-" r => (true, r)
    | String "+" r => (false, r)
    | _ => (false, s)
    end in
  match digits with
  | String c _ =>
      if JSON.is_digit c
      then let n := Z.of_N (JSON.parse_digits digits 0%N).1 in
           Some (if negative then (- n)%Z else n)
      else None
  | EmptyString => None
  end.

(** What the status command printed, in order: the usage, the sequence that
    clears the screen, or the gathered data, as JSON or laid out for the
    terminal. *)
Inductive StatusPrinted :=
| PrintedHelp
| PrintedClear
| PrintedStatus (json : bool) (data : StatusData).

Definition badInterval (intervalStr : string) : Exn :=
  Tagged (ValidationError "--interval must be a number >= 500 (milliseconds)"
            "interval" intervalStr).

(** The polling loop does not end by itself; [rounds] is the number of
    polls that are observed. *)
Fixpoint poll (rounds : nat) (root agentName : string) (json verbose : bool)
  : Eff (list StatusPrinted) :=
  match rounds with
  | O => ret []
  | S rounds' =>
      data ←← gatherStatus root agentName verbose ;
      rest ←← poll rounds' root agentName json verbose ;
      ret (PrintedClear :: PrintedStatus json data :: rest)
  end.

Definition statusCommand (args : list string) (rounds : nat)
  : Eff (list StatusPrinted) :=
  if includes args "--help" || includes args "-h" then ret [PrintedHelp]
  else
    let json := hasFlag args "--json" in
    let watch := hasFlag args "--watch" in
    let verbose := hasFlag args "--verbose" in
    let intervalStr := getFlag args "--interval" in
    let interval :=
      match intervalStr with
      | Some str => if String.eqb str "" then Some 3000%Z else parseInt10 str
      | None => Some 3000%Z
      end in
    if match interval with
       | None => true
       | Some n => (n <? 500)%Z
       end
    then throw (badInterval (default "" intervalStr))
    else
      let agentName := default "orchestrator" (getFlag args "--agent") in
      config ←← loadConfig ;
      let root := project_root config in
      if watch then poll rounds root agentName json verbose
      else
        data ←← gatherStatus root agentName verbose ;
        ret [PrintedStatus json data].

End Status.
End Status.

(** ** Mulch client (src/mulch/client.ts) *)

Module Mulch.

Definition runCommand (cmd : list string) (cwd : string) : Eff CommandResult :=
  fun w => (Return (spawn (env w) cmd cwd), w).

Definition mulchFailed (context : string) (r : CommandResult) : Exn :=
  Tagged (AgentError
    ("mulch " ++ context ++ " failed (exit " ++ pretty (exitCode r) ++ "): " ++
     trim (cr_stderr r))
    None).

Definition runMulch (cwd : string) (args : list string) (context : string)
  : Eff (string * string) :=
  r ←← runCommand ("mulch" :: args) cwd ;
  if bool_decide (exitCode r ≠ 0%Z) then throw (mulchFailed context r)
  else ret (cr_stdout r, cr_stderr r).

(** [trimmed.slice(0, 200)] counts UTF-16 units; on a text of ASCII
    characters these are its bytes. *)
Definition statusUnparsable (trimmed : string) : Exn :=
  Tagged (AgentError
    ("Failed to parse JSON output from mulch status: " ++
     String.substring 0 200 trimmed)
    None).

(** [MulchStatus] is the parsed document, as the cast leaves it.
    [JSON.parse] belongs to the runtime and the client is parametric in it:
    [None] when it throws; [noDomains] is the literal [{ domains: [] }]. *)
Class MulchJson := {
  MulchStatus : Type;
  JSON_parse_status : string -> option MulchStatus;
  noDomains : MulchStatus
}.

Definition status `{MulchJson} (cwd : string) : Eff MulchStatus :=
  r ←← runMulch cwd ["status"; "--json"] "status" ;
  let trimmed := trim r.1 in
  if String.eqb trimmed "" then ret noDomains
  else
    try_catch
      (match JSON_parse_status trimmed with
       | Some v => ret v
       | None => throw (RuntimeError "SyntaxError: JSON.parse")
       end)
      (fun _ => throw (statusUnparsable trimmed)).

(** The documents of the JSON module, read by its parser. *)
Definition documents : MulchJson :=
  {| MulchStatus := JSON.json;
     JSON_parse_status := JSON.parse;
     noDomains := JSON.JObj [("domains", JSON.JArr [])] |}.

Definition query (cwd : string) (domain : option string) : Eff string :=
  let args := ["query"] ++ match domain with
                           | Some d => if String.eqb d "" then [] else [d]
                           | None => []
                           end in
  r ←← runMulch cwd args "query" ;
  ret r.1.

Definition search (cwd : string) (q : string) : Eff string :=
  r ←← runMulch cwd ["search"; q] "search" ;
  ret r.1.

Definition prune (cwd : string) (dryRun : bool) : Eff string :=
  let args := ["prune"] ++ (if dryRun then ["--dry-run"] else []) in
  r ←← runMulch cwd args "prune" ;
  ret r.1.

Definition doctor (cwd : string) (fix_ : bool) : Eff string :=
  let args := ["doctor"] ++ (if fix_ then ["--fix"] else []) in
  r ←← runMulch cwd args "doctor" ;
  ret r.1.

(** The remaining methods.  An optional string is passed when it is given
    and not empty ([if (x)]), an optional list when it is given and not
    empty, an optional number whenever it is given ([!== undefined]);
    numbers are whole and print in decimal. *)
Definition given (flag : list string) (x : option string) : list string :=
  match x with
  | Some v => if String.eqb v "" then [] else flag ++ [v]
  | None => []
  end.

Definition givenList (flag : list string) (xs : option (list string))
  : list string :=
  match xs with
  | Some (x :: xs') => flag ++ [JSON.join "," (x :: xs')]
  | _ => []
  end.

Definition givenNumber (flag : list string) (n : option Z) : list string :=
  match n with
  | Some v => flag ++ [pretty v]
  | None => []
  end.

Definition givenFlag (flag : string) (b : bool) : list string :=
  if b then [flag] else [].

Definition prime (cwd : string) (domains : option (list string))
  (format : option string) (files excludeDomain : option (list string))
  : Eff string :=
  let args := ["prime"] ++
    match domains with Some (d :: ds) => d :: ds | _ => [] end ++
    given ["--format"] format ++
    givenList ["--files"] files ++
    givenList ["--exclude-domain"] excludeDomain in
  r ←← runMulch cwd args "prime" ;
  ret r.1.

Record RecordOptions := mkRecordOptions {
  ro_type : string;
  ro_name : option string;
  ro_description : option string;
  ro_title : option string;
  ro_rationale : option string;
  ro_tags : option (list string);
  ro_classification : option string;
  ro_stdin : bool;
  ro_evidenceBead : option string
}.

Definition record (cwd domain : string) (options : RecordOptions) : Eff unit :=
  let args := ["record"; domain; "--type"; ro_type options] ++
    given ["--name"] (ro_name options) ++
    given ["--description"] (ro_description options) ++
    given ["--title"] (ro_title options) ++
    given ["--rationale"] (ro_rationale options) ++
    givenList ["--tags"] (ro_tags options) ++
    given ["--classification"] (ro_classification options) ++
    givenFlag "--stdin" (ro_stdin options) ++
    given ["--evidence-bead"] (ro_evidenceBead options) in
  runMulch cwd args ("record " +:+ domain) ;;;
  ret tt.

Definition diff (cwd : string) (since : option string) : Eff string :=
  r ←← runMulch cwd (["diff"] ++ given ["--since"] since) "diff" ;
  ret r.1.

Definition learn (cwd : string) (since : option string) : Eff string :=
  r ←← runMulch cwd (["learn"] ++ given ["--since"] since) "learn" ;
  ret r.1.

Definition ready (cwd : string) (limit : option Z) (domain since : option string)
  : Eff string :=
  let args := ["ready"] ++
    givenNumber ["--limit"] limit ++
    given ["--domain"] domain ++
    given ["--since"] since in
  r ←← runMulch cwd args "ready" ;
  ret r.1.

Record CompactOptions := mkCompactOptions {
  co_analyze : bool;
  co_apply : bool;
  co_auto : bool;
  co_dryRun : bool;
  co_minGroup : option Z;
  co_maxRecords : option Z;
  co_yes : bool;
  co_records : option (list string)
}.

Definition compact (cwd : string) (domain : option string)
  (options : CompactOptions) : Eff string :=
  let args := ["compact"] ++
    given [] domain ++
    givenFlag "--analyze" (co_analyze options) ++
    givenFlag "--apply" (co_apply options) ++
    givenFlag "--auto" (co_auto options) ++
    givenFlag "--dry-run" (co_dryRun options) ++
    givenNumber ["--min-group"] (co_minGroup options) ++
    givenNumber ["--max-records"] (co_maxRecords options) ++
    givenFlag "--yes" (co_yes options) ++
    givenList ["--records"] (co_records options) in
  let context :=
    match domain with
    | Some d => if String.eqb d "" then "compact" else "compact " +:+ d
    | None => "compact"
    end in
  r ←← runMulch cwd args context ;
  ret r.1.

End Mulch.

(** ** Merge integration (src/commands/merge.ts) *)

Module Merge.

(** Modelled from the spec: [merge.ts] and the resolver behind it are not
    among the sources; only the command's tests are.  The definitions follow
    section 4.4: tier 1 is the direct merge, which succeeds when there are no
    conflicting hunks; on content-only conflicts tier 2 takes, for every
    conflicting path, the incoming branch's version in full; otherwise the
    attempt is abandoned and the state before it is kept.  Version control
    is a black box in the specification; it is given here the usual
    three-way reading of "conflicting hunks" that the design notes use
    (concurrent edits to the same lines): a file is a list of lines, the
    merge base of a branch is recorded with it, a line changed on one side
    only takes that side's text, and a line changed differently on both
    sides conflicts.  Files whose line counts differ on both sides are
    treated as conflicting as a whole. *)
Definition Content : Type := list string.

Record Branch := mkBranch {
  fork : gmap string Content;    (* the merge base with the target *)
  tip : gmap string Content
}.

Record Repo := mkRepo {
  target : gmap string Content;  (* the canonical branch *)
  branches : gmap string Branch
}.

Inductive Tier := clean_merge | content_merge.

Inductive Report :=
| Pending (agentName beadId : string)
| Merged (tier : Tier) (agentName beadId : string)
| Failed (unresolved : list string) (agentName beadId : string).

Inductive PathOutcome :=
| Clean (c : option Content)
| ContentConflict
| StructuralConflict.

Global Instance PathOutcome_eq_dec : EqDecision PathOutcome.
Proof. solve_decision. Defined.

Definition merge_line (b o t : string) : option string :=
  if decide (o = b) then Some t
  else if decide (t = b) then Some o
  else if decide (o = t) then Some o
  else None.

Fixpoint merge_lines (b o t : Content) : option Content :=
  match b, o, t with
  | [], [], [] => Some []
  | lb :: b', lo :: o', lt :: t' =>
      l ← merge_line lb lo lt ; r ← merge_lines b' o' t' ; Some (l :: r)
  | _, _, _ => None
  end.

(** One path, three ways; [None] is "the path does not exist". *)
Definition merge_path (b o t : option Content) : PathOutcome :=
  if decide (o = b) then Clean t
  else if decide (t = b) then Clean o
  else if decide (o = t) then Clean o
  else match b, o, t with
       | Some lb, Some lo, Some lt =>
           match merge_lines lb lo lt with
           | Some m => Clean (Some m)
           | None => ContentConflict
           end
       | None, Some _, Some _ => ContentConflict
       | _, _, _ => StructuralConflict
       end.

Definition outcomes (b o t : gmap string Content) : gmap string PathOutcome :=
  merge (fun mb mot =>
           match mb, mot with
           | None, None => None
           | _, _ => Some (merge_path mb (mot ≫= fst) (mot ≫= snd))
           end)
        b
        (merge (fun mo mt =>
                  match mo, mt with
                  | None, None => None
                  | _, _ => Some (mo, mt)
                  end) o t).

Definition isClean (oc : PathOutcome) : bool :=
  match oc with Clean _ => true | _ => false end.

Definition isStructural (oc : PathOutcome) : bool :=
  match oc with StructuralConflict => true | _ => false end.

Definition conflictPaths (ocs : gmap string PathOutcome) : list string :=
  (map_to_list (filter (fun kv => isClean kv.2 = false) ocs)).*1.

(** Tier 1: the merged tree, when no path conflicts. *)
Definition tryCleanMerge (ocs : gmap string PathOutcome)
  : option (gmap string Content) :=
  if decide (map_Forall (fun _ oc => isClean oc = true) ocs)
  then Some (omap (fun oc => match oc with Clean c => c | _ => None end) ocs)
  else None.

(** Tier 2: incoming wins on every conflicting path. *)
Definition tryContentMerge (ocs : gmap string PathOutcome)
  (theirs : gmap string Content) : option (gmap string Content) :=
  if decide (map_Forall (fun _ oc => isStructural oc = false) ocs)
  then Some (map_imap (fun p oc => match oc with
                                   | Clean c => c
                                   | _ => theirs !! p
                                   end) ocs)
  else None.

Fixpoint split_on (sep : ascii) (s : string) : list string :=
  match s with
  | EmptyString => [EmptyString]
  | String c s' =>
      if Ascii.eqb c sep then EmptyString :: split_on sep s'
      else match split_on sep s' with
           | w :: ws => String c w :: ws
           | [] => [String c EmptyString]
           end
  end.

(** [<namespace>/<agentName>/<beadId>]; any other shape gives empty fields. *)
Definition parseBranch (branchName : string) : string * string :=
  match split_on "/" branchName with
  | [_; agent; bead] => (agent, bead)
  | _ => ("", "")
  end.

Definition unknownBranch (branchName : string) : Exn :=
  Tagged (ValidationError ("Branch not found: " +:+ branchName)
            "branch" branchName).

Definition with_target (t : gmap string Content) (r : Repo) : Repo :=
  {| target := t; branches := branches r |}.

Definition integrate (branchName : string) (dryRun : bool) (r : Repo)
  : Exn + Report * Repo :=
  match branches r !! branchName with
  | None => inl (unknownBranch branchName)
  | Some br =>
      let '(agent, bead) := parseBranch branchName in
      if dryRun then inr (Pending agent bead, r)
      else
        let ocs := outcomes (fork br) (target r) (tip br) in
        match tryCleanMerge ocs with
        | Some merged => inr (Merged clean_merge agent bead, with_target merged r)
        | None =>
            match tryContentMerge ocs (tip br) with
            | Some merged =>
                inr (Merged content_merge agent bead, with_target merged r)
            | None => inr (Failed (conflictPaths ocs) agent bead, r)
            end
        end
  end.

End Merge.

(** ** Replacing a file atomically *)

(** An operation that overwrites [path] where it stands. *)
Definition writesInPlace (path : string) (op : FsOp) : bool :=
  match op with
  | OpWrite p _ => String.eqb p path
  | OpRename _ _ => false
  end.

(** [path] is only ever replaced as a whole: no operation of the log writes
    into it; it changes by a rename onto it. *)
Definition atomicReplace (path : string) (ops : list FsOp) : bool :=
  forallb (fun op => negb (writesInPlace path op)) ops.

(** An operation that changes what is at [path]: a write to it, or a rename
    from it or onto it. *)
Definition touches (path : string) (op : FsOp) : bool :=
  match op with
  | OpWrite p _ => String.eqb p path
  | OpRename src dst => String.eqb src path || String.eqb dst path
  end.

(** ** Texts with a hole for the agent name

    A command text is cut at every character that does not occur in the
    placeholder; what lies between two cuts is a run of placeholder letters:
    the placeholder itself (the hole) or some other run. *)

Module Segments.
Import HooksDeployer.

Fixpoint inString (c : ascii) (s : string) : bool :=
  match s with
  | EmptyString => false
  | String d s' => Ascii.eqb c d || inString c s'
  end.

Definition is_sep (c : ascii) : bool := negb (inString c PLACEHOLDER).

Inductive seg :=
| Chunk (s : string)
| Hole
| Sep (c : ascii).

Definition seg_text (n : string) (g : seg) : string :=
  match g with
  | Chunk s => s
  | Hole => n
  | Sep c => String c EmptyString
  end.

Fixpoint render (n : string) (gs : list seg) : string :=
  match gs with
  | [] => EmptyString
  | g :: gs' => seg_text n g +:+ render n gs'
  end.

Definition flush (run : string) : list seg :=
  if String.eqb run "" then []
  else if String.eqb run PLACEHOLDER then [Hole]
  else [Chunk run].

Fixpoint segments_from (run s : string) : list seg :=
  match s with
  | EmptyString => flush run
  | String c s' =>
      if is_sep c then flush run ++ Sep c :: segments_from "" s'
      else segments_from (run +:+ String c "") s'
  end.

Definition segments (s : string) : list seg := segments_from "" s.

(** [wf prev gs]: cuts are cuts, runs and holes stand between cuts ([prev]:
    the previous segment was a cut, or there is none), and no run contains
    the placeholder. *)
Fixpoint wf (prev : bool) (gs : list seg) : bool :=
  match gs with
  | [] => true
  | Sep c :: gs' => is_sep c && wf true gs'
  | Chunk s :: gs' => prev && negb (occurs PLACEHOLDER s) && wf false gs'
  | Hole :: gs' => prev && wf false gs'
  end.

(** A document whose strings have holes is a document over the placeholder;
    [fill n v] puts [n] into the holes, and [text_segments ind v] is the text
    [JSON.stringify] writes for it, holes left open. *)
Definition escape_seg (g : seg) : seg :=
  match g with
  | Chunk s => Chunk (JSON.escape s)
  | Hole => Hole
  | Sep c => Chunk (JSON.escape_char c)
  end.

Fixpoint tjoin (sep : list seg) (l : list (list seg)) : list seg :=
  match l with
  | [] => []
  | [x] => x
  | x :: rest => x ++ sep ++ tjoin sep rest
  end.

Fixpoint fill (n : string) (v : JSON.json) : JSON.json :=
  match v with
  | JSON.JStr s => JSON.JStr (render n (segments s))
  | JSON.JArr items => JSON.JArr (map (fill n) items)
  | JSON.JObj members =>
      JSON.JObj (map (fun kv => (fst kv, fill n (snd kv))) members)
  | _ => v
  end.

Fixpoint text_segments (ind : nat) (v : JSON.json) : list seg :=
  match v with
  | JSON.JStr s => Chunk dq :: map escape_seg (segments s) ++ [Chunk dq]
  | JSON.JArr [] => [Chunk "[]"]
  | JSON.JArr items =>
      Chunk ("[" +:+ JSON.newline) ::
      tjoin [Chunk ("," +:+ JSON.newline)]
        (map (fun x => Chunk (JSON.tabs (S ind)) :: text_segments (S ind) x)
             items) ++
      [Chunk (JSON.newline +:+ JSON.tabs ind +:+ "]")]
  | JSON.JObj [] => [Chunk "{}"]
  | JSON.JObj members =>
      Chunk ("{" +:+ JSON.newline) ::
      tjoin [Chunk ("," +:+ JSON.newline)]
        (map (fun kv =>
                Chunk (JSON.tabs (S ind) +:+ JSON.quote (fst kv) +:+ ": ") ::
                text_segments (S ind) (snd kv)) members) ++
      [Chunk (JSON.newline +:+ JSON.tabs ind +:+ "}")]
  | _ => [Chunk (JSON.stringify_at ind v)]
  end.

End Segments.

(** ** Sample inputs

    Concrete registries and surroundings, after the fixtures of
    src/commands/coordinator.test.ts, on which the commands are run. *)

Module Samples.

Definition config : Config :=
  {| project_root := "/repo"; project_canonicalBranch := "main";
     mulch_enabled := false; mulch_domains := [] |}.

Definition quiet (cmd : list string) (cwd : string) : CommandResult :=
  {| cr_stdout := ""; cr_stderr := ""; exitCode := 0 |}.

(** What a first run leaves in the identity store. *)
Definition identityFile : string * string :=
  ("/repo/.overstory/agents/coordinator/identity.yaml",
   "name: coordinator" +:+ String "010" "").

Definition surroundings : Env :=
  {| loadConfig_outcome := inr config; isTTY := false;
     now_iso := "2026-01-02T03:04:05.000Z"; now_ms := 1767323045000%N;
     deployHooks_outcome := None; identity_outcome := None;
     identity_writes := [identityFile];
     createSession_outcome := inr 99999%N; sendKeys_outcome := None;
     listWorktrees_outcome := inr []; mailStore := None;
     mergeQueuePending := 0; recentMetrics := 0; spawn := quiet |}.

(** [makeCoordinatorSession({ state })] *)
Definition coordinatorSession (i : string) (st : SessionState) : AgentSession :=
  {| s_id := i; s_agentName := "coordinator"; capability := "coordinator";
     worktreePath := "/repo"; branchName := "main"; beadId := "";
     tmuxSession := "overstory-coordinator"; state := st; pid := 99999%N;
     parentAgent := None; depth := 0;
     startedAt := "2026-01-01T00:00:00.000Z";
     lastActivity := "2026-01-01T00:00:00.000Z" |}.

Definition sessionsPath : string := "/repo/.overstory/sessions.json".

Definition world (registry : option string) (live : list (string * N))
  (readonly : bool) : World :=
  {| env := surroundings;
     files := from_option (fun c => {[ sessionsPath := c ]}) ∅ registry;
     fs_readonly := readonly; fs_ops := []; tmux := Some live; stdout := [] |}.

(** A world whose every subprocess exits with status 1. *)
Definition failing (cmd : list string) (cwd : string) : CommandResult :=
  {| cr_stdout := ""; cr_stderr := "mulch: not initialised"; exitCode := 1 |}.

Definition spawning (run : list string -> string -> CommandResult) : World :=
  {| env := {| loadConfig_outcome := inr config; isTTY := false;
               now_iso := "2026-01-02T03:04:05.000Z"; now_ms := 1767323045000%N;
               deployHooks_outcome := None; identity_outcome := None;
               identity_writes := [];
               createSession_outcome := inr 99999%N; sendKeys_outcome := None;
               listWorktrees_outcome := inr []; mailStore := None;
               mergeQueuePending := 0; recentMetrics := 0; spawn := run |};
     files := ∅; fs_readonly := false; fs_ops := []; tmux := Some [];
     stdout := [] |}.

Definition mulchDown : World := spawning failing.

(** A world whose every subprocess exits with status 0 and prints text that
    is not JSON. *)
Definition garbled (cmd : list string) (cwd : string) : CommandResult :=
  {| cr_stdout := "  not valid json  "; cr_stderr := ""; exitCode := 0 |}.

Definition mulchGarbled : World := spawning garbled.

(** A file of five lines on the merge base; the target rewrites its first
    line; one branch rewrites the last line, another the first. *)
Definition sharedBase : gmap string Merge.Content :=
  {[ "src/shared.ts" := ["line 1"; "line 2"; "line 3"; "line 4"; "line 5"] ]}.

Definition sharedTarget : gmap string Merge.Content :=
  {[ "src/shared.ts" :=
       ["line 1 on default"; "line 2"; "line 3"; "line 4"; "line 5"] ]}.

Definition sharedElsewhere : gmap string Merge.Content :=
  {[ "src/shared.ts" :=
       ["line 1"; "line 2"; "line 3"; "line 4"; "line 5 on feature"] ]}.

Definition sharedSameLine : gmap string Merge.Content :=
  {[ "src/shared.ts" :=
       ["line 1 on feature"; "line 2"; "line 3"; "line 4"; "line 5"] ]}.

Definition repoWith (branchTip : gmap string Merge.Content) : Merge.Repo :=
  {| Merge.target := sharedTarget;
     Merge.branches :=
       {[ "overstory/builder-conflict/bead-999" :=
            Merge.mkBranch sharedBase branchTip ]} |}.

Definition registryOf (ss : list AgentSession) : option string :=
  Some (SessionCodec.stringify_sessions ss +:+ String "010" "").

(** A coordinator on record whose session is alive, and one whose session
    is gone. *)
Definition running : World :=
  world (registryOf [coordinatorSession "session-1" working])
    [("overstory-coordinator", 99999%N)] false.

Definition crashed : World :=
  world (registryOf [coordinatorSession "session-1" working]) [] false.

(** A world in which the first keys cannot be sent to a new session. *)
Definition keysFail : World :=
  {| env := {| loadConfig_outcome := inr config; isTTY := false;
               now_iso := "2026-01-02T03:04:05.000Z"; now_ms := 1767323045000%N;
               deployHooks_outcome := None; identity_outcome := None;
               identity_writes := [identityFile];
               createSession_outcome := inr 99999%N;
               sendKeys_outcome :=
                 Some (Tagged (AgentError "tmux send-keys failed" None));
               listWorktrees_outcome := inr []; mailStore := None;
               mergeQueuePending := 0; recentMetrics := 0; spawn := quiet |};
     files := ∅; fs_readonly := false; fs_ops := []; tmux := Some [];
     stdout := [] |}.

(** A world whose subprocesses print [out] and exit with status 0. *)
Definition printing (out : string) : World :=
  spawning (fun _ _ => {| cr_stdout := out; cr_stderr := ""; exitCode := 0 |}).

End Samples.

(** * Properties *)

(** ** Running computations *)

Lemma bind_return {A B} (m : Eff A) (k : A -> Eff B) w a w' :
  m w = (Return a, w') -> bind m k w = k a w'.
Proof. intros E. unfold bind. now rewrite E. Qed.

Lemma bind_throw {A B} (m : Eff A) (k : A -> Eff B) w x w' :
  m w = (Throw x, w') -> bind m k w = (Throw x, w').
Proof. intros E. unfold bind. now rewrite E. Qed.

Lemma try_catch_return {A} (m : Eff A) h w a w' :
  m w = (Return a, w') -> try_catch m h w = (Return a, w').
Proof. intros E. unfold try_catch. now rewrite E. Qed.

Lemma try_catch_throw {A} (m : Eff A) h w x w' :
  m w = (Throw x, w') -> try_catch m h w = h x w'.
Proof. intros E. unfold try_catch. now rewrite E. Qed.

(** ** The registry reader *)

Section Registry.
Context `{Json}.

Lemma loadSessions_missing w path :
  files w !! path = None -> Coordinator.loadSessions path w = (Return [], w).
Proof.
  intros E. unfold Coordinator.loadSessions, bind, file_exists.
  rewrite E. rewrite bool_decide_eq_false_2 by (intros [? ?]; discriminate).
  reflexivity.
Qed.

Lemma loadSessions_corrupt w path text :
  files w !! path = Some text -> JSON_parse text = None ->
  Coordinator.loadSessions path w = (Return [], w).
Proof.
  intros E P. unfold Coordinator.loadSessions, bind, file_exists, try_catch, file_text.
  rewrite E. rewrite bool_decide_eq_true_2 by eauto. simpl.
  rewrite E, P. reflexivity.
Qed.

Lemma loadSessions_parsed w path text sessions :
  files w !! path = Some text -> JSON_parse text = Some sessions ->
  Coordinator.loadSessions path w = (Return sessions, w).
Proof.
  intros E P. unfold Coordinator.loadSessions, bind, file_exists, try_catch, file_text.
  rewrite E. rewrite bool_decide_eq_true_2 by eauto. simpl.
  rewrite E, P. reflexivity.
Qed.

End Registry.

(** C8: when the registry file is missing, or holds text that [JSON.parse]
    rejects, [loadSessions] returns the empty collection: it does not throw
    and it leaves the world untouched. *)
Theorem loadSessions_missing_or_corrupt `{Json} (w : World) (path : string) :
  (files w !! path = None \/
   exists text, files w !! path = Some text /\ JSON_parse text = None) ->
  Coordinator.loadSessions path w = (Return [], w).
Proof.
  intros [E | (text & E & P)].
  - now apply loadSessions_missing.
  - now apply loadSessions_corrupt with text.
Qed.

Lemma loadSessions_missing_or_corrupt_witness :
  @Coordinator.loadSessions SessionCodec.codec "/repo/nonexistent.json"
    (Samples.world (Some "not valid json") [] false)
  = (Return [], Samples.world (Some "not valid json") [] false) /\
  @Coordinator.loadSessions SessionCodec.codec Samples.sessionsPath
    (Samples.world (Some "not valid json") [] false)
  = (Return [], Samples.world (Some "not valid json") [] false).
Proof.
  split.
  - apply (@loadSessions_missing_or_corrupt SessionCodec.codec).
    left. vm_compute. reflexivity.
  - apply (@loadSessions_missing_or_corrupt SessionCodec.codec).
    right. exists "not valid json". split; vm_compute; reflexivity.
Defined.

(** ** Attaching after start *)

(** C10: [resolveAttach] answers true whenever the arguments contain
    [--attach], whatever the TTY flag and even next to [--no-attach]; false
    when they contain [--no-attach] and not [--attach]; and the TTY flag
    itself otherwise. *)
Theorem resolveAttach_cases (args : list string) (tty : bool) :
  ("--attach" ∈ args -> Coordinator.resolveAttach args tty = true) /\
  ("--attach" ∉ args -> "--no-attach" ∈ args ->
     Coordinator.resolveAttach args tty = false) /\
  ("--attach" ∉ args -> "--no-attach" ∉ args ->
     Coordinator.resolveAttach args tty = tty).
Proof.
  unfold Coordinator.resolveAttach, includes.
  repeat split; intros; repeat case_bool_decide; tauto.
Qed.

Lemma resolveAttach_cases_witness :
  Coordinator.resolveAttach ["--attach"; "--no-attach"] false = true /\
  Coordinator.resolveAttach ["--json"; "--no-attach"] true = false /\
  Coordinator.resolveAttach ["--json"] true = true.
Proof.
  split; [|split].
  - apply (proj1 (resolveAttach_cases ["--attach"; "--no-attach"] false)).
    set_solver.
  - apply (proj1 (proj2 (resolveAttach_cases ["--json"; "--no-attach"] true)));
      [|set_solver].
    apply (bool_decide_eq_false_1 _). vm_compute. reflexivity.
  - apply (proj2 (proj2 (resolveAttach_cases ["--json"] true)));
      apply (bool_decide_eq_false_1 _); vm_compute; reflexivity.
Defined.

(** ** Writing files *)

Lemma deployHooks_writable w worktreePath n capability :
  fs_readonly w = false ->
  HooksDeployer.deployHooks true worktreePath n capability w =
    (Return tt,
     with_files
       (<[HooksDeployer.settingsPath worktreePath :=
            JSON.stringify
              (HooksDeployer.config_to_json
                 (HooksDeployer.buildConfig n (default "builder" capability)))
            +:+ String "010" ""]> (files w))
       [OpWrite (HooksDeployer.settingsPath worktreePath)
          (JSON.stringify
             (HooksDeployer.config_to_json
                (HooksDeployer.buildConfig n (default "builder" capability)))
           +:+ String "010" "")] w).
Proof.
  intros R. unfold HooksDeployer.deployHooks, try_catch, Bun_write. simpl.
  now rewrite R.
Qed.

Lemma deployHooks_readonly w worktreePath n capability :
  fs_readonly w = true ->
  HooksDeployer.deployHooks true worktreePath n capability w =
    (Throw (HooksDeployer.deployFailed n "cannot write settings"), w).
Proof.
  intros R. unfold HooksDeployer.deployHooks, try_catch, Bun_write. simpl.
  now rewrite R.
Qed.

Lemma deployHooks_no_template w worktreePath n capability :
  HooksDeployer.deployHooks false worktreePath n capability w =
    (Throw (HooksDeployer.deployFailed n "hooks template not found"), w).
Proof. reflexivity. Qed.

Lemma writeAll_writable l w :
  fs_readonly w = false ->
  writeAll l w =
    (Return tt, with_files (filesAfter l (files w)) (writesOf l) w).
Proof.
  revert w. induction l as [|[path content] l IH]; intros w Hrw.
  - destruct w. unfold with_files. simpl. now rewrite app_nil_r.
  - cbn [writeAll]. unfold bind, Bun_write. rewrite Hrw.
    rewrite IH by exact Hrw. unfold with_files. simpl.
    now rewrite <- app_assoc.
Qed.

Lemma filesAfter_elsewhere l f path :
  Forall (fun pc => pc.1 <> path) l ->
  filesAfter l f !! path = f !! path.
Proof.
  revert f. induction l as [|pc l IH]; intros f Hl; [reflexivity|].
  inversion Hl as [|? ? Hpc Hrest]; subst. cbn [filesAfter foldl].
  change (foldl _ ?g l) with (filesAfter l g).
  rewrite IH by exact Hrest. now apply lookup_insert_ne.
Qed.

Lemma touches_writesOf l path :
  Forall (fun pc => pc.1 <> path) l ->
  List.filter (touches path) (writesOf l) = [].
Proof.
  induction 1 as [|pc l Hpc _ IH]; [reflexivity|].
  cbn [writesOf map List.filter touches].
  destruct (String.eqb_spec pc.1 path) as [E|_]; [now destruct Hpc|].
  exact IH.
Qed.

Lemma string_app_inv_head (a x y : string) : a +:+ x = a +:+ y -> x = y.
Proof.
  induction a as [|c a IH]; [trivial|].
  intros E. apply IH. now injection E.
Qed.

Lemma settingsPath_not_registry root :
  HooksDeployer.settingsPath root <> join3 root ".overstory" "sessions.json".
Proof.
  unfold HooksDeployer.settingsPath, join3. intros E.
  apply string_app_inv_head in E. discriminate E.
Qed.

(** ** Starting the coordinator *)

Section Start.
Context `{Json}.

Lemma alreadyRunning_tagged existing :
  isAgentError (Coordinator.alreadyRunning existing) = true /\
  exn_agentName (Coordinator.alreadyRunning existing) = Some "coordinator" /\
  String.prefix "Coordinator is already running"
    (exn_message (Coordinator.alreadyRunning existing)) = true.
Proof. repeat split. Qed.

Lemma saveSessions_writable w path sessions :
  fs_readonly w = false ->
  Coordinator.saveSessions path sessions w =
    (Return tt,
     with_files (<[path := JSON_stringify sessions +:+ String "010" ""]> (files w))
       [OpWrite path (JSON_stringify sessions +:+ String "010" "")] w).
Proof.
  intros R. unfold Coordinator.saveSessions, Bun_write. now rewrite R.
Qed.

Lemma saveSessions_readonly w path sessions :
  fs_readonly w = true ->
  Coordinator.saveSessions path sessions w =
    (Throw (RuntimeError "EROFS: write"), w).
Proof.
  intros R. unfold Coordinator.saveSessions, Bun_write. now rewrite R.
Qed.

(** The run of a start once the registry has been looked at: [ss] is the
    collection carried on (what was loaded, or what was written back with
    the stale record completed) and [w0] the world at that point. *)
Lemma startCoordinator_launch w args config sessions ss w0 :
  let sessionsPath := join3 (project_root config) ".overstory" "sessions.json" in
  let settings := HooksDeployer.settingsPath (project_root config) in
  let hooksText := HooksDeployer.deployedText "coordinator" "coordinator" in
  loadConfig_outcome (env w) = inr config ->
  Coordinator.loadSessions sessionsPath w = (Return sessions, w) ->
  (match Coordinator.findCoordinatorSession sessions with
   | Some (i, existing) =>
       alive ←← isSessionAlive (tmuxSession existing) ;
       if alive then throw (Coordinator.alreadyRunning existing)
       else
         let sessions' := <[i := set_state completed existing]> sessions in
         Coordinator.saveSessions sessionsPath sessions' ;;;
         ret sessions'
   | None => ret sessions
   end) w = (Return ss, w0) ->
  env w0 = env w ->
  fs_readonly w0 = false ->
  Coordinator.startCoordinator args w =
    match deployHooks_outcome (env w) with
    | Some x => (Throw x, w0)
    | None =>
    let w1 :=
      with_files (<[settings := hooksText]> (files w0))
        [OpWrite settings hooksText] w0 in
    match identity_outcome (env w) with
    | Some x => (Throw x, w1)
    | None =>
    let w2 :=
      with_files (filesAfter (identity_writes (env w)) (files w1))
        (writesOf (identity_writes (env w))) w1 in
    match createSession_outcome (env w) with
    | inl x => (Throw x, w2)
    | inr p =>
        let w3 :=
          with_tmux (Some (default [] (tmux w0) ++ [(Coordinator.TMUX_SESSION, p)]))
            w2 in
        match sendKeys_outcome (env w) with
        | Some x => (Throw x, w3)
        | None =>
            let fresh :=
              Coordinator.newCoordinatorSession config p (now_ms (env w))
                (now_iso (env w)) (now_iso (env w)) in
            let content :=
              JSON_stringify (ss ++ [fresh]) +:+ String "010" "" in
            let w4 :=
              with_stdout
                (OutStarted (includes args "--json") Coordinator.TMUX_SESSION
                   (project_root config) p)
                (with_files (<[sessionsPath := content]> (files w2))
                   [OpWrite sessionsPath content] w3) in
            (Return tt,
             if Coordinator.resolveAttach args (isTTY (env w))
             then with_stdout (OutAttach Coordinator.TMUX_SESSION) w4
             else w4)
        end
    end end end.
Proof.
  intros sessionsPath settings hooksText Hcfg Hload Hpre Henv Hrw.
  unfold Coordinator.startCoordinator, bind at 1 2 3, loadConfig.
  rewrite Hcfg. fold sessionsPath. rewrite Hload.
  rewrite (bind_return _ _ w ss w0) by exact Hpre.
  unfold bind at 1, external. rewrite Henv.
  destruct (deployHooks_outcome (env w)); [reflexivity|].
  unfold bind at 1. rewrite (deployHooks_writable _ _ _ _ Hrw).
  change (JSON.stringify _ +:+ _) with hooksText. fold settings.
  set (w1 := with_files (<[settings := hooksText]> (files w0))
               [OpWrite settings hooksText] w0).
  assert (Henv1 : env w1 = env w) by exact Henv.
  assert (Hrw1 : fs_readonly w1 = false) by exact Hrw.
  unfold bind at 1. rewrite Henv1.
  destruct (identity_outcome (env w)); [reflexivity|].
  unfold bind at 1 2. rewrite Henv1.
  rewrite (writeAll_writable _ _ Hrw1).
  set (w2 := with_files (filesAfter (identity_writes (env w)) (files w1))
               (writesOf (identity_writes (env w))) w1).
  assert (Henv2 : env w2 = env w) by exact Henv.
  unfold bind at 1, createSession. rewrite Henv2.
  destruct (createSession_outcome (env w)) as [x|p]; [reflexivity|].
  change (tmux w2) with (tmux w0).
  set (w3 := with_tmux _ w2).
  assert (Henv3 : env w3 = env w) by exact Henv.
  unfold bind at 1. rewrite Henv3.
  destruct (sendKeys_outcome (env w)) eqn:Hkeys; [reflexivity|].
  unfold bind at 1. rewrite Henv3, Hkeys.
  unfold bind, Date_now, toISOString, Coordinator.saveSessions, Bun_write,
    write_stdout, ret.
  rewrite Henv3.
  change (fs_readonly w3) with (fs_readonly w0). rewrite Hrw.
  destruct (Coordinator.resolveAttach args (isTTY (env w))); reflexivity.
Qed.

Lemma created_alive w l p :
  tmux w = Some (l ++ [(Coordinator.TMUX_SESSION, p)]) ->
  sessionAlive w "overstory-coordinator" = true.
Proof.
  intros E. unfold sessionAlive. rewrite E. apply bool_decide_eq_true_2.
  rewrite fmap_app. apply elem_of_app. right. simpl. set_solver.
Qed.


End Start.


(** ** Writing the registry *)

Lemma saveSessions_log `{Json} w path sessions :
  fs_readonly w = false ->
  fs_ops (Coordinator.saveSessions path sessions w).2 =
    fs_ops w ++ [OpWrite path (JSON_stringify sessions +:+ String "010" "")].
Proof. intros R. now rewrite saveSessions_writable. Qed.

Lemma atomicReplace_app path ops ops' :
  atomicReplace path (ops ++ ops') =
    atomicReplace path ops && atomicReplace path ops'.
Proof. unfold atomicReplace. apply forallb_app. Qed.

(** The coordinator's writer overwrites the registry where it stands,
    whatever the registry and the collection. *)
Lemma saveSessions_in_place `{Json} w path sessions :
  fs_readonly w = false ->
  atomicReplace path (fs_ops (Coordinator.saveSessions path sessions w).2) = false.
Proof.
  intros R. rewrite saveSessions_log by assumption.
  rewrite atomicReplace_app. simpl. rewrite String.eqb_refl. simpl.
  now rewrite andb_false_r.
Qed.

(** C4 (the code departs from the claim): whatever the registry and the
    collection, the coordinator's [saveSessions] adds one in-place write of
    the registry path to the log and no temporary file or rename, so the
    write is not an atomic replace; on an empty project that write is the
    whole log, where the reconciliation write of [gatherStatus], on the same
    input, writes [sessions.json.tmp] and renames it over the registry. *)
Theorem saveSessions_not_atomic_replace :
  (forall (J : Json) w path sessions,
     fs_readonly w = false ->
     fs_ops (Coordinator.saveSessions path sessions w).2
     = fs_ops w ++ [OpWrite path (JSON_stringify sessions +:+ String "010" "")]
     /\
     atomicReplace path
       (fs_ops (Coordinator.saveSessions path sessions w).2) = false)
  /\
  fs_ops (@Coordinator.saveSessions SessionCodec.codec Samples.sessionsPath
            [Samples.coordinatorSession "session-1" booting]
            (Samples.world None [] false)).2
  = [OpWrite "/repo/.overstory/sessions.json"
       (SessionCodec.stringify_sessions
          [Samples.coordinatorSession "session-1" booting] +:+ String "010" "")]
  /\
  atomicReplace Samples.sessionsPath
    (fs_ops (@Coordinator.saveSessions SessionCodec.codec Samples.sessionsPath
               [Samples.coordinatorSession "session-1" booting]
               (Samples.world None [] false)).2) = false
  /\
  fs_ops (@Status.persistReconciled SessionCodec.codec "/repo"
            [Samples.coordinatorSession "session-1" booting]
            (Samples.world None [] false)).2
  = [OpWrite "/repo/.overstory/sessions.json.tmp"
       (SessionCodec.stringify_sessions
          [Samples.coordinatorSession "session-1" booting] +:+ String "010" "");
     OpRename "/repo/.overstory/sessions.json.tmp"
       "/repo/.overstory/sessions.json"]
  /\
  atomicReplace Samples.sessionsPath
    (fs_ops (@Status.persistReconciled SessionCodec.codec "/repo"
               [Samples.coordinatorSession "session-1" booting]
               (Samples.world None [] false)).2) = true.
Proof.
  split.
  { intros J w path sessions R.
    split; [now apply saveSessions_log|now apply saveSessions_in_place]. }
  repeat split; vm_compute; reflexivity.
Qed.

(** ** Reconciliation on a status read *)

Section Reconcile.
Context `{Json}.

(** The loop of [gatherStatus] changes nothing but [state]. *)
Lemma reconcile_lastActivity tmuxSessions sessions u :
  map lastActivity (Status.reconcile tmuxSessions sessions u).1
  = map lastActivity sessions.
Proof.
  revert u. induction sessions as [|s ss IH]; intros u; simpl; [reflexivity|].
  repeat case_match; simpl in *;
    match goal with
    | E : Status.reconcile _ _ ?v = (_, _) |- _ =>
        specialize (IH v); rewrite E in IH; simpl in IH; now rewrite IH
    end.
Qed.

(** It examines every session: each one that is booting, working or stalled
    and has no live multiplexer session comes out a zombie, every other one
    unchanged. *)
Lemma reconcile_states tmuxSessions sessions u :
  (Status.reconcile tmuxSessions sessions u).1
  = map (fun s =>
           if bool_decide (state s = booting \/ state s = working \/
                           state s = stalled)
              && negb (existsb (fun t => String.eqb t.1 (tmuxSession s))
                         tmuxSessions)
           then set_state zombie s else s) sessions.
Proof.
  revert u. induction sessions as [|s ss IH]; intros u; simpl; [reflexivity|].
  repeat case_match; simpl in *;
    match goal with
    | E : Status.reconcile _ _ ?v = (_, _) |- _ =>
        specialize (IH v); rewrite E in IH; simpl in IH; now rewrite IH
    end.
Qed.

End Reconcile.

(** C5 (the code departs from the claim): the loop of [gatherStatus] never
    touches [lastActivity]; on a registry with one working session and no
    live multiplexer session it returns that session as a zombie with the
    old [lastActivity] although the clock has moved on; and
    [statusCoordinator], on the same registry with a read-only file system,
    throws out of the unguarded [saveSessions] and prints nothing, where
    [gatherStatus] still returns its result. *)
Theorem status_reconciliation_divergence :
  (forall tmuxSessions sessions u,
     map lastActivity (Status.reconcile tmuxSessions sessions u).1
     = map lastActivity sessions)
  /\
  (agents <$>
     (@Status.gatherStatus SessionCodec.codec "/repo" "orchestrator" false
        (Samples.world
           (Samples.registryOf [Samples.coordinatorSession "session-1" working])
           [] false)).1
   = Return [Samples.coordinatorSession "session-1" zombie] /\
   lastActivity (Samples.coordinatorSession "session-1" zombie)
     = "2026-01-01T00:00:00.000Z" /\
   now_iso Samples.surroundings = "2026-01-02T03:04:05.000Z")
  /\
  (@Coordinator.statusCoordinator SessionCodec.codec []
     (Samples.world
        (Samples.registryOf [Samples.coordinatorSession "session-1" working])
        [] true)
   = (Throw (RuntimeError "EROFS: write"),
      Samples.world
        (Samples.registryOf [Samples.coordinatorSession "session-1" working])
        [] true))
  /\
  (agents <$>
     (@Status.gatherStatus SessionCodec.codec "/repo" "orchestrator" false
        (Samples.world
           (Samples.registryOf [Samples.coordinatorSession "session-1" working])
           [] true)).1
   = Return [Samples.coordinatorSession "session-1" zombie]).
Proof.
  split; [intros; apply reconcile_lastActivity|].
  repeat split; vm_compute; reflexivity.
Qed.

(** ** Agent names on tagged errors *)

Lemma runMulch_nonzero w cwd args context :
  exitCode (spawn (env w) ("mulch" :: args) cwd) <> 0%Z ->
  Mulch.runMulch cwd args context w
  = (Throw (Mulch.mulchFailed context (spawn (env w) ("mulch" :: args) cwd)), w).
Proof.
  intros E. unfold Mulch.runMulch, bind, Mulch.runCommand.
  now rewrite bool_decide_eq_true_2.
Qed.

Lemma runMulch_zero w cwd args context :
  exitCode (spawn (env w) ("mulch" :: args) cwd) = 0%Z ->
  Mulch.runMulch cwd args context w
  = (Return (cr_stdout (spawn (env w) ("mulch" :: args) cwd),
             cr_stderr (spawn (env w) ("mulch" :: args) cwd)), w).
Proof.
  intros E. unfold Mulch.runMulch, bind, Mulch.runCommand.
  now rewrite bool_decide_eq_false_2 by (intros N; now apply N).
Qed.

Lemma stopCoordinator_no_session `{Json} w args config sessions :
  loadConfig_outcome (env w) = inr config ->
  Coordinator.loadSessions
    (join3 (project_root config) ".overstory" "sessions.json") w
    = (Return sessions, w) ->
  Coordinator.findCoordinatorSession sessions = None ->
  Coordinator.stopCoordinator args w = (Throw Coordinator.noActiveSession, w).
Proof.
  intros Hcfg Hload Hfind.
  unfold Coordinator.stopCoordinator, bind at 1 2, loadConfig.
  rewrite Hcfg, Hload, Hfind. reflexivity.
Qed.

(** C9, as the code has it: the AgentErrors of the coordinator command
    (duplicate start, no session to stop) carry the agent name
    "coordinator", and whatever the hook deployer throws (the template
    cannot be read, the settings cannot be written) is an AgentError that
    carries the name of the agent it deploys for; the AgentError thrown when
    a mulch subprocess exits non-zero is built from the message alone and
    carries no agent name. *)
Theorem agentError_agentName `{Json} :
  (forall existing,
     isAgentError (Coordinator.alreadyRunning existing) = true /\
     exn_agentName (Coordinator.alreadyRunning existing) = Some "coordinator")
  /\
  (forall w args config sessions,
     loadConfig_outcome (env w) = inr config ->
     Coordinator.loadSessions
       (join3 (project_root config) ".overstory" "sessions.json") w
       = (Return sessions, w) ->
     Coordinator.findCoordinatorSession sessions = None ->
     exists x,
       Coordinator.stopCoordinator args w = (Throw x, w) /\
       isAgentError x = true /\ exn_agentName x = Some "coordinator")
  /\
  (forall w worktreePath agentName capability,
     (exists x,
        HooksDeployer.deployHooks false worktreePath agentName capability w
        = (Throw x, w) /\
        isAgentError x = true /\ exn_agentName x = Some agentName)
     /\
     (fs_readonly w = true ->
      exists x,
        HooksDeployer.deployHooks true worktreePath agentName capability w
        = (Throw x, w) /\
        isAgentError x = true /\ exn_agentName x = Some agentName)
     /\
     (forall templatePresent x w',
        HooksDeployer.deployHooks templatePresent worktreePath agentName
          capability w = (Throw x, w') ->
        isAgentError x = true /\ exn_agentName x = Some agentName))
  /\
  (forall w cwd args context,
     exitCode (spawn (env w) ("mulch" :: args) cwd) <> 0%Z ->
     exists x,
       Mulch.runMulch cwd args context w = (Throw x, w) /\
       isAgentError x = true /\ exn_agentName x = None).
Proof.
  split; [|split; [|split]].
  - intros existing. split; reflexivity.
  - intros w args config sessions Hcfg Hload Hfind.
    exists Coordinator.noActiveSession.
    split; [now apply stopCoordinator_no_session with config sessions|].
    split; reflexivity.
  - intros w worktreePath agentName capability. split; [|split].
    + eexists. split; [apply deployHooks_no_template|]. split; reflexivity.
    + intros Hro. eexists.
      split; [now apply deployHooks_readonly|]. split; reflexivity.
    + intros [|] x w' Hrun.
      * destruct (fs_readonly w) eqn:Hro.
        -- rewrite (deployHooks_readonly _ _ _ _ Hro) in Hrun.
           injection Hrun as <- _. split; reflexivity.
        -- rewrite (deployHooks_writable _ _ _ _ Hro) in Hrun. discriminate Hrun.
      * rewrite deployHooks_no_template in Hrun.
        injection Hrun as <- _. split; reflexivity.
  - intros w cwd args context E. eexists.
    split; [now apply runMulch_nonzero|]. split; reflexivity.
Qed.

Lemma agentError_agentName_witness :
  (exists x,
     @Coordinator.stopCoordinator SessionCodec.codec []
       (Samples.world None [] false)
     = (Throw x, Samples.world None [] false) /\
     isAgentError x = true /\ exn_agentName x = Some "coordinator")
  /\
  (exists x,
     HooksDeployer.deployHooks true "/repo/.overstory/worktrees/scout-1"
       "scout-1" (Some "scout") (Samples.world None [] true)
     = (Throw x, Samples.world None [] true) /\
     isAgentError x = true /\ exn_agentName x = Some "scout-1")
  /\
  (exists x,
     Mulch.runMulch "/repo" ["status"; "--json"] "status" Samples.mulchDown
     = (Throw x, Samples.mulchDown) /\
     isAgentError x = true /\ exn_agentName x = None).
Proof.
  split; [|split].
  - apply (proj1 (proj2 (@agentError_agentName SessionCodec.codec))
             (Samples.world None [] false) [] Samples.config []);
      vm_compute; reflexivity.
  - apply (proj1 (proj2 (proj1 (proj2 (proj2
             (@agentError_agentName SessionCodec.codec)))
             (Samples.world None [] true) "/repo/.overstory/worktrees/scout-1"
             "scout-1" (Some "scout")))).
    reflexivity.
  - apply (proj2 (proj2 (proj2 (@agentError_agentName SessionCodec.codec)))
             Samples.mulchDown "/repo" ["status"; "--json"] "status").
    vm_compute. discriminate.
Defined.

(** C9 as stated fails: with a subprocess that exits with status 1,
    [runMulch] throws an AgentError whose agent name is absent. *)
Lemma mulch_error_without_agent_name :
  exists x,
    Mulch.runMulch "/repo" ["status"; "--json"] "status" Samples.mulchDown
    = (Throw x, Samples.mulchDown) /\
    isAgentError x = true /\
    exn_message x = "mulch status failed (exit 1): mulch: not initialised" /\
    exn_agentName x = None.
Proof. eexists. repeat split; vm_compute; reflexivity. Qed.

(** ** Reading back what [JSON.stringify] wrote *)

Section Roundtrip.
Import JSON.

Lemma append_cons a s t : String a s +:+ t = String a (s +:+ t).
Proof. reflexivity. Qed.

Lemma append_nil_l s : "" +:+ s = s.
Proof. reflexivity. Qed.

Lemma append_empty_r s : s +:+ "" = s.
Proof.
  induction s as [|a s IH]; [reflexivity|].
  rewrite append_cons. now rewrite IH.
Qed.

Lemma append_assoc s t u : (s +:+ t) +:+ u = s +:+ (t +:+ u).
Proof.
  induction s as [|a s IH]; [reflexivity|].
  rewrite !append_cons. now rewrite IH.
Qed.

Lemma length_append s t :
  String.length (s +:+ t) = String.length s + String.length t.
Proof.
  induction s as [|a s IH]; [reflexivity|].
  rewrite append_cons. simpl. now rewrite IH.
Qed.

(** One escaped character reads back as that character. *)
Lemma escape_char_body c tl :
  parse_string_body (escape_char c +:+ tl)
  = match parse_string_body tl with
    | Some (body, r) => Some (String c body, r)
    | None => None
    end.
Proof. destruct c as [[] [] [] [] [] [] [] []]; reflexivity. Qed.

Lemma escape_body s rest :
  parse_string_body (escape s +:+ String dquote rest) = Some (s, rest).
Proof.
  induction s as [|c s IH]; [reflexivity|].
  change (escape (String c s)) with (escape_char c +:+ escape s).
  rewrite append_assoc, escape_char_body, IH. reflexivity.
Qed.

Lemma quote_append s rest :
  quote s +:+ rest = String dquote (escape s +:+ String dquote rest).
Proof.
  unfold quote. rewrite append_cons, append_assoc. reflexivity.
Qed.

Lemma skip_ws_tabs k s : skip_ws (tabs k +:+ s) = skip_ws s.
Proof. induction k as [|k IH]; [reflexivity|exact IH]. Qed.

Lemma skip_ws_indent k s : skip_ws (newline +:+ tabs k +:+ s) = skip_ws s.
Proof. change (skip_ws (tabs k +:+ s) = skip_ws s). apply skip_ws_tabs. Qed.

Lemma skip_ws_idem s : skip_ws (skip_ws s) = skip_ws s.
Proof.
  induction s as [|c s IH]; [reflexivity|].
  simpl. destruct (is_ws c) eqn:E; [exact IH|]. simpl. now rewrite E.
Qed.

Lemma parse_value_skip fuel s :
  parse_value fuel (skip_ws s) = parse_value fuel s.
Proof. destruct fuel; [reflexivity|]. simpl. now rewrite skip_ws_idem. Qed.

Lemma parse_elements_skip fuel s :
  parse_elements fuel (skip_ws s) = parse_elements fuel s.
Proof. destruct fuel; [reflexivity|]. simpl. now rewrite parse_value_skip. Qed.

Lemma parse_members_skip fuel s :
  parse_members fuel (skip_ws s) = parse_members fuel s.
Proof. destruct fuel; [reflexivity|]. simpl. now rewrite skip_ws_idem. Qed.

(** The text of a non-empty array and of a non-empty object. *)
Lemma join_map_tail {A} (f : A -> string) sep x xs T :
  join sep (map f (x :: xs)) +:+ T
  = f x +:+ match xs with
            | [] => T
            | _ => sep +:+ join sep (map f xs) +:+ T
            end.
Proof.
  destruct xs as [|y ys]; [reflexivity|].
  change (join sep (map f (x :: y :: ys)))
    with (f x +:+ sep +:+ join sep (map f (y :: ys))).
  now rewrite !append_assoc.
Qed.

Lemma elems_text_join ind items rest :
  items <> [] ->
  join ("," +:+ newline)
    (map (fun x => tabs (S ind) +:+ stringify_at (S ind) x) items)
  +:+ newline +:+ tabs ind +:+ "]" +:+ rest
  = tabs (S ind) +:+ elems_text ind items rest.
Proof.
  induction items as [|x xs IH]; [congruence|]. intros _.
  rewrite join_map_tail. destruct xs as [|y ys].
  - simpl elems_text. now rewrite !append_assoc.
  - rewrite IH by congruence.
    change (elems_text ind (x :: y :: ys) rest)
      with (stringify_at (S ind) x +:+ "," +:+ newline +:+ tabs (S ind) +:+
            elems_text ind (y :: ys) rest).
    now rewrite !append_assoc.
Qed.

Lemma array_text ind x xs rest :
  stringify_at ind (JArr (x :: xs)) +:+ rest
  = "[" +:+ newline +:+ tabs (S ind) +:+ elems_text ind (x :: xs) rest.
Proof.
  change (stringify_at ind (JArr (x :: xs)))
    with ("[" +:+ newline +:+
          join ("," +:+ newline)
            (map (fun x => tabs (S ind) +:+ stringify_at (S ind) x) (x :: xs))
          +:+ newline +:+ tabs ind +:+ "]").
  rewrite !append_assoc.
  rewrite <- (elems_text_join ind (x :: xs) rest) by congruence.
  reflexivity.
Qed.

Lemma members_text_join ind members rest :
  members <> [] ->
  join ("," +:+ newline)
    (map (fun kv => tabs (S ind) +:+ quote (fst kv) +:+ ": " +:+
                    stringify_at (S ind) (snd kv)) members)
  +:+ newline +:+ tabs ind +:+ "}" +:+ rest
  = tabs (S ind) +:+ members_text ind members rest.
Proof.
  induction members as [|x xs IH]; [congruence|]. intros _.
  rewrite join_map_tail. destruct xs as [|y ys].
  - simpl members_text. now rewrite !append_assoc.
  - rewrite IH by congruence.
    change (members_text ind (x :: y :: ys) rest)
      with (quote (fst x) +:+ ": " +:+ stringify_at (S ind) (snd x) +:+
            "," +:+ newline +:+ tabs (S ind) +:+
            members_text ind (y :: ys) rest).
    now rewrite !append_assoc.
Qed.

Lemma object_text ind x xs rest :
  stringify_at ind (JObj (x :: xs)) +:+ rest
  = "{" +:+ newline +:+ tabs (S ind) +:+ members_text ind (x :: xs) rest.
Proof.
  change (stringify_at ind (JObj (x :: xs)))
    with ("{" +:+ newline +:+
          join ("," +:+ newline)
            (map (fun kv => tabs (S ind) +:+ quote (fst kv) +:+ ": " +:+
                            stringify_at (S ind) (snd kv)) (x :: xs))
          +:+ newline +:+ tabs ind +:+ "}").
  rewrite !append_assoc.
  rewrite <- (members_text_join ind (x :: xs) rest) by congruence.
  reflexivity.
Qed.

(** A value's text starts with a character that is neither white space nor
    a closing bracket. *)
Lemma value_head ind v rest :
  textual v = true ->
  skip_ws (stringify_at ind v +:+ rest) = stringify_at ind v +:+ rest /\
  head_is "]" (stringify_at ind v +:+ rest) = false /\
  head_is "}" (stringify_at ind v +:+ rest) = false.
Proof.
  destruct v as [|[]|n|s|[|x xs]|[|kv ms]]; intros Ht; try discriminate;
    repeat split; reflexivity.
Qed.



Lemma parse_value_S f s :
  parse_value (S f) s =
    let s := skip_ws s in
    if head_is "{" s then
      let r := skip_ws (tail s) in
      if head_is "}" r then Some (JObj [], tail r)
      else '(ms, tl) ← parse_members f r ; Some (JObj ms, tl)
    else if head_is "[" s then
      let r := skip_ws (tail s) in
      if head_is "]" r then Some (JArr [], tail r)
      else '(xs, tl) ← parse_elements f r ; Some (JArr xs, tl)
    else if head_is dquote s then
      '(str, tl) ← parse_string_body (tail s) ; Some (JStr str, tl)
    else if head_is "t" s then tl ← expect "true" s ; Some (JBool true, tl)
    else if head_is "f" s then tl ← expect "false" s ; Some (JBool false, tl)
    else if head_is "n" s then tl ← expect "null" s ; Some (JNull, tl)
    else '(n, tl) ← parse_number s ; Some (JNum n, tl).
Proof. reflexivity. Qed.

Lemma parse_elements_S f s :
  parse_elements (S f) s =
    '(v, tl) ← parse_value f s ;
    let tl := skip_ws tl in
    if head_is "," tl then
      '(vs, tl') ← parse_elements f (tail tl) ; Some (v :: vs, tl')
    else if head_is "]" tl then Some ([v], tail tl)
    else None.
Proof. reflexivity. Qed.

Lemma parse_members_S f s :
  parse_members (S f) s =
    let s := skip_ws s in
    if head_is dquote s then
      '(k, tl) ← parse_string_body (tail s) ;
      let tl := skip_ws tl in
      if head_is ":" tl then
        '(v, tl') ← parse_value f (tail tl) ;
        let tl' := skip_ws tl' in
        if head_is "," tl' then
          '(ms, tl'') ← parse_members f (tail tl') ;
          Some ((k, v) :: ms, tl'')
        else if head_is "}" tl' then Some ([(k, v)], tail tl')
        else None
      else None
    else None.
Proof. reflexivity. Qed.

(** [reads_back v]: wherever [v] was written, with fuel for its nodes, the
    parser returns [v] and stops right behind it. *)
Definition reads_back (v : json) : Prop :=
  forall ind fuel rest,
    size v <= fuel ->
    parse_value fuel (stringify_at ind v +:+ rest) = Some (v, rest).

Lemma bind_Some {A B} (a : A) (f : A -> option B) : Some a ≫= f = f a.
Proof. reflexivity. Qed.

(** Punctuation is not white space, and is told apart by its head. *)
Lemma skip_ws_punct c z :
  is_ws c = false -> skip_ws (String c z) = String c z.
Proof. intros E. simpl. now rewrite E. Qed.

Lemma head_is_cons c d z : head_is c (String d z) = Ascii.eqb d c.
Proof. reflexivity. Qed.

Lemma tail_cons d z : tail (String d z) = z.
Proof. reflexivity. Qed.

Lemma elements_read_back items :
  items <> [] ->
  Forall (fun x => textual x = true -> reads_back x) items ->
  forallb textual items = true ->
  forall ind fuel rest,
    list_sum (map (fun x => S (size x)) items) <= fuel ->
    parse_elements fuel (elems_text ind items rest) = Some (items, rest).
Proof.
  induction items as [|x xs IH]; [congruence|].
  intros _ Hall Htext ind fuel rest Hfuel.
  apply Forall_cons in Hall as [Hx Hxs].
  simpl in Htext. apply andb_true_iff in Htext as [Htx Htxs].
  simpl in Hfuel. destruct fuel as [|f]; [lia|].
  rewrite parse_elements_S.
  destruct xs as [|y ys].
  - change (elems_text ind [x] rest)
      with (stringify_at (S ind) x +:+ newline +:+ tabs ind +:+
            String "]" rest).
    rewrite (Hx Htx) by (simpl in Hfuel; lia).
    rewrite bind_Some. cbv zeta.
    rewrite skip_ws_indent, skip_ws_punct by reflexivity.
    rewrite !head_is_cons, tail_cons. reflexivity.
  - change (elems_text ind (x :: y :: ys) rest)
      with (stringify_at (S ind) x +:+
            String "," (newline +:+ tabs (S ind) +:+
                        elems_text ind (y :: ys) rest)).
    rewrite (Hx Htx) by lia.
    rewrite bind_Some. cbv zeta.
    rewrite skip_ws_punct by reflexivity.
    rewrite !head_is_cons, tail_cons.
    change (Ascii.eqb "," ",") with true. cbv iota.
    rewrite <- parse_elements_skip, skip_ws_indent, parse_elements_skip.
    rewrite IH; [reflexivity|congruence|assumption|assumption|].
    simpl. simpl in Hfuel. lia.
Qed.

Lemma members_read_back members :
  members <> [] ->
  Forall (fun kv => textual (snd kv) = true -> reads_back (snd kv)) members ->
  forallb (fun kv => textual (snd kv)) members = true ->
  forall ind fuel rest,
    list_sum (map (fun kv => S (size (snd kv))) members) <= fuel ->
    parse_members fuel (members_text ind members rest) = Some (members, rest).
Proof.
  induction members as [|[k v] ms IH]; [congruence|].
  intros _ Hall Htext ind fuel rest Hfuel.
  apply Forall_cons in Hall as [Hv Hms].
  simpl in Htext. apply andb_true_iff in Htext as [Htv Htms].
  simpl in Hfuel. simpl in Hv. destruct fuel as [|f]; [lia|].
  rewrite parse_members_S.
  destruct ms as [|kv' ms'].
  - change (members_text ind [(k, v)] rest)
      with (quote k +:+ String ":" (String " " (stringify_at (S ind) v +:+
              newline +:+ tabs ind +:+ String "}" rest))).
    rewrite quote_append. cbv zeta.
    rewrite skip_ws_punct by reflexivity.
    rewrite head_is_cons, tail_cons.
    change (Ascii.eqb dquote dquote) with true. cbv iota.
    rewrite escape_body, bind_Some.
    rewrite skip_ws_punct by reflexivity.
    rewrite head_is_cons, tail_cons.
    change (Ascii.eqb ":" ":") with true. cbv iota.
    rewrite <- parse_value_skip.
    change (skip_ws (String " " ?z)) with (skip_ws z).
    rewrite parse_value_skip.
    rewrite (Hv Htv) by lia.
    rewrite bind_Some.
    rewrite skip_ws_indent, skip_ws_punct by reflexivity.
    rewrite !head_is_cons, tail_cons. reflexivity.
  - change (members_text ind ((k, v) :: kv' :: ms') rest)
      with (quote k +:+ String ":" (String " " (stringify_at (S ind) v +:+
              String "," (newline +:+ tabs (S ind) +:+
                          members_text ind (kv' :: ms') rest)))).
    rewrite quote_append. cbv zeta.
    rewrite skip_ws_punct by reflexivity.
    rewrite head_is_cons, tail_cons.
    change (Ascii.eqb dquote dquote) with true. cbv iota.
    rewrite escape_body, bind_Some.
    rewrite skip_ws_punct by reflexivity.
    rewrite head_is_cons, tail_cons.
    change (Ascii.eqb ":" ":") with true. cbv iota.
    rewrite <- parse_value_skip.
    change (skip_ws (String " " ?z)) with (skip_ws z).
    rewrite parse_value_skip.
    rewrite (Hv Htv) by lia.
    rewrite bind_Some.
    rewrite skip_ws_punct by reflexivity.
    rewrite !head_is_cons, tail_cons.
    change (Ascii.eqb "," ",") with true. cbv iota.
    rewrite <- parse_members_skip, skip_ws_indent, parse_members_skip.
    rewrite IH; [reflexivity|congruence|assumption|assumption|].
    simpl. simpl in Hfuel. lia.
Qed.

Lemma elems_head ind x xs rest :
  textual x = true ->
  skip_ws (elems_text ind (x :: xs) rest) = elems_text ind (x :: xs) rest /\
  head_is "]" (elems_text ind (x :: xs) rest) = false.
Proof.
  intros Ht. destruct xs as [|y ys].
  - destruct (value_head (S ind) x
                (newline +:+ tabs ind +:+ "]" +:+ rest) Ht) as (H1 & H2 & _).
    split; assumption.
  - destruct (value_head (S ind) x
                ("," +:+ newline +:+ tabs (S ind) +:+
                 elems_text ind (y :: ys) rest) Ht) as (H1 & H2 & _).
    split; assumption.
Qed.

Lemma members_head ind kv ms rest :
  skip_ws (members_text ind (kv :: ms) rest) = members_text ind (kv :: ms) rest /\
  head_is "}" (members_text ind (kv :: ms) rest) = false.
Proof. destruct ms; split; reflexivity. Qed.

(** Every number-free document reads back. *)
Lemma textual_reads_back v : textual v = true -> reads_back v.
Proof.
  induction v as [|b|n|s|items IH|members IH] using json_nested_ind;
    intros Ht ind fuel rest Hfuel.
  - destruct fuel; [simpl in Hfuel; lia|reflexivity].
  - destruct fuel; [simpl in Hfuel; lia|]. destruct b; reflexivity.
  - discriminate.
  - destruct fuel as [|f]; [simpl in Hfuel; lia|].
    change (stringify_at ind (JStr s)) with (quote s).
    rewrite quote_append, parse_value_S. cbv zeta.
    rewrite skip_ws_punct by reflexivity.
    rewrite !head_is_cons, tail_cons.
    change (Ascii.eqb dquote "{") with false.
    change (Ascii.eqb dquote "[") with false.
    change (Ascii.eqb dquote dquote) with true. cbv iota.
    rewrite escape_body. reflexivity.
  - destruct items as [|x xs].
    { destruct fuel; [simpl in Hfuel; lia|reflexivity]. }
    destruct fuel as [|f]; [simpl in Hfuel; lia|].
    simpl in Ht. pose proof Ht as Ht'.
    apply andb_true_iff in Ht' as [Htx _].
    rewrite array_text, parse_value_S. cbv zeta.
    change ("[" +:+ ?z) with (String "[" z).
    rewrite skip_ws_punct by reflexivity.
    rewrite !head_is_cons, tail_cons.
    change (Ascii.eqb "[" "{") with false.
    change (Ascii.eqb "[" "[") with true. cbv iota.
    rewrite skip_ws_indent.
    destruct (elems_head ind x xs rest Htx) as [-> ->].
    rewrite (elements_read_back (x :: xs)); try assumption;
      [reflexivity|congruence|].
    simpl in Hfuel. simpl. lia.
  - destruct members as [|kv ms].
    { destruct fuel; [simpl in Hfuel; lia|reflexivity]. }
    destruct fuel as [|f]; [simpl in Hfuel; lia|].
    simpl in Ht.
    rewrite object_text, parse_value_S. cbv zeta.
    change ("{" +:+ ?z) with (String "{" z).
    rewrite skip_ws_punct by reflexivity.
    rewrite !head_is_cons, tail_cons.
    change (Ascii.eqb "{" "{") with true. cbv iota.
    rewrite skip_ws_indent.
    destruct (members_head ind kv ms rest) as [-> ->].
    rewrite (members_read_back (kv :: ms)); try assumption;
      [reflexivity|congruence|].
    simpl in Hfuel. simpl. lia.
Qed.

(** The text is at least as long as the document has nodes. *)
Lemma elems_text_length ind items rest :
  Forall (fun x => forall ind, size x <= String.length (stringify_at ind x))
         items ->
  list_sum (map (fun x => S (size x)) items) + String.length rest
  <= String.length (elems_text ind items rest).
Proof.
  induction items as [|x xs IH]; intros Hall; [simpl; lia|].
  apply Forall_cons in Hall as [Hx Hxs]. specialize (IH Hxs).
  specialize (Hx (S ind)).
  destruct xs as [|y ys].
  - simpl elems_text. rewrite !length_append. simpl. lia.
  - change (elems_text ind (x :: y :: ys) rest)
      with (stringify_at (S ind) x +:+ "," +:+ newline +:+ tabs (S ind) +:+
            elems_text ind (y :: ys) rest).
    rewrite !length_append.
    change (list_sum (map (fun x => S (size x)) (x :: y :: ys)))
      with (S (size x) + list_sum (map (fun x => S (size x)) (y :: ys))).
    change (String.length ",") with 1. lia.
Qed.

Lemma members_text_length ind members rest :
  Forall (fun kv => forall ind,
            size (snd kv) <= String.length (stringify_at ind (snd kv)))
         members ->
  list_sum (map (fun kv => S (size (snd kv))) members) + String.length rest
  <= String.length (members_text ind members rest).
Proof.
  induction members as [|x xs IH]; intros Hall; [simpl; lia|].
  apply Forall_cons in Hall as [Hx Hxs]. specialize (IH Hxs).
  specialize (Hx (S ind)).
  destruct xs as [|y ys].
  - simpl members_text. rewrite !length_append. simpl. lia.
  - change (members_text ind (x :: y :: ys) rest)
      with (quote (fst x) +:+ ": " +:+ stringify_at (S ind) (snd x) +:+
            "," +:+ newline +:+ tabs (S ind) +:+
            members_text ind (y :: ys) rest).
    rewrite !length_append.
    change (list_sum (map (fun kv => S (size (snd kv))) (x :: y :: ys)))
      with (S (size (snd x)) +
            list_sum (map (fun kv => S (size (snd kv))) (y :: ys))).
    change (String.length ",") with 1. lia.
Qed.

Lemma size_le_length v :
  textual v = true ->
  forall ind, size v <= String.length (stringify_at ind v).
Proof.
  induction v as [|b|n|s|items IH|members IH] using json_nested_ind;
    intros Ht ind.
  - simpl. lia.
  - destruct b; simpl; lia.
  - discriminate.
  - simpl. lia.
  - destruct items as [|x xs]; [simpl; lia|].
    assert (Hall : Forall (fun x => forall ind,
                             size x <= String.length (stringify_at ind x))
                          (x :: xs)).
    { change (forallb textual (x :: xs) = true) in Ht.
      rewrite forallb_forall in Ht.
      rewrite Forall_forall in IH. apply Forall_forall.
      intros y Hy. apply IH; [assumption|].
      apply Ht. now apply list_elem_of_In. }
    pose proof (array_text ind x xs "") as E.
    pose proof (elems_text_length ind (x :: xs) "" Hall) as L.
    rewrite append_empty_r in E. rewrite E, !length_append.
    change (size (JArr (x :: xs)))
      with (S (list_sum (map (fun x => S (size x)) (x :: xs)))).
    change (String.length "[") with 1.
    change (String.length "") with 0 in L. lia.
  - destruct members as [|x xs]; [simpl; lia|].
    assert (Hall : Forall (fun kv => forall ind,
                             size (snd kv)
                             <= String.length (stringify_at ind (snd kv)))
                          (x :: xs)).
    { change (forallb (fun kv => textual (snd kv)) (x :: xs) = true) in Ht.
      rewrite forallb_forall in Ht.
      rewrite Forall_forall in IH. apply Forall_forall.
      intros y Hy. apply IH; [assumption|].
      apply (Ht y). now apply list_elem_of_In. }
    pose proof (object_text ind x xs "") as E.
    pose proof (members_text_length ind (x :: xs) "" Hall) as L.
    rewrite append_empty_r in E. rewrite E, !length_append.
    change (size (JObj (x :: xs)))
      with (S (list_sum (map (fun kv => S (size (snd kv))) (x :: xs)))).
    change (String.length "{") with 1.
    change (String.length "") with 0 in L. lia.
Qed.

(** [JSON.parse] accepts what [JSON.stringify] wrote, with or without the
    final newline, and returns the document. *)
Theorem parse_stringify v :
  textual v = true ->
  parse (stringify v) = Some v /\
  parse (stringify v +:+ newline) = Some v.
Proof.
  intros Ht. unfold parse, stringify. split.
  - rewrite <- (append_empty_r (stringify_at 0 v)) at 2.
    rewrite (textual_reads_back v Ht); [reflexivity|].
    pose proof (size_le_length v Ht 0). lia.
  - rewrite (textual_reads_back v Ht); [reflexivity|].
    pose proof (size_le_length v Ht 0). rewrite length_append. lia.
Qed.

End Roundtrip.

(** ** Guard synthesis *)

Section Guards.
Import HooksDeployer.

Lemma getCapabilityGuards_other capability :
  capability ∉ NON_IMPLEMENTATION_CAPABILITIES ->
  getCapabilityGuards capability = getCapabilityGuards "builder".
Proof.
  intros Hn. unfold getCapabilityGuards.
  rewrite bool_decide_eq_false_2 by assumption. reflexivity.
Qed.

(** C1: [getCapabilityGuards] returns exactly 14 rules for the
    non-implementation capabilities (scout, reviewer, lead, coordinator,
    supervisor) and exactly 10 for every other label (builder, merger, any
    unknown one). *)
Theorem getCapabilityGuards_count (capability : string) :
  (capability ∈ ["scout"; "reviewer"; "lead"; "coordinator"; "supervisor"] ->
     List.length (getCapabilityGuards capability) = 14) /\
  (capability ∉ ["scout"; "reviewer"; "lead"; "coordinator"; "supervisor"] ->
     List.length (getCapabilityGuards capability) = 10).
Proof.
  split; intros Hc.
  - unfold getCapabilityGuards.
    rewrite bool_decide_eq_true_2 by exact Hc.
    rewrite !length_app, !length_map. reflexivity.
  - rewrite getCapabilityGuards_other by exact Hc. reflexivity.
Qed.

Lemma getCapabilityGuards_count_witness :
  List.length (getCapabilityGuards "scout") = 14 /\
  List.length (getCapabilityGuards "supervisor") = 14 /\
  List.length (getCapabilityGuards "merger") = 10 /\
  List.length (getCapabilityGuards "unknown") = 10.
Proof.
  split; [|split; [|split]].
  - apply (proj1 (getCapabilityGuards_count "scout")). set_solver.
  - apply (proj1 (getCapabilityGuards_count "supervisor")). set_solver.
  - apply (proj2 (getCapabilityGuards_count "merger")).
    apply (bool_decide_eq_false_1 _). vm_compute. reflexivity.
  - apply (proj2 (getCapabilityGuards_count "unknown")).
    apply (bool_decide_eq_false_1 _). vm_compute. reflexivity.
Defined.

End Guards.

(** ** Occurrences of the placeholder *)

Section Occurrences.
Import HooksDeployer Segments.

Lemma inString_cons_false c d s :
  inString c (String d s) = false -> c <> d /\ inString c s = false.
Proof.
  simpl. intros E. apply orb_false_iff in E as [E1 E2].
  split; [|assumption]. now apply Ascii.eqb_neq.
Qed.

(** A character that is not in the pattern ends every match attempt that
    reaches it. *)
Lemma prefix_sep p c l r :
  inString c p = false ->
  String.prefix p (l +:+ String c r) = String.prefix p l.
Proof.
  revert l. induction p as [|a p IH]; intros l Hc.
  - now destruct l.
  - apply inString_cons_false in Hc as [Hne Hc].
    destruct l as [|b l]; simpl.
    + destruct (ascii_dec a c); [congruence|reflexivity].
    + destruct (ascii_dec a b); [now apply IH|reflexivity].
Qed.

Lemma occurs_empty a p : occurs (String a p) "" = false.
Proof. reflexivity. Qed.

Lemma occurs_sep a p c l r :
  inString c (String a p) = false ->
  occurs (String a p) (l +:+ String c r)
  = occurs (String a p) l || occurs (String a p) r.
Proof.
  intros Hc. induction l as [|b l IH].
  - pose proof Hc as Hc'. apply inString_cons_false in Hc' as [Hne _].
    simpl. destruct (ascii_dec a c); [congruence|reflexivity].
  - change (String b l +:+ String c r) with (String b (l +:+ String c r)).
    cbn [occurs]. rewrite IH.
    change (String b (l +:+ String c r)) with (String b l +:+ String c r).
    rewrite (prefix_sep (String a p) c (String b l) r) by assumption.
    now rewrite orb_assoc.
Qed.

Lemma wf_weaken gs : wf false gs = true -> wf true gs = true.
Proof. destruct gs as [|[s| |c] gs]; simpl; intros E; try assumption; discriminate. Qed.

(** A well-formed text carries the placeholder only where the name put into
    its holes does. *)
Lemma render_clean n gs :
  wf true gs = true ->
  occurs PLACEHOLDER n = false ->
  occurs PLACEHOLDER (render n gs) = false.
Proof.
  intros Hwf Hn. induction gs as [|g gs IH]; [reflexivity|].
  assert (Hrun : forall x, occurs PLACEHOLDER x = false ->
                           wf false gs = true ->
                           occurs PLACEHOLDER (x +:+ render n gs) = false).
  { intros x Hx Hgs. destruct gs as [|[s| |c] gs']; simpl in Hgs;
      try discriminate.
    - simpl. now rewrite append_empty_r.
    - apply andb_true_iff in Hgs as [Hc Hgs].
      change (render n (Sep c :: gs')) with (String c ("" +:+ render n gs')).
      change ("" +:+ render n gs') with (render n gs').
      unfold PLACEHOLDER. rewrite occurs_sep.
      + fold PLACEHOLDER. rewrite Hx. simpl.
        specialize (IH ltac:(simpl; now rewrite Hc, Hgs)).
        change (render n (Sep c :: gs')) with (String c (render n gs')) in IH.
        cbn [occurs] in IH. now apply orb_false_iff in IH as [_ IH].
      + unfold is_sep in Hc. now apply negb_true_iff in Hc. }
  destruct g as [s| |c]; simpl in Hwf.
  - apply andb_true_iff in Hwf as [Hs Hgs]. simpl in Hs.
    apply negb_true_iff in Hs. now apply Hrun.
  - now apply Hrun.
  - apply andb_true_iff in Hwf as [Hc Hgs].
    change (render n (Sep c :: gs)) with ("" +:+ String c (render n gs)).
    unfold PLACEHOLDER. rewrite occurs_sep.
    + fold PLACEHOLDER. now apply IH.
    + unfold is_sep in Hc. now apply negb_true_iff in Hc.
Qed.

(** *** The written text, holes left open *)

Section Text.
Import JSON.

Lemma render_app n a b : render n (a ++ b) = render n a +:+ render n b.
Proof.
  induction a as [|g a IH]; [reflexivity|].
  simpl. now rewrite IH, append_assoc.
Qed.

Lemma escape_append a b : escape (a +:+ b) = escape a +:+ escape b.
Proof.
  induction a as [|c a IH]; [reflexivity|].
  rewrite append_cons. simpl. now rewrite IH, append_assoc.
Qed.

Lemma escape_render n gs :
  escape (render n gs) = render (escape n) (map escape_seg gs).
Proof.
  induction gs as [|g gs IH]; [reflexivity|].
  simpl. rewrite escape_append, IH. destruct g; try reflexivity.
  simpl. now rewrite append_empty_r.
Qed.

Lemma render_tjoin m sep l :
  render m (tjoin [Chunk sep] l) = join sep (map (render m) l).
Proof.
  induction l as [|x [|y l] IH]; [reflexivity|reflexivity|].
  change (tjoin [Chunk sep] (x :: y :: l))
    with (x ++ [Chunk sep] ++ tjoin [Chunk sep] (y :: l)).
  change (join sep (map (render m) (x :: y :: l)))
    with (render m x +:+ sep +:+ join sep (map (render m) (y :: l))).
  rewrite !render_app, IH. simpl. now rewrite append_empty_r.
Qed.

Lemma stringify_fill n v ind :
  stringify_at ind (fill n v) = render (escape n) (text_segments ind v).
Proof.
  revert ind.
  induction v as [|b|k|s|items IH|members IH] using json_nested_ind; intros ind.
  - reflexivity.
  - simpl. now rewrite append_empty_r.
  - simpl. now rewrite append_empty_r.
  - change (stringify_at ind (fill n (JStr s)))
      with (quote (render n (segments s))).
    change (text_segments ind (JStr s))
      with (Chunk dq :: map escape_seg (segments s) ++ [Chunk dq]).
    change (render ?m (Chunk ?s :: ?r)) with (s +:+ render m r).
    unfold quote. rewrite escape_render, render_app. reflexivity.
  - destruct items as [|x xs]; [reflexivity|].
    change (fill n (JArr (x :: xs))) with (JArr (fill n x :: map (fill n) xs)).
    change (stringify_at ind (JArr (fill n x :: map (fill n) xs)))
      with ("[" +:+ newline +:+
            join ("," +:+ newline)
              (map (fun x => tabs (S ind) +:+ stringify_at (S ind) x)
                 (map (fill n) (x :: xs))) +:+
            newline +:+ tabs ind +:+ "]").
    change (text_segments ind (JArr (x :: xs)))
      with (Chunk ("[" +:+ newline) ::
            tjoin [Chunk ("," +:+ newline)]
              (map (fun x => Chunk (tabs (S ind)) :: text_segments (S ind) x)
                 (x :: xs)) ++
            [Chunk (newline +:+ tabs ind +:+ "]")]).
    change (render ?m (Chunk ?s :: ?r)) with (s +:+ render m r).
    rewrite render_app, render_tjoin, !map_map.
    assert (E : map (fun x => render (escape n)
                                (Chunk (tabs (S ind)) :: text_segments (S ind) x))
                    (x :: xs)
                = map (fun x => tabs (S ind) +:+ stringify_at (S ind) (fill n x))
                    (x :: xs)).
    { apply map_ext_Forall. eapply Forall_impl; [exact IH|].
      intros y Hy. simpl. now rewrite Hy. }
    rewrite E. simpl render. rewrite !append_assoc, append_empty_r. reflexivity.
  - destruct members as [|x xs]; [reflexivity|].
    change (fill n (JObj (x :: xs)))
      with (JObj (map (fun kv => (fst kv, fill n (snd kv))) (x :: xs))).
    change (stringify_at ind (JObj (map (fun kv => (fst kv, fill n (snd kv))) (x :: xs))))
      with ("{" +:+ newline +:+
            join ("," +:+ newline)
              (map (fun kv => tabs (S ind) +:+ quote (fst kv) +:+ ": " +:+
                              stringify_at (S ind) (snd kv))
                 (map (fun kv => (fst kv, fill n (snd kv))) (x :: xs))) +:+
            newline +:+ tabs ind +:+ "}").
    change (text_segments ind (JObj (x :: xs)))
      with (Chunk ("{" +:+ newline) ::
            tjoin [Chunk ("," +:+ newline)]
              (map (fun kv => Chunk (tabs (S ind) +:+ quote (fst kv) +:+ ": ") ::
                              text_segments (S ind) (snd kv)) (x :: xs)) ++
            [Chunk (newline +:+ tabs ind +:+ "}")]).
    change (render ?m (Chunk ?s :: ?r)) with (s +:+ render m r).
    rewrite render_app, render_tjoin, !map_map.
    assert (E : map (fun kv => render (escape n)
                                 (Chunk (tabs (S ind) +:+ quote (fst kv) +:+ ": ") ::
                                  text_segments (S ind) (snd kv)))
                    (x :: xs)
                = map (fun kv => tabs (S ind) +:+ quote (fst kv) +:+ ": " +:+
                                 stringify_at (S ind) (fill n (snd kv)))
                    (x :: xs)).
    { apply map_ext_Forall. eapply Forall_impl; [exact IH|].
      intros y Hy. simpl in Hy. simpl. rewrite Hy, !append_assoc. reflexivity. }
    rewrite E. simpl render. rewrite !append_assoc, append_empty_r. reflexivity.
Qed.

Lemma escape_char_cases c :
  escape_char c = String c "" \/
  exists e : string,
    escape_char c = String "\"%char e /\
    forall r, occurs PLACEHOLDER (String "\"%char e +:+ r)
              = occurs PLACEHOLDER r.
Proof.
  destruct c as [[] [] [] [] [] [] [] []];
    first [ left; reflexivity
          | right; eexists; split; [reflexivity|intros r; reflexivity] ].
Qed.

Lemma placeholder_letters a :
  inString a PLACEHOLDER = true -> a <> "\"%char.
Proof. intros H ->. discriminate H. Qed.

Lemma prefix_escape p s :
  (forall a, inString a p = true -> a <> "\"%char) ->
  String.prefix p (escape s) = true -> String.prefix p s = true.
Proof.
  revert s. induction p as [|a p IH]; intros s Hp H; [now destruct s|].
  destruct s as [|c s]; [discriminate|].
  change (escape (String c s)) with (escape_char c +:+ escape s) in H.
  revert H.
  destruct (escape_char_cases c) as [E|(e & E & _)]; rewrite E; simpl.
  - destruct (ascii_dec a c); [|discriminate].
    apply IH. intros b Hb. apply Hp. simpl. rewrite Hb. apply orb_true_r.
  - destruct (ascii_dec a "\"%char); [|discriminate].
    exfalso. apply (Hp a); [|assumption]. simpl. now rewrite Ascii.eqb_refl.
Qed.

Lemma occurs_escape s :
  occurs PLACEHOLDER s = false -> occurs PLACEHOLDER (escape s) = false.
Proof.
  induction s as [|c s IH]; [intros _; reflexivity|].
  intros Hs. cbn [occurs] in Hs. apply orb_false_iff in Hs as [Hpre Hs].
  change (escape (String c s)) with (escape_char c +:+ escape s).
  destruct (escape_char_cases c) as [E|(e & E & Hskip)].
  - destruct (String.prefix PLACEHOLDER (escape (String c s))) eqn:Hp.
    + apply prefix_escape in Hp; [congruence|apply placeholder_letters].
    + change (escape (String c s)) with (escape_char c +:+ escape s) in Hp.
      rewrite E in *.
      change (String c "" +:+ escape s) with (String c (escape s)) in *.
      cbn [occurs]. now rewrite Hp, (IH Hs).
  - rewrite E, Hskip. now apply IH.
Qed.

End Text.

End Occurrences.

(** ** Hook deployment *)

Section Deploy.
Import HooksDeployer Segments.

Lemma buildConfig_other n capability :
  capability ∉ NON_IMPLEMENTATION_CAPABILITIES ->
  buildConfig n capability = buildConfig n "builder".
Proof.
  intros Hn. unfold buildConfig. now rewrite (getCapabilityGuards_other capability).
Qed.

(** Splits a goal about [buildConfig n c] into the five non-implementation
    capabilities and the builder's configuration, which every other label
    shares. *)
Ltac by_capability c :=
  let Hin := fresh "Hin" in
  let Hout := fresh "Hout" in
  destruct (decide (c ∈ NON_IMPLEMENTATION_CAPABILITIES)) as [Hin|Hout];
  [ unfold NON_IMPLEMENTATION_CAPABILITIES in Hin;
    repeat (apply elem_of_cons in Hin as [->|Hin]);
    [ .. | now apply elem_of_nil in Hin ]
  | rewrite (buildConfig_other _ c Hout) ].

Lemma Forall_render_clean n gss :
  forallb (wf true) gss = true ->
  occurs PLACEHOLDER n = false ->
  Forall (fun s => occurs PLACEHOLDER s = false) (map (render n) gss).
Proof.
  intros Hwf Hn. induction gss as [|gs gss IH]; simpl; [constructor|].
  simpl in Hwf. apply andb_true_iff in Hwf as [H1 H2].
  constructor; [now apply render_clean|now apply IH].
Qed.

(** No string of the configuration built for a name that is free of the
    placeholder contains the placeholder. *)
Lemma buildConfig_clean n capability :
  occurs PLACEHOLDER n = false ->
  Forall (fun s => occurs PLACEHOLDER s = false)
         (configStrings (buildConfig n capability)).
Proof.
  intros Hn.
  by_capability capability;
    match goal with
    | |- Forall _ (configStrings (buildConfig _ ?c)) =>
        change (configStrings (buildConfig n c))
          with (map (render n)
                  (map segments (configStrings (buildConfig PLACEHOLDER c))));
        apply Forall_render_clean; [vm_compute; reflexivity|assumption]
    end.
Qed.

(** Nor does any part of the text written for it. *)
Lemma deployed_text_clean n capability :
  occurs PLACEHOLDER n = false ->
  occurs PLACEHOLDER
    (JSON.stringify (config_to_json (buildConfig n capability))
     +:+ JSON.newline) = false.
Proof.
  intros Hn. apply occurs_escape in Hn.
  by_capability capability;
    match goal with
    | |- occurs _ (JSON.stringify (config_to_json (buildConfig _ ?c)) +:+ _)
         = false =>
        change (config_to_json (buildConfig n c))
          with (fill n (config_to_json (buildConfig PLACEHOLDER c)));
        unfold JSON.stringify; rewrite stringify_fill;
        change JSON.newline
          with (render (JSON.escape n) [Chunk JSON.newline]);
        rewrite <- render_app;
        generalize dependent (JSON.escape n); intros m Hm;
        match goal with
        | |- occurs _ (render m ?gs) = false =>
            change (render m gs)
              with (render m (segments (render PLACEHOLDER gs)))
        end;
        apply render_clean; [vm_compute; reflexivity|exact Hm]
    end.
Qed.

Lemma buildConfig_categories n capability :
  map fst (buildConfig n capability) = HOOK_CATEGORIES.
Proof. by_capability capability; reflexivity. Qed.

(** The template after substitution: every placeholder has become the
    name. *)
Lemma substitute_TEMPLATE n :
  substitute n TEMPLATE =
  [("SessionStart", [baseRule ("overstory prime --agent " +:+ n)]);
   ("UserPromptSubmit",
      [baseRule ("overstory mail check --inject --agent " +:+ n)]);
   ("PreToolUse", [baseRule ("overstory log tool-start --agent " +:+ n)]);
   ("PostToolUse", [baseRule ("overstory log tool-end --agent " +:+ n)]);
   ("Stop", [baseRule ("overstory log session-end --agent " +:+ n)]);
   ("PreCompact",
      [baseRule ("overstory prime --agent " +:+ n +:+ " --compact")])].
Proof.
  unfold substitute, TEMPLATE, substituteEntry, baseRule, commandHook, replaceAll.
  simpl. rewrite !append_empty_r. reflexivity.
Qed.

Lemma buildConfig_eq n capability :
  buildConfig n capability =
  prependTo "PreToolUse" (getDangerGuards n ++ getCapabilityGuards capability)
    (substitute n TEMPLATE).
Proof. reflexivity. Qed.

Lemma buildConfig_preToolUse n capability :
  preToolUse (buildConfig n capability)
  = getDangerGuards n ++ getCapabilityGuards capability ++
    [baseRule ("overstory log tool-start --agent " +:+ n)].
Proof.
  rewrite buildConfig_eq, substitute_TEMPLATE.
  reflexivity.
Qed.

Lemma forallb_map_true {A B} (f : B -> bool) (g : A -> B) l :
  (forall x, f (g x) = true) -> forallb f (map g l) = true.
Proof.
  intros Hf. induction l as [|x l IH]; [reflexivity|].
  simpl. now rewrite Hf, IH.
Qed.

(** A hook configuration is a document of objects, arrays and strings. *)
Lemma config_textual config : JSON.textual (config_to_json config) = true.
Proof.
  unfold config_to_json.
  change (forallb (fun kv => JSON.textual kv.2)
            [("hooks", JSON.JObj (map (fun kv =>
                 (kv.1, JSON.JArr (map entry_to_json kv.2))) config))] = true).
  cbn [forallb snd andb].
  change (forallb (fun kv => JSON.textual kv.2)
            (map (fun kv => (kv.1, JSON.JArr (map entry_to_json kv.2))) config)
          && true = true).
  rewrite andb_true_r. apply forallb_map_true. intros [k rules].
  change (forallb JSON.textual (map entry_to_json rules) = true).
  apply forallb_map_true. intros e.
  change (forallb JSON.textual
            (map (fun h => JSON.JObj [("type", JSON.JStr (hc_type h));
                                      ("command", JSON.JStr (hc_command h))])
                 (hooks e)) && true = true).
  rewrite andb_true_r. apply forallb_map_true. intros h. reflexivity.
Qed.




Lemma capability_matchers capability :
  Forall (fun r => matcher r <> "") (getCapabilityGuards capability).
Proof.
  apply Forall_forall. intros r Hr.
  assert (Hm : matcher r ∈ map matcher (getCapabilityGuards capability))
    by (apply list_elem_of_fmap; eauto).
  unfold getCapabilityGuards in Hm. case_bool_decide.
  - rewrite !map_app, !map_map in Hm. simpl in Hm.
    repeat (apply elem_of_cons in Hm as [->|Hm]; [discriminate|]).
    now apply elem_of_nil in Hm.
  - rewrite map_map in Hm. simpl in Hm.
    repeat (apply elem_of_cons in Hm as [->|Hm]; [discriminate|]).
    now apply elem_of_nil in Hm.
Qed.

Lemma guard_matchers n capability :
  Forall (fun r => matcher r <> "")
         (getDangerGuards n ++ getCapabilityGuards capability).
Proof.
  apply Forall_app. split; [|apply capability_matchers].
  repeat constructor. discriminate.
Qed.



End Deploy.

(** ** Merge integration *)

Section Integrate.
Import Merge.

Lemma outcomes_lookup b o t p :
  outcomes b o t !! p =
    match b !! p, o !! p, t !! p with
    | None, None, None => None
    | _, _, _ => Some (merge_path (b !! p) (o !! p) (t !! p))
    end.
Proof.
  unfold outcomes. rewrite !lookup_merge.
  destruct (b !! p), (o !! p), (t !! p); reflexivity.
Qed.

Lemma outcomes_lookup_Some b o t p oc :
  outcomes b o t !! p = Some oc -> oc = merge_path (b !! p) (o !! p) (t !! p).
Proof.
  rewrite outcomes_lookup.
  destruct (b !! p), (o !! p), (t !! p); intros E; inversion E; reflexivity.
Qed.

Lemma merge_path_absent : merge_path None None None = Clean None.
Proof. reflexivity. Qed.

Lemma outcomes_conflict b o t p :
  merge_path (b !! p) (o !! p) (t !! p) = ContentConflict ->
  outcomes b o t !! p = Some ContentConflict.
Proof.
  rewrite outcomes_lookup.
  destruct (b !! p), (o !! p), (t !! p); intros E; try (now rewrite E).
  vm_compute in E. discriminate.
Qed.

(** C2, as the model has it: when the direct merge stops on a content
    conflict in a file (both sides changed the same lines differently) and
    no path conflicts structurally, [integrate] succeeds with tier
    content-merge and the file then holds the incoming branch's version in
    full; when no path conflicts at all, in particular when both sides
    changed the file on different lines, it succeeds with tier clean-merge
    and the file holds the three-way merge. *)
Theorem integrate_tiers (r : Repo) (branchName : string) (br : Branch) :
  branches r !! branchName = Some br ->
  let path_outcome p :=
    merge_path (fork br !! p) (target r !! p) (tip br !! p) in
  (forall f,
     path_outcome f = ContentConflict ->
     (forall p, path_outcome p <> StructuralConflict) ->
     exists r',
       integrate branchName false r
         = inr (Merged content_merge (parseBranch branchName).1
                  (parseBranch branchName).2, r') /\
       target r' !! f = tip br !! f)
  /\
  ((forall p, isClean (path_outcome p) = true) ->
   exists r',
     integrate branchName false r
       = inr (Merged clean_merge (parseBranch branchName).1
                (parseBranch branchName).2, r') /\
     forall f, path_outcome f = Clean (target r' !! f)).
Proof.
  intros Hbr path_outcome. split.
  - intros f Hf Hstruct.
    unfold integrate. rewrite Hbr.
    destruct (parseBranch branchName) as [agent bead]. simpl.
    unfold tryCleanMerge.
    destruct (decide (map_Forall _ _)) as [Hall|_].
    { exfalso. specialize (Hall f ContentConflict
                             (outcomes_conflict _ _ _ _ Hf)).
      discriminate. }
    unfold tryContentMerge.
    destruct (decide (map_Forall _ _)) as [_|Hnot].
    + eexists. split; [reflexivity|]. simpl.
      rewrite map_lookup_imap, (outcomes_conflict _ _ _ _ Hf). reflexivity.
    + exfalso. apply Hnot. intros p oc Hp.
      apply outcomes_lookup_Some in Hp. subst oc.
      specialize (Hstruct p). unfold path_outcome in Hstruct.
      destruct (merge_path _ _ _); try reflexivity. congruence.
  - intros Hclean.
    unfold integrate. rewrite Hbr.
    destruct (parseBranch branchName) as [agent bead]. simpl.
    unfold tryCleanMerge.
    destruct (decide (map_Forall _ _)) as [_|Hnot].
    + eexists. split; [reflexivity|]. intros f. simpl.
      rewrite lookup_omap, outcomes_lookup. unfold path_outcome.
      specialize (Hclean f). unfold path_outcome in Hclean.
      destruct (fork br !! f), (target r !! f), (tip br !! f); simpl;
        try (destruct (merge_path _ _ _); [reflexivity|discriminate..]);
        reflexivity.
    + exfalso. apply Hnot. intros p oc Hp.
      apply outcomes_lookup_Some in Hp. subst oc. apply Hclean.
Qed.

Lemma sample_paths (tipTree : gmap string Content) p :
  dom tipTree = {[ "src/shared.ts" ]} ->
  p <> "src/shared.ts" ->
  merge_path (Samples.sharedBase !! p) (Samples.sharedTarget !! p)
    (tipTree !! p) = Clean None.
Proof.
  intros Hdom Hp.
  assert (tipTree !! p = None) as ->.
  { apply not_elem_of_dom. rewrite Hdom. set_solver. }
  unfold Samples.sharedBase, Samples.sharedTarget.
  rewrite !lookup_singleton_ne by congruence. reflexivity.
Qed.

Lemma integrate_tiers_witness :
  (exists r',
     integrate "overstory/builder-conflict/bead-999" false
       (Samples.repoWith Samples.sharedSameLine)
     = inr (Merged content_merge "builder-conflict" "bead-999", r') /\
     target r' !! "src/shared.ts"
       = Some ["line 1 on feature"; "line 2"; "line 3"; "line 4"; "line 5"])
  /\
  (exists r',
     integrate "overstory/builder-conflict/bead-999" false
       (Samples.repoWith Samples.sharedElsewhere)
     = inr (Merged clean_merge "builder-conflict" "bead-999", r')).
Proof.
  split.
  - destruct (proj1 (integrate_tiers (Samples.repoWith Samples.sharedSameLine)
                       "overstory/builder-conflict/bead-999"
                       (mkBranch Samples.sharedBase Samples.sharedSameLine)
                       eq_refl) "src/shared.ts")
      as (r' & Hrun & Hfile).
    + vm_compute. reflexivity.
    + intros p. destruct (decide (p = "src/shared.ts")) as [->|Hp].
      * vm_compute. discriminate.
      * simpl. rewrite sample_paths; [discriminate|reflexivity|assumption].
    + exists r'. split; [exact Hrun|exact Hfile].
  - destruct (proj2 (integrate_tiers (Samples.repoWith Samples.sharedElsewhere)
                       "overstory/builder-conflict/bead-999"
                       (mkBranch Samples.sharedBase Samples.sharedElsewhere)
                       eq_refl))
      as (r' & Hrun & _).
    + intros p. destruct (decide (p = "src/shared.ts")) as [->|Hp].
      * vm_compute. reflexivity.
      * simpl. rewrite sample_paths; [reflexivity|reflexivity|assumption].
    + exists r'. exact Hrun.
Defined.

(** C2 as stated fails: target and branch both modified [src/shared.ts],
    to different contents, and nothing conflicts structurally; the direct
    merge succeeds, so the tier is clean-merge, and the file holds both
    sides' changes, not the branch's version. *)
Lemma integrate_both_modified_clean :
  Samples.sharedTarget !! "src/shared.ts" <> Samples.sharedBase !! "src/shared.ts" /\
  Samples.sharedElsewhere !! "src/shared.ts" <> Samples.sharedBase !! "src/shared.ts" /\
  Samples.sharedTarget !! "src/shared.ts" <> Samples.sharedElsewhere !! "src/shared.ts" /\
  (forall p,
     merge_path (Samples.sharedBase !! p) (Samples.sharedTarget !! p)
       (Samples.sharedElsewhere !! p) <> StructuralConflict) /\
  exists r',
    integrate "overstory/builder-conflict/bead-999" false
      (Samples.repoWith Samples.sharedElsewhere)
    = inr (Merged clean_merge "builder-conflict" "bead-999", r') /\
    target r' !! "src/shared.ts"
      = Some ["line 1 on default"; "line 2"; "line 3"; "line 4";
              "line 5 on feature"] /\
    target r' !! "src/shared.ts" <> Samples.sharedElsewhere !! "src/shared.ts".
Proof.
  split; [vm_compute; discriminate|].
  split; [vm_compute; discriminate|].
  split; [vm_compute; discriminate|].
  split.
  - intros p. destruct (decide (p = "src/shared.ts")) as [->|Hp].
    + vm_compute. discriminate.
    + rewrite sample_paths; [discriminate|reflexivity|assumption].
  - eexists. split; [vm_compute; reflexivity|].
    split; vm_compute; [reflexivity|discriminate].
Qed.

End Integrate.

(** * Further properties of the commands *)

(** ** The coordinator's life cycle (src/commands/coordinator.ts) *)

Section Lifecycle.
Context `{Json}.

(** A record marked completed or zombie is not an active coordinator. *)
Lemma terminal_not_active st s :
  st = completed \/ st = zombie ->
  ~ Coordinator.isActiveCoordinator (set_state st s).
Proof. intros [-> | ->] (_ & _ & Hc & Hz); simpl in *; congruence. Qed.

Lemma terminal_not_active' t st s :
  st = completed \/ st = zombie ->
  ~ Coordinator.isActiveCoordinator (set_lastActivity t (set_state st s)).
Proof. intros [-> | ->] (_ & _ & Hc & Hz); simpl in *; congruence. Qed.

(** Once the record that was found is replaced by one that is not active,
    the search passes it: it finds nothing, or a later record. *)
Lemma find_after_mark sessions i s s' :
  Coordinator.findCoordinatorSession sessions = Some (i, s) ->
  ~ Coordinator.isActiveCoordinator s' ->
  Coordinator.findCoordinatorSession (<[i := s']> sessions)
  = (fun '(j, x) => (S i + j, x)) <$>
      Coordinator.findCoordinatorSession (drop (S i) sessions).
Proof.
  unfold Coordinator.findCoordinatorSession.
  revert i. induction sessions as [|a l IH]; intros i Hf Hs'; [discriminate|].
  simpl in Hf. destruct (decide (Coordinator.isActiveCoordinator a)) as [Ha|Ha].
  - injection Hf as <- <-. simpl. rewrite decide_False by assumption.
    rewrite drop_0. destruct (list_find _ l) as [[j x]|]; reflexivity.
  - destruct (list_find _ l) as [[j x]|] eqn:E; [|discriminate].
    injection Hf as <- <-. simpl. rewrite decide_False by assumption.
    rewrite (IH j eq_refl Hs'). 
    destruct (list_find _ (drop (S j) l)) as [[k y]|]; reflexivity.
Qed.

Lemma find_after_mark_None sessions i s s' :
  Coordinator.findCoordinatorSession sessions = Some (i, s) ->
  ~ Coordinator.isActiveCoordinator s' ->
  Forall (fun x => ~ Coordinator.isActiveCoordinator x) (drop (S i) sessions) ->
  Coordinator.findCoordinatorSession (<[i := s']> sessions) = None.
Proof.
  intros Hf Hs' Hrest. rewrite (find_after_mark _ _ _ _ Hf Hs').
  replace (Coordinator.findCoordinatorSession (drop (S i) sessions)) with
    (@None (nat * AgentSession)); [reflexivity|].
  symmetry. apply list_find_None. exact Hrest.
Qed.


(** Killing leaves no session of that name alive and no other session
    affected. *)
Lemma killSession_alive w nm nm' :
  sessionAlive (killSession nm w).2 nm'
  = if decide (nm' = nm) then false else sessionAlive w nm'.
Proof.
  unfold killSession, sessionAlive, with_tmux. simpl.
  destruct (tmux w) as [l|]; simpl; [|now destruct (decide _)].
  destruct (decide (nm' = nm)) as [->|Hne].
  - apply bool_decide_eq_false_2. intros Hin.
    apply list_elem_of_fmap in Hin as ([a b] & -> & Hin).
    apply list_elem_of_filter in Hin as [Hne _]. now apply Hne.
  - apply bool_decide_ext. rewrite !list_elem_of_fmap. split.
    + intros (x & -> & Hin). apply list_elem_of_filter in Hin as [_ Hin]. eauto.
    + intros (x & -> & Hin). exists x. split; [reflexivity|].
      apply list_elem_of_filter. split; [exact Hne|exact Hin].
Qed.

Lemma stopCoordinator_run w args config sessions i s :
  let sessionsPath := join3 (project_root config) ".overstory" "sessions.json" in
  let stopped := set_lastActivity (now_iso (env w)) (set_state completed s) in
  let content :=
    JSON_stringify (<[i := stopped]> sessions) +:+ String "010" "" in
  let w1 := if sessionAlive w (tmuxSession s)
            then (killSession (tmuxSession s) w).2 else w in
  loadConfig_outcome (env w) = inr config ->
  Coordinator.loadSessions sessionsPath w = (Return sessions, w) ->
  Coordinator.findCoordinatorSession sessions = Some (i, s) ->
  Coordinator.stopCoordinator args w =
    if fs_readonly w then (Throw (RuntimeError "EROFS: write"), w1)
    else (Return tt,
          with_stdout (OutStopped (includes args "--json") (s_id s))
            (with_files (<[sessionsPath := content]> (files w))
               [OpWrite sessionsPath content] w1)).
Proof.
  intros sessionsPath stopped content w1 Hcfg Hload Hfind.
  unfold Coordinator.stopCoordinator, bind at 1 2, loadConfig.
  rewrite Hcfg. fold sessionsPath. rewrite Hload, Hfind.
  unfold bind, isSessionAlive, toISOString, Coordinator.saveSessions,
    Bun_write, write_stdout, ret.
  subst w1. destruct (sessionAlive w (tmuxSession s)); simpl;
    destruct (fs_readonly w); reflexivity.
Qed.


Lemma found_active sessions i s :
  Coordinator.findCoordinatorSession sessions = Some (i, s) ->
  sessions !! i = Some s /\ Coordinator.isActiveCoordinator s.
Proof. intros Hf. apply list_find_Some in Hf as (? & ? & _). now split. Qed.

Lemma loadSessions_after_write w path content sessions fs :
  JSON_parse content = Some sessions ->
  files w = <[path := content]> fs ->
  Coordinator.loadSessions path w = (Return sessions, w).
Proof.
  intros Hparse Hfiles. apply loadSessions_parsed with content; [|assumption].
  rewrite Hfiles. apply lookup_insert_eq.
Qed.

(** The reader looks at the files only. *)
Lemma loadSessions_files w w' path sessions :
  files w' = files w ->
  Coordinator.loadSessions path w = (Return sessions, w) ->
  Coordinator.loadSessions path w' = (Return sessions, w').
Proof.
  intros Hf Hload.
  destruct (files w !! path) as [text|] eqn:E.
  - destruct (JSON_parse text) as [ss|] eqn:P.
    + rewrite (loadSessions_parsed w path text ss E P) in Hload.
      injection Hload as <-. apply loadSessions_parsed with text; congruence.
    + rewrite (loadSessions_corrupt w path text E P) in Hload.
      injection Hload as <-. apply loadSessions_corrupt with text; congruence.
  - rewrite (loadSessions_missing w path E) in Hload.
    injection Hload as <-. apply loadSessions_missing; congruence.
Qed.

(** X1: Stopping: the record found is written back completed, with the time
    of the stop; its multiplexer session is not alive afterwards and no other
    one is touched; the identifier of the stopped session is printed. *)
Theorem stopCoordinator_active (w : World) (args : list string)
    (config : Config) (sessions : list AgentSession) (i : nat)
    (s : AgentSession) :
  let sessionsPath := join3 (project_root config) ".overstory" "sessions.json" in
  let stopped := set_lastActivity (now_iso (env w)) (set_state completed s) in
  let sessions' := <[i := stopped]> sessions in
  loadConfig_outcome (env w) = inr config ->
  Coordinator.loadSessions sessionsPath w = (Return sessions, w) ->
  Coordinator.findCoordinatorSession sessions = Some (i, s) ->
  fs_readonly w = false ->
  exists w',
    Coordinator.stopCoordinator args w = (Return tt, w') /\
    files w' = <[sessionsPath := JSON_stringify sessions' +:+ String "010" ""]>
                 (files w) /\
    sessions' !! i = Some stopped /\
    (forall j, j <> i -> sessions' !! j = sessions !! j) /\
    (forall j x, Coordinator.findCoordinatorSession sessions' = Some (j, x) ->
                 i < j) /\
    sessionAlive w' (tmuxSession s) = false /\
    (forall nm, nm <> tmuxSession s -> sessionAlive w' nm = sessionAlive w nm) /\
    stdout w' = stdout w ++ [OutStopped (includes args "--json") (s_id s)].
Proof.
  intros sessionsPath stopped sessions' Hcfg Hload Hfind Hrw.
  pose proof (found_active _ _ _ Hfind) as [Hi _].
  eexists. split.
  { rewrite (stopCoordinator_run w args config sessions i s Hcfg Hload Hfind).
    rewrite Hrw. reflexivity. }
  split; [reflexivity|].
  split; [apply list_lookup_insert_eq; eauto using lookup_lt_Some|].
  split; [intros j Hj; now apply list_lookup_insert_ne|].
  split.
  { intros j x Hj. unfold sessions' in Hj.
    rewrite (find_after_mark _ _ _ stopped Hfind) in Hj
      by (apply terminal_not_active'; now left).
    destruct (Coordinator.findCoordinatorSession (drop (S i) sessions))
      as [[k y]|]; [|discriminate].
    simpl in Hj. injection Hj as <- _. lia. }
  split.
  { simpl. destruct (sessionAlive w (tmuxSession s)) eqn:Ha; [|exact Ha].
    change (sessionAlive (killSession (tmuxSession s) w).2 (tmuxSession s)
            = false).
    rewrite killSession_alive. now rewrite decide_True. }
  split; [|simpl; now destruct (sessionAlive w (tmuxSession s))].
  intros nm Hnm. simpl. destruct (sessionAlive w (tmuxSession s)); [|reflexivity].
  change (sessionAlive (killSession (tmuxSession s) w).2 nm = sessionAlive w nm).
  rewrite killSession_alive. now rewrite decide_False.
Qed.

(** X2: When the registry cannot be written, the session has been killed all
    the same: the error of the write is what the caller sees, the registry
    keeps the record as active and nothing is printed. *)
Theorem stopCoordinator_unwritable (w : World) (args : list string)
    (config : Config) (sessions : list AgentSession) (i : nat)
    (s : AgentSession) :
  let sessionsPath := join3 (project_root config) ".overstory" "sessions.json" in
  loadConfig_outcome (env w) = inr config ->
  Coordinator.loadSessions sessionsPath w = (Return sessions, w) ->
  Coordinator.findCoordinatorSession sessions = Some (i, s) ->
  fs_readonly w = true ->
  exists x w',
    Coordinator.stopCoordinator args w = (Throw x, w') /\
    isAgentError x = false /\
    sessionAlive w' (tmuxSession s) = false /\
    files w' = files w /\ fs_ops w' = fs_ops w /\ stdout w' = stdout w /\
    Coordinator.loadSessions sessionsPath w' = (Return sessions, w').
Proof.
  intros sessionsPath Hcfg Hload Hfind Hro.
  eexists. eexists. split.
  { rewrite (stopCoordinator_run w args config sessions i s Hcfg Hload Hfind).
    rewrite Hro. reflexivity. }
  split; [reflexivity|].
  assert (Hw : forall A (f : World -> A),
             (forall t, f (with_tmux t w) = f w) ->
             f (if sessionAlive w (tmuxSession s)
                then (killSession (tmuxSession s) w).2 else w) = f w).
  { intros A f Hf. destruct (sessionAlive w (tmuxSession s)); [|reflexivity].
    apply Hf. }
  split.
  { destruct (sessionAlive w (tmuxSession s)) eqn:Ha; [|exact Ha].
    rewrite killSession_alive. now rewrite decide_True. }
  split; [now apply (Hw _ files)|].
  split; [now apply (Hw _ fs_ops)|].
  split; [now apply (Hw _ stdout)|].
  apply loadSessions_files with w; [now apply (Hw _ files)|exact Hload].
Qed.

(** X3: Stopping twice: when no other coordinator record is active, the
    second stop finds nothing to stop. *)
Theorem stopCoordinator_twice (w : World) (args args' : list string)
    (config : Config) (sessions : list AgentSession) (i : nat)
    (s : AgentSession) :
  let sessionsPath := join3 (project_root config) ".overstory" "sessions.json" in
  let stopped := set_lastActivity (now_iso (env w)) (set_state completed s) in
  let sessions' := <[i := stopped]> sessions in
  loadConfig_outcome (env w) = inr config ->
  Coordinator.loadSessions sessionsPath w = (Return sessions, w) ->
  Coordinator.findCoordinatorSession sessions = Some (i, s) ->
  Forall (fun x => ~ Coordinator.isActiveCoordinator x) (drop (S i) sessions) ->
  fs_readonly w = false ->
  JSON_parse (JSON_stringify sessions' +:+ String "010" "") = Some sessions' ->
  exists w',
    Coordinator.stopCoordinator args w = (Return tt, w') /\
    Coordinator.stopCoordinator args' w'
    = (Throw Coordinator.noActiveSession, w').
Proof.
  intros sessionsPath stopped sessions' Hcfg Hload Hfind Hrest Hrw Hrt.
  pose proof (stopCoordinator_run w args config sessions i s Hcfg Hload Hfind)
    as Hrun.
  cbv zeta in Hrun. rewrite Hrw in Hrun.
  destruct (sessionAlive w (tmuxSession s));
    (eexists; split; [exact Hrun|];
     apply stopCoordinator_no_session with config sessions';
     [ exact Hcfg
     | eapply loadSessions_after_write; [exact Hrt|reflexivity]
     | apply find_after_mark_None with s; [exact Hfind| |exact Hrest];
       apply terminal_not_active'; now left ]).
Qed.


Lemma statusCoordinator_run w args config sessions :
  let sessionsPath := join3 (project_root config) ".overstory" "sessions.json" in
  loadConfig_outcome (env w) = inr config ->
  Coordinator.loadSessions sessionsPath w = (Return sessions, w) ->
  Coordinator.statusCoordinator args w =
    match Coordinator.findCoordinatorSession sessions with
    | None => (Return tt, with_stdout (OutNotRunning (includes args "--json")) w)
    | Some (i, s) =>
        if sessionAlive w (tmuxSession s)
        then (Return tt,
              with_stdout
                (OutStatus (includes args "--json") true (s_id s) (state s)
                   (tmuxSession s) (pid s) (startedAt s) (lastActivity s)) w)
        else
          let marked := set_lastActivity (now_iso (env w)) (set_state zombie s) in
          let content :=
            JSON_stringify (<[i := marked]> sessions) +:+ String "010" "" in
          if fs_readonly w then (Throw (RuntimeError "EROFS: write"), w)
          else (Return tt,
                with_stdout
                  (OutStatus (includes args "--json") false (s_id s) zombie
                     (tmuxSession s) (pid s) (startedAt s) (now_iso (env w)))
                  (with_files (<[sessionsPath := content]> (files w))
                     [OpWrite sessionsPath content] w))
    end.
Proof.
  intros sessionsPath Hcfg Hload.
  unfold Coordinator.statusCoordinator, bind at 1 2, loadConfig.
  rewrite Hcfg. fold sessionsPath. rewrite Hload.
  destruct (Coordinator.findCoordinatorSession sessions) as [[i s]|] eqn:Hfind;
    [|reflexivity].
  apply found_active in Hfind as [_ (_ & _ & Hc & Hz)].
  unfold bind, isSessionAlive, toISOString, Coordinator.saveSessions,
    Bun_write, write_stdout, ret.
  rewrite (bool_decide_eq_true_2 _ Hc), (bool_decide_eq_true_2 _ Hz).
  destruct (sessionAlive w (tmuxSession s)); simpl; [reflexivity|].
  destruct (fs_readonly w); reflexivity.
Qed.

(** X4: The status of the coordinator: without an active record it reports
    "not running"; with one whose multiplexer session is alive it reports the
    record as it is and touches no file; with one whose session is dead it
    reports a zombie, and has written the record back as zombie with the time
    of the check. *)
Theorem statusCoordinator_cases (w : World) (args : list string)
    (config : Config) (sessions : list AgentSession) :
  let sessionsPath := join3 (project_root config) ".overstory" "sessions.json" in
  loadConfig_outcome (env w) = inr config ->
  Coordinator.loadSessions sessionsPath w = (Return sessions, w) ->
  (Coordinator.findCoordinatorSession sessions = None ->
   Coordinator.statusCoordinator args w
   = (Return tt, with_stdout (OutNotRunning (includes args "--json")) w))
  /\
  (forall i s,
     Coordinator.findCoordinatorSession sessions = Some (i, s) ->
     sessionAlive w (tmuxSession s) = true ->
     Coordinator.statusCoordinator args w
     = (Return tt,
        with_stdout
          (OutStatus (includes args "--json") true (s_id s) (state s)
             (tmuxSession s) (pid s) (startedAt s) (lastActivity s)) w))
  /\
  (forall i s,
     Coordinator.findCoordinatorSession sessions = Some (i, s) ->
     sessionAlive w (tmuxSession s) = false ->
     fs_readonly w = false ->
     exists w',
       Coordinator.statusCoordinator args w = (Return tt, w') /\
       files w' =
         <[sessionsPath :=
             JSON_stringify
               (<[i := set_lastActivity (now_iso (env w)) (set_state zombie s)]>
                  sessions) +:+ String "010" ""]> (files w) /\
       tmux w' = tmux w /\
       stdout w' = stdout w ++
         [OutStatus (includes args "--json") false (s_id s) zombie
            (tmuxSession s) (pid s) (startedAt s) (now_iso (env w))]).
Proof.
  intros sessionsPath Hcfg Hload.
  pose proof (statusCoordinator_run w args config sessions Hcfg Hload) as Hrun.
  cbv zeta in Hrun. split; [|split].
  - intros Hf. now rewrite Hrun, Hf.
  - intros i s Hf Ha. now rewrite Hrun, Hf, Ha.
  - intros i s Hf Ha Hrw. rewrite Hrun, Hf, Ha, Hrw.
    eexists. split; [reflexivity|]. repeat split.
Qed.

(** X5: A zombie is final: after a status check has found the coordinator's
    session dead, the next check reports that no coordinator is running, and
    writes nothing. *)
Theorem statusCoordinator_twice (w : World) (args args' : list string)
    (config : Config) (sessions : list AgentSession) (i : nat)
    (s : AgentSession) :
  let sessionsPath := join3 (project_root config) ".overstory" "sessions.json" in
  let marked := set_lastActivity (now_iso (env w)) (set_state zombie s) in
  let sessions' := <[i := marked]> sessions in
  loadConfig_outcome (env w) = inr config ->
  Coordinator.loadSessions sessionsPath w = (Return sessions, w) ->
  Coordinator.findCoordinatorSession sessions = Some (i, s) ->
  Forall (fun x => ~ Coordinator.isActiveCoordinator x) (drop (S i) sessions) ->
  sessionAlive w (tmuxSession s) = false ->
  fs_readonly w = false ->
  JSON_parse (JSON_stringify sessions' +:+ String "010" "") = Some sessions' ->
  exists w',
    Coordinator.statusCoordinator args w = (Return tt, w') /\
    Coordinator.statusCoordinator args' w'
    = (Return tt, with_stdout (OutNotRunning (includes args' "--json")) w').
Proof.
  intros sessionsPath marked sessions' Hcfg Hload Hfind Hrest Ha Hrw Hrt.
  pose proof (statusCoordinator_run w args config sessions Hcfg Hload) as Hrun.
  cbv zeta in Hrun. rewrite Hfind, Ha, Hrw in Hrun.
  eexists. split; [exact Hrun|].
  rewrite (statusCoordinator_run _ args' config sessions').
  - assert (Hnone : Coordinator.findCoordinatorSession sessions' = None).
    { apply find_after_mark_None with s; [exact Hfind| |exact Hrest].
      apply terminal_not_active'. now right. }
    now rewrite Hnone.
  - exact Hcfg.
  - eapply loadSessions_after_write; [exact Hrt|reflexivity].
Qed.


Lemma loadSessions_lookup w w' path sessions :
  files w' !! path = files w !! path ->
  Coordinator.loadSessions path w = (Return sessions, w) ->
  Coordinator.loadSessions path w' = (Return sessions, w').
Proof.
  intros Hf Hload.
  destruct (files w !! path) as [text|] eqn:E.
  - destruct (JSON_parse text) as [ss|] eqn:P.
    + rewrite (loadSessions_parsed w path text ss E P) in Hload.
      injection Hload as <-. apply loadSessions_parsed with text; congruence.
    + rewrite (loadSessions_corrupt w path text E P) in Hload.
      injection Hload as <-. apply loadSessions_corrupt with text; congruence.
  - rewrite (loadSessions_missing w path E) in Hload.
    injection Hload as <-. apply loadSessions_missing; congruence.
Qed.

(** With no active coordinator on record there is nothing to write back. *)
Lemma nothing_to_heal w sessionsPath sessions :
  Coordinator.findCoordinatorSession sessions = None ->
  (match Coordinator.findCoordinatorSession sessions with
   | Some (i, existing) =>
       alive ←← isSessionAlive (tmuxSession existing) ;
       if alive then throw (Coordinator.alreadyRunning existing)
       else
         let sessions' := <[i := set_state completed existing]> sessions in
         Coordinator.saveSessions sessionsPath sessions' ;;;
         ret sessions'
   | None => ret sessions
   end) w = (Return sessions, w).
Proof. intros ->. reflexivity. Qed.



Lemma find_app_fresh sessions x :
  Coordinator.findCoordinatorSession sessions = None ->
  Coordinator.isActiveCoordinator x ->
  Coordinator.findCoordinatorSession (sessions ++ [x])
  = Some (List.length sessions, x).
Proof.
  unfold Coordinator.findCoordinatorSession. intros Hnone Hx.
  apply list_find_Some. split; [|split].
  - now rewrite lookup_app_r, Nat.sub_diag by lia.
  - exact Hx.
  - intros j y Hj Hlt. rewrite lookup_app_l in Hj by exact Hlt.
    rewrite list_find_None, Forall_forall in Hnone.
    apply Hnone. apply list_elem_of_lookup. eauto.
Qed.

Lemma startCoordinator_alive_run w args config sessions i existing :
  let sessionsPath := join3 (project_root config) ".overstory" "sessions.json" in
  loadConfig_outcome (env w) = inr config ->
  Coordinator.loadSessions sessionsPath w = (Return sessions, w) ->
  Coordinator.findCoordinatorSession sessions = Some (i, existing) ->
  sessionAlive w (tmuxSession existing) = true ->
  Coordinator.startCoordinator args w
  = (Throw (Coordinator.alreadyRunning existing), w).
Proof.
  intros sessionsPath Hcfg Hload Hfind Halive.
  unfold Coordinator.startCoordinator, bind at 1 2 3, loadConfig.
  rewrite Hcfg. fold sessionsPath. rewrite Hload.
  unfold bind at 1 2. rewrite Hfind.
  unfold bind at 1, isSessionAlive. rewrite Halive. reflexivity.
Qed.

(** X8: Starting twice: the second start finds the record of the first and
    its session alive; it fails with the tagged error and changes nothing. *)
Theorem startCoordinator_twice (w : World) (args args' : list string)
    (config : Config) (sessions : list AgentSession) (p : N) :
  let sessionsPath := join3 (project_root config) ".overstory" "sessions.json" in
  let fresh :=
    Coordinator.newCoordinatorSession config p (now_ms (env w))
      (now_iso (env w)) (now_iso (env w)) in
  loadConfig_outcome (env w) = inr config ->
  Coordinator.loadSessions sessionsPath w = (Return sessions, w) ->
  Coordinator.findCoordinatorSession sessions = None ->
  deployHooks_outcome (env w) = None ->
  identity_outcome (env w) = None ->
  createSession_outcome (env w) = inr p ->
  sendKeys_outcome (env w) = None ->
  fs_readonly w = false ->
  JSON_parse (JSON_stringify (sessions ++ [fresh]) +:+ String "010" "")
    = Some (sessions ++ [fresh]) ->
  exists w',
    Coordinator.startCoordinator args w = (Return tt, w') /\
    Coordinator.startCoordinator args' w'
    = (Throw (Coordinator.alreadyRunning fresh), w') /\
    exn_agentName (Coordinator.alreadyRunning fresh) = Some "coordinator".
Proof.
  intros sessionsPath fresh Hcfg Hload Hfind Hdeploy Hident Hspawn Hkeys Hrw Hrt.
  pose proof (startCoordinator_launch w args config sessions sessions w
                Hcfg Hload (nothing_to_heal _ _ _ Hfind) eq_refl Hrw) as Hrun.
  cbv zeta in Hrun. rewrite Hdeploy, Hident, Hspawn, Hkeys in Hrun.
  assert (Hfresh : Coordinator.isActiveCoordinator fresh)
    by (repeat split; discriminate).
  pose proof (find_app_fresh sessions fresh Hfind Hfresh) as Hfind'.
  destruct (Coordinator.resolveAttach args (isTTY (env w)));
    (eexists; split; [exact Hrun|]; split; [|reflexivity];
     apply startCoordinator_alive_run with config (sessions ++ [fresh])
                                           (List.length sessions);
     [ exact Hcfg
     | eapply loadSessions_after_write; [exact Hrt|reflexivity]
     | exact Hfind'
     | eapply created_alive; reflexivity ]).
Qed.

(** X9: What was saved is what is loaded, when the runtime's JSON reads back
    what it wrote; the other files are as they were. *)
Theorem saveSessions_then_loadSessions (w : World) (path : string)
    (sessions : list AgentSession) :
  fs_readonly w = false ->
  JSON_parse (JSON_stringify sessions +:+ String "010" "") = Some sessions ->
  exists w',
    Coordinator.saveSessions path sessions w = (Return tt, w') /\
    Coordinator.loadSessions path w' = (Return sessions, w') /\
    (forall p, p <> path -> files w' !! p = files w !! p).
Proof.
  intros Hrw Hrt. eexists. split; [now apply saveSessions_writable|].
  split.
  - eapply loadSessions_after_write; [exact Hrt|reflexivity].
  - intros p Hp. simpl. now apply lookup_insert_ne.
Qed.

(** X10: The command line of the coordinator: asking for help anywhere, or
    giving no argument, prints the usage and does nothing else, whatever the
    subcommand; an unknown subcommand is refused with a validation error that
    names it, before anything is read; start, stop and status run on the
    arguments after the subcommand. *)
Theorem coordinatorCommand_dispatch (args : list string) :
  (args = [] \/ "--help" ∈ args \/ "-h" ∈ args ->
   forall w, Coordinator.coordinatorCommand args w
             = (Return tt, with_stdout OutHelp w))
  /\
  (forall subcommand subArgs,
     args = subcommand :: subArgs -> "--help" ∉ args -> "-h" ∉ args ->
     (subcommand = "start" ->
      Coordinator.coordinatorCommand args = Coordinator.startCoordinator subArgs)
     /\
     (subcommand = "stop" ->
      Coordinator.coordinatorCommand args = Coordinator.stopCoordinator subArgs)
     /\
     (subcommand = "status" ->
      Coordinator.coordinatorCommand args = Coordinator.statusCoordinator subArgs)
     /\
     (subcommand ∉ ["start"; "stop"; "status"] ->
      forall w,
        Coordinator.coordinatorCommand args w
        = (Throw (Tagged (ValidationError
                    ("Unknown coordinator subcommand: " +:+ subcommand +:+
                     ". Run 'overstory coordinator --help' for usage.")
                    "subcommand" subcommand)), w))).
Proof.
  unfold Coordinator.coordinatorCommand, includes. split.
  - intros Hhelp w.
    destruct Hhelp as [-> | [Hh | Hh]]; [reflexivity| |].
    + now rewrite (bool_decide_eq_true_2 _ Hh).
    + rewrite (bool_decide_eq_true_2 _ Hh). now rewrite orb_true_r.
  - intros subcommand subArgs -> Hh1 Hh2.
    rewrite (bool_decide_eq_false_2 _ Hh1), (bool_decide_eq_false_2 _ Hh2).
    simpl. repeat split.
    + now intros ->.
    + now intros ->.
    + now intros ->.
    + intros Hsub w.
      destruct (String.eqb_spec subcommand "start") as [->|_]; [set_solver|].
      destruct (String.eqb_spec subcommand "stop") as [->|_]; [set_solver|].
      destruct (String.eqb_spec subcommand "status") as [->|_]; [set_solver|].
      reflexivity.
Qed.


(** X11: A stopped coordinator can be started again: the start finds no
    active record, and the registry then holds the completed record and, at
    the end, the new booting one. *)
Theorem startCoordinator_after_stop (w : World) (args args' : list string)
    (config : Config) (sessions : list AgentSession) (i : nat)
    (s : AgentSession) (p : N) :
  let sessionsPath := join3 (project_root config) ".overstory" "sessions.json" in
  let stopped := set_lastActivity (now_iso (env w)) (set_state completed s) in
  let sessions' := <[i := stopped]> sessions in
  let fresh :=
    Coordinator.newCoordinatorSession config p (now_ms (env w))
      (now_iso (env w)) (now_iso (env w)) in
  loadConfig_outcome (env w) = inr config ->
  Coordinator.loadSessions sessionsPath w = (Return sessions, w) ->
  Coordinator.findCoordinatorSession sessions = Some (i, s) ->
  Forall (fun x => ~ Coordinator.isActiveCoordinator x) (drop (S i) sessions) ->
  deployHooks_outcome (env w) = None ->
  identity_outcome (env w) = None ->
  createSession_outcome (env w) = inr p ->
  sendKeys_outcome (env w) = None ->
  fs_readonly w = false ->
  JSON_parse (JSON_stringify sessions' +:+ String "010" "") = Some sessions' ->
  exists w1 w2,
    Coordinator.stopCoordinator args w = (Return tt, w1) /\
    Coordinator.startCoordinator args' w1 = (Return tt, w2) /\
    files w2 !! sessionsPath
    = Some (JSON_stringify (sessions' ++ [fresh]) +:+ String "010" "") /\
    sessions' !! i = Some stopped /\
    state stopped = completed /\ state fresh = booting /\
    sessionAlive w2 (tmuxSession fresh) = true.
Proof.
  intros sessionsPath stopped sessions' fresh Hcfg Hload Hfind Hrest Hdeploy
    Hident Hspawn Hkeys Hrw Hrt.
  pose proof (found_active _ _ _ Hfind) as [Hi _].
  pose proof (stopCoordinator_run w args config sessions i s Hcfg Hload Hfind)
    as Hstop.
  cbv zeta in Hstop. rewrite Hrw in Hstop.
  assert (Hnone : Coordinator.findCoordinatorSession sessions' = None).
  { apply find_after_mark_None with s; [exact Hfind| |exact Hrest].
    apply terminal_not_active'. now left. }
  destruct (sessionAlive w (tmuxSession s));
    (eexists; eexists; split; [exact Hstop|];
     match goal with
     | |- Coordinator.startCoordinator _ ?w1 = _ /\ _ =>
         pose proof (startCoordinator_launch w1 args' config sessions' sessions'
                       w1 Hcfg
                       (loadSessions_after_write w1 sessionsPath _ sessions'
                          (files w) Hrt eq_refl)
                       (nothing_to_heal _ _ _ Hnone) eq_refl Hrw) as Hstart
     end;
     cbv zeta in Hstart; simpl env in Hstart;
     rewrite Hdeploy, Hident, Hspawn, Hkeys in Hstart;
     split; [exact Hstart|];
     split; [destruct (Coordinator.resolveAttach args' _); simpl;
             apply lookup_insert_eq|];
     split; [apply list_lookup_insert_eq; eauto using lookup_lt_Some|];
     split; [reflexivity|]; split; [reflexivity|];
     destruct (Coordinator.resolveAttach args' _);
       eapply created_alive; reflexivity).
Qed.

End Lifecycle.

Lemma stopCoordinator_active_witness :
  exists w',
    @Coordinator.stopCoordinator SessionCodec.codec ["--json"] Samples.running
    = (Return tt, w') /\
    sessionAlive w' "overstory-coordinator" = false /\
    stdout w' = [OutStopped true "session-1"].
Proof.
  destruct (@stopCoordinator_active SessionCodec.codec Samples.running ["--json"]
              Samples.config [Samples.coordinatorSession "session-1" working]
              0 (Samples.coordinatorSession "session-1" working)
              eq_refl ltac:(vm_compute; reflexivity)
              ltac:(vm_compute; reflexivity) eq_refl)
    as (w' & Hrun & _ & _ & _ & _ & Hdead & _ & Hout).
  exists w'. split; [exact Hrun|]. split; [exact Hdead|exact Hout].
Defined.

Lemma stopCoordinator_unwritable_witness :
  exists x w',
    @Coordinator.stopCoordinator SessionCodec.codec []
      (Samples.world
         (Samples.registryOf [Samples.coordinatorSession "session-1" working])
         [("overstory-coordinator", 99999%N)] true)
    = (Throw x, w') /\
    sessionAlive w' "overstory-coordinator" = false /\
    @Coordinator.findCoordinatorSession
      [Samples.coordinatorSession "session-1" working]
    = Some (0, Samples.coordinatorSession "session-1" working).
Proof.
  destruct (@stopCoordinator_unwritable SessionCodec.codec
              (Samples.world
                 (Samples.registryOf
                    [Samples.coordinatorSession "session-1" working])
                 [("overstory-coordinator", 99999%N)] true)
              [] Samples.config
              [Samples.coordinatorSession "session-1" working]
              0 (Samples.coordinatorSession "session-1" working)
              eq_refl ltac:(vm_compute; reflexivity)
              ltac:(vm_compute; reflexivity) eq_refl)
    as (x & w' & Hrun & _ & Hdead & _).
  exists x, w'. split; [exact Hrun|]. split; [exact Hdead|].
  vm_compute. reflexivity.
Defined.

Lemma stopCoordinator_twice_witness :
  exists w',
    @Coordinator.stopCoordinator SessionCodec.codec [] Samples.running
    = (Return tt, w') /\
    @Coordinator.stopCoordinator SessionCodec.codec ["--json"] w'
    = (Throw Coordinator.noActiveSession, w').
Proof.
  apply (@stopCoordinator_twice SessionCodec.codec Samples.running [] ["--json"]
           Samples.config [Samples.coordinatorSession "session-1" working]
           0 (Samples.coordinatorSession "session-1" working)).
  - reflexivity.
  - vm_compute. reflexivity.
  - vm_compute. reflexivity.
  - constructor.
  - reflexivity.
  - vm_compute. reflexivity.
Defined.

Lemma statusCoordinator_cases_witness :
  @Coordinator.statusCoordinator SessionCodec.codec ["--json"]
    (Samples.world None [] false)
  = (Return tt, with_stdout (OutNotRunning true) (Samples.world None [] false))
  /\
  @Coordinator.statusCoordinator SessionCodec.codec [] Samples.running
  = (Return tt,
     with_stdout
       (OutStatus false true "session-1" working "overstory-coordinator"
          99999%N "2026-01-01T00:00:00.000Z" "2026-01-01T00:00:00.000Z")
       Samples.running)
  /\
  exists w',
    @Coordinator.statusCoordinator SessionCodec.codec [] Samples.crashed
    = (Return tt, w') /\
    stdout w'
    = [OutStatus false false "session-1" zombie "overstory-coordinator"
         99999%N "2026-01-01T00:00:00.000Z" "2026-01-02T03:04:05.000Z"].
Proof.
  split; [|split].
  - apply (proj1 (@statusCoordinator_cases SessionCodec.codec
                    (Samples.world None [] false) ["--json"] Samples.config []
                    eq_refl ltac:(vm_compute; reflexivity))).
    reflexivity.
  - apply (proj1 (proj2 (@statusCoordinator_cases SessionCodec.codec
                           Samples.running [] Samples.config
                           [Samples.coordinatorSession "session-1" working]
                           eq_refl ltac:(vm_compute; reflexivity)))
             0 (Samples.coordinatorSession "session-1" working));
      vm_compute; reflexivity.
  - destruct (proj2 (proj2 (@statusCoordinator_cases SessionCodec.codec
                              Samples.crashed [] Samples.config
                              [Samples.coordinatorSession "session-1" working]
                              eq_refl ltac:(vm_compute; reflexivity)))
                0 (Samples.coordinatorSession "session-1" working)
                ltac:(vm_compute; reflexivity) eq_refl eq_refl)
      as (w' & Hrun & _ & _ & Hout).
    exists w'. split; [exact Hrun|exact Hout].
Defined.

Lemma statusCoordinator_twice_witness :
  exists w',
    @Coordinator.statusCoordinator SessionCodec.codec [] Samples.crashed
    = (Return tt, w') /\
    @Coordinator.statusCoordinator SessionCodec.codec ["--json"] w'
    = (Return tt, with_stdout (OutNotRunning true) w').
Proof.
  apply (@statusCoordinator_twice SessionCodec.codec Samples.crashed [] ["--json"]
           Samples.config [Samples.coordinatorSession "session-1" working]
           0 (Samples.coordinatorSession "session-1" working)).
  - reflexivity.
  - vm_compute. reflexivity.
  - vm_compute. reflexivity.
  - constructor.
  - reflexivity.
  - reflexivity.
  - vm_compute. reflexivity.
Defined.



Lemma startCoordinator_twice_witness :
  exists w',
    @Coordinator.startCoordinator SessionCodec.codec ["--no-attach"]
      (Samples.world None [] false)
    = (Return tt, w') /\
    exists x,
      @Coordinator.startCoordinator SessionCodec.codec ["--no-attach"] w'
      = (Throw x, w') /\
      exn_agentName x = Some "coordinator".
Proof.
  destruct (@startCoordinator_twice SessionCodec.codec
              (Samples.world None [] false) ["--no-attach"] ["--no-attach"]
              Samples.config [] 99999%N
              eq_refl ltac:(vm_compute; reflexivity) eq_refl eq_refl eq_refl
              eq_refl eq_refl eq_refl ltac:(vm_compute; reflexivity))
    as (w' & Hfirst & Hsecond & Hname).
  exists w'. split; [exact Hfirst|]. eexists. split; [exact Hsecond|exact Hname].
Defined.

Lemma startCoordinator_after_stop_witness :
  exists w1 w2,
    @Coordinator.stopCoordinator SessionCodec.codec [] Samples.running
    = (Return tt, w1) /\
    @Coordinator.startCoordinator SessionCodec.codec ["--no-attach"] w1
    = (Return tt, w2) /\
    sessionAlive w2 "overstory-coordinator" = true.
Proof.
  destruct (@startCoordinator_after_stop SessionCodec.codec Samples.running []
              ["--no-attach"] Samples.config
              [Samples.coordinatorSession "session-1" working]
              0 (Samples.coordinatorSession "session-1" working) 99999%N
              eq_refl ltac:(vm_compute; reflexivity)
              ltac:(vm_compute; reflexivity) ltac:(constructor)
              eq_refl eq_refl eq_refl eq_refl eq_refl
              ltac:(vm_compute; reflexivity))
    as (w1 & w2 & Hstop & Hstart & _ & _ & _ & _ & Halive).
  exists w1, w2. split; [exact Hstop|]. split; [exact Hstart|exact Halive].
Defined.

Lemma coordinatorCommand_dispatch_witness :
  @Coordinator.coordinatorCommand SessionCodec.codec ["start"; "--help"]
    Samples.running
  = (Return tt, with_stdout OutHelp Samples.running) /\
  @Coordinator.coordinatorCommand SessionCodec.codec ["restart"; "--json"]
    Samples.running
  = (Throw (Tagged (ValidationError
              "Unknown coordinator subcommand: restart. Run 'overstory coordinator --help' for usage."
              "subcommand" "restart")), Samples.running).
Proof.
  split.
  - apply (proj1 (@coordinatorCommand_dispatch SessionCodec.codec
                    ["start"; "--help"])).
    right. left. set_solver.
  - apply (proj2 (proj2 (proj2
             (proj2 (@coordinatorCommand_dispatch SessionCodec.codec
                       ["restart"; "--json"])
                "restart" ["--json"] eq_refl
                ltac:(apply (bool_decide_eq_false_1 _); vm_compute; reflexivity)
                ltac:(apply (bool_decide_eq_false_1 _); vm_compute;
                      reflexivity))))).
    apply (bool_decide_eq_false_1 _). vm_compute. reflexivity.
Defined.

Lemma saveSessions_then_loadSessions_witness :
  exists w',
    @Coordinator.saveSessions SessionCodec.codec Samples.sessionsPath
      [Samples.coordinatorSession "session-1" booting;
       Samples.coordinatorSession "session-0" zombie]
      (Samples.world (Some "not valid json") [] false)
    = (Return tt, w') /\
    @Coordinator.loadSessions SessionCodec.codec Samples.sessionsPath w'
    = (Return [Samples.coordinatorSession "session-1" booting;
               Samples.coordinatorSession "session-0" zombie], w').
Proof.
  destruct (@saveSessions_then_loadSessions SessionCodec.codec
              (Samples.world (Some "not valid json") [] false)
              Samples.sessionsPath
              [Samples.coordinatorSession "session-1" booting;
               Samples.coordinatorSession "session-0" zombie]
              eq_refl ltac:(vm_compute; reflexivity))
    as (w' & Hsave & Hload & _).
  exists w'. split; [exact Hsave|exact Hload].
Defined.

(** ** The status command (src/commands/status.ts) *)

Lemma list_find_first (flag : string) pre rest :
  flag ∉ pre ->
  list_find (eq flag) (pre ++ flag :: rest) = Some (List.length pre, flag).
Proof.
  intros Hpre. apply list_find_Some. split; [|split].
  - now rewrite lookup_app_r, Nat.sub_diag by lia.
  - reflexivity.
  - intros j y Hj Hlt Hy. subst y. rewrite lookup_app_l in Hj by exact Hlt.
    apply Hpre. apply list_elem_of_lookup. eauto.
Qed.

(** X12: [getFlag] reads the value after the first occurrence of the flag,
    and only that one: nothing when the flag is absent or stands last; the
    next argument otherwise, whatever it is. *)
Theorem getFlag_first_occurrence (args : list string) (flag : string) :
  (flag ∉ args -> Status.getFlag args flag = None) /\
  (forall pre, flag ∉ pre -> args = pre ++ [flag] ->
               Status.getFlag args flag = None) /\
  (forall pre v post, flag ∉ pre -> args = pre ++ flag :: v :: post ->
                      Status.getFlag args flag = Some v) /\
  (forall v, Status.getFlag args flag = Some v ->
             exists pre post,
               (flag ∉ pre) /\ args = pre ++ flag :: v :: post).
Proof.
  unfold Status.getFlag. split; [|split; [|split]].
  - intros Hn.
    destruct (list_find (eq flag) args) as [[i x]|] eqn:E; [|reflexivity].
    apply list_find_Some in E as (Hi & <- & _).
    exfalso. apply Hn. apply list_elem_of_lookup. eauto.
  - intros pre Hpre ->. rewrite (list_find_first flag pre [] Hpre).
    rewrite bool_decide_eq_true_2; [reflexivity|].
    rewrite length_app. simpl. lia.
  - intros pre v post Hpre ->. rewrite (list_find_first flag pre _ Hpre).
    rewrite bool_decide_eq_false_2 by (rewrite length_app; simpl; lia).
    rewrite lookup_app_r by lia.
    replace (List.length pre + 1 - List.length pre) with 1 by lia.
    reflexivity.
  - intros v Hv.
    destruct (list_find (eq flag) args) as [[i x]|] eqn:E; [|discriminate].
    apply list_find_Some in E as (Hi & <- & Hbefore).
    case_bool_decide; [discriminate|].
    exists (take i args), (drop (S (S i)) args). split.
    + intros Hin. apply list_elem_of_lookup in Hin as [j Hj].
      pose proof (lookup_lt_Some _ _ _ Hj) as Hlt. rewrite length_take in Hlt.
      rewrite lookup_take_lt in Hj by lia.
      apply (Hbefore j flag Hj); [lia|reflexivity].
    + rewrite <- (take_drop i args) at 1. f_equal.
      rewrite (drop_S _ _ _ Hi). f_equal.
      replace (i + 1) with (S i) in Hv by lia.
      now rewrite (drop_S _ _ _ Hv).
Qed.

Lemma getFlag_first_occurrence_witness :
  Status.getFlag ["--json"; "--agent"] "--agent" = None /\
  Status.getFlag ["--agent"; "--agent"; "x"] "--agent" = Some "--agent".
Proof.
  split.
  - apply (proj1 (proj2 (getFlag_first_occurrence _ "--agent")) ["--json"]);
      [|reflexivity].
    apply (bool_decide_eq_false_1 _). vm_compute. reflexivity.
  - apply (proj1 (proj2 (proj2 (getFlag_first_occurrence _ "--agent")))
             [] "--agent" ["x"]); [|reflexivity].
    apply not_elem_of_nil.
Defined.

(** X13: For a whole number of milliseconds below 2^53 in absolute value,
    where the doubles of the program are exact and where every difference of
    two timestamps lies, durations are printed in the two largest units that
    apply: seconds alone below a minute (also for a negative difference),
    minutes and seconds below an hour, hours and minutes from there on, the
    seconds being dropped. *)
Theorem formatDuration_units (ms : Z) :
  (- 2 ^ 53 < ms < 2 ^ 53)%Z ->
  ((ms < 60000)%Z ->
   Status.formatDuration ms = pretty (ms / 1000)%Z +:+ "s") /\
  ((60000 <= ms < 3600000)%Z ->
   Status.formatDuration ms
   = pretty (ms / 60000)%Z +:+ "m " +:+ pretty ((ms / 1000) mod 60)%Z +:+ "s") /\
  ((3600000 <= ms)%Z ->
   Status.formatDuration ms
   = pretty (ms / 3600000)%Z +:+ "h " +:+ pretty ((ms / 60000) mod 60)%Z +:+ "m").
Proof.
  intros _. unfold Status.formatDuration.
  assert (Hmin : ((ms / 1000) / 60 = ms / 60000)%Z)
    by (rewrite Z.div_div by lia; reflexivity).
  assert (Hhour : ((ms / 1000) / 60 / 60 = ms / 3600000)%Z)
    by (rewrite !Z.div_div by lia; reflexivity).
  split; [|split].
  - intros Hlt.
    assert (ms / 1000 < 60)%Z by (apply Z.div_lt_upper_bound; lia).
    now rewrite (proj2 (Z.ltb_lt _ _)).
  - intros [Hlo Hhi].
    assert (60 <= ms / 1000)%Z by (apply Z.div_le_lower_bound; lia).
    assert (ms / 1000 / 60 < 60)%Z
      by (rewrite Hmin; apply Z.div_lt_upper_bound; lia).
    rewrite (proj2 (Z.ltb_ge _ _)) by lia.
    rewrite (proj2 (Z.ltb_lt _ _)) by lia.
    rewrite Z.rem_mod_nonneg by lia. now rewrite Hmin.
  - intros Hlo.
    assert (60 <= ms / 1000)%Z by (apply Z.div_le_lower_bound; lia).
    assert (60 <= ms / 1000 / 60)%Z
      by (rewrite Hmin; apply Z.div_le_lower_bound; lia).
    rewrite !(proj2 (Z.ltb_ge _ _)) by lia.
    rewrite Z.rem_mod_nonneg by lia. now rewrite Hhour, Hmin.
Qed.

Lemma formatDuration_units_witness :
  Status.formatDuration (-1500) = "-2s" /\
  Status.formatDuration 125000 = "2m 5s" /\
  Status.formatDuration 7559000 = "2h 5m".
Proof.
  split; [|split].
  - rewrite (proj1 (formatDuration_units (-1500) ltac:(split; reflexivity)))
      by lia.
    reflexivity.
  - rewrite (proj1 (proj2 (formatDuration_units 125000
                             ltac:(split; reflexivity)))) by lia.
    reflexivity.
  - rewrite (proj2 (proj2 (formatDuration_units 7559000
                             ltac:(split; reflexivity)))) by lia.
    reflexivity.
Defined.

Section Gather.
Context `{Json}.

Lemma reconcile_flag tmuxSessions sessions u :
  (Status.reconcile tmuxSessions sessions u).2
  = u || existsb (Status.lost tmuxSessions) sessions.
Proof.
  revert u. induction sessions as [|s ss IH]; intros u; simpl.
  - now rewrite orb_false_r.
  - unfold Status.lost at 1.
    destruct (bool_decide _); simpl;
      [destruct (existsb _ tmuxSessions); simpl|].
    + specialize (IH u). destruct (Status.reconcile tmuxSessions ss u).
      simpl in *. exact IH.
    + specialize (IH true). destruct (Status.reconcile tmuxSessions ss true).
      simpl in *. rewrite IH. now rewrite orb_true_r.
    + specialize (IH u). destruct (Status.reconcile tmuxSessions ss u).
      simpl in *. exact IH.
Qed.

Lemma reconcile_sessions tmuxSessions sessions u :
  (Status.reconcile tmuxSessions sessions u).1
  = map (fun s => if Status.lost tmuxSessions s then set_state zombie s else s)
      sessions.
Proof. apply reconcile_states. Qed.

Lemma lost_zombie tmuxSessions s :
  Status.lost tmuxSessions
    (if Status.lost tmuxSessions s then set_state zombie s else s) = false.
Proof.
  destruct (Status.lost tmuxSessions s) eqn:E; [|exact E].
  unfold Status.lost. reflexivity.
Qed.

Lemma not_lost_fixed tmuxSessions sessions :
  existsb (Status.lost tmuxSessions) sessions = false ->
  map (fun s => if Status.lost tmuxSessions s then set_state zombie s else s) sessions
  = sessions.
Proof.
  induction sessions as [|s ss IH]; [reflexivity|].
  simpl. intros E. apply orb_false_iff in E as [-> E]. now rewrite IH.
Qed.

(** X14: The reconciliation loop marks exactly the sessions that are booting,
    working or stalled and whose multiplexer session is not listed, leaves
    every other record as it is, raises its flag exactly when it marked one,
    and finds nothing more to mark on its own result. *)
Theorem reconcile_marks_lost (tmuxSessions : list (string * N))
    (sessions : list AgentSession) :
  let marked := (Status.reconcile tmuxSessions sessions false).1 in
  Forall2 (fun out s =>
             if bool_decide (state s = booting \/ state s = working \/
                             state s = stalled)
                && negb (bool_decide (tmuxSession s ∈ tmuxSessions.*1))
             then out = set_state zombie s else out = s)
          marked sessions /\
  ((Status.reconcile tmuxSessions sessions false).2 = true <->
   marked <> sessions) /\
  Status.reconcile tmuxSessions marked false = (marked, false).
Proof.
  intros marked. unfold marked.
  assert (Hlost : forall s,
    Status.lost tmuxSessions s
    = bool_decide (state s = booting \/ state s = working \/ state s = stalled)
      && negb (bool_decide (tmuxSession s ∈ tmuxSessions.*1))).
  { intros s. unfold Status.lost. f_equal. f_equal.
    apply eq_true_iff_eq. rewrite existsb_exists, bool_decide_eq_true.
    rewrite list_elem_of_fmap. split.
    - intros ([nm p] & Hin & E). apply String.eqb_eq in E. simpl in E.
      exists (nm, p). split; [now rewrite <- E|now apply list_elem_of_In].
    - intros ([nm p] & E & Hin). exists (nm, p).
      split; [now apply list_elem_of_In|]. apply String.eqb_eq. now rewrite E. }
  rewrite reconcile_sessions, reconcile_flag. simpl.
  split; [|split].
  - apply Forall2_fmap_l, Forall_Forall2_diag, Forall_forall.
    intros s _. unfold compose. rewrite <- Hlost.
    now destruct (Status.lost tmuxSessions s).
  - split.
    + intros E Heq. apply existsb_exists in E as (s & Hin & Hs).
      apply list_elem_of_In, list_elem_of_lookup in Hin as [i Hi].
      apply (f_equal (fun l => l !! i)) in Heq.
      rewrite list_lookup_fmap, Hi in Heq. simpl in Heq. rewrite Hs in Heq.
      injection Heq as Heq. apply (f_equal state) in Heq. simpl in Heq.
      unfold Status.lost in Hs. apply andb_true_iff in Hs as [Hs _].
      apply bool_decide_eq_true in Hs as [?|[?|?]]; congruence.
    + intros Hne. destruct (existsb (Status.lost tmuxSessions) sessions) eqn:E;
        [reflexivity|].
      exfalso. apply Hne. now apply not_lost_fixed.
  - apply injective_projections.
    + rewrite reconcile_sessions. simpl. rewrite map_map.
      apply map_ext. intros s. now rewrite lost_zombie.
    + rewrite reconcile_flag. simpl.
      apply not_true_is_false. intros E.
      apply existsb_exists in E as (s & Hin & Hs).
      apply in_map_iff in Hin as (s0 & <- & _).
      now rewrite lost_zombie in Hs.
Qed.


Lemma persistReconciled_run w root sessions :
  let sessionsPath := join3 root ".overstory" "sessions.json" in
  let tmpPath := sessionsPath +:+ ".tmp" in
  let content := JSON_stringify sessions +:+ String "010" "" in
  Status.persistReconciled root sessions w =
    (Return tt,
     if fs_readonly w then w
     else {| env := env w;
             files := <[sessionsPath := content]>
                        (delete tmpPath (<[tmpPath := content]> (files w)));
             fs_readonly := false;
             fs_ops := fs_ops w ++
                       [OpWrite tmpPath content; OpRename tmpPath sessionsPath];
             tmux := tmux w;
             stdout := stdout w |}).
Proof.
  intros sessionsPath tmpPath content.
  unfold Status.persistReconciled, try_catch, bind, Bun_write, rename.
  fold sessionsPath. fold tmpPath. fold content.
  destruct (fs_readonly w) eqn:Hrw; [reflexivity|].
  simpl. rewrite Hrw, lookup_insert_eq.
  unfold with_files. simpl. now rewrite Hrw, <- app_assoc.
Qed.

Lemma gatherStatus_run w root agentName verbose sessions wts :
  Coordinator.loadSessions (join3 root ".overstory" "sessions.json") w
    = (Return sessions, w) ->
  listWorktrees_outcome (env w) = inr wts ->
  let r := Status.reconcile (default [] (tmux w)) sessions false in
  Status.gatherStatus root agentName verbose w =
    (Return
       {| agents := r.1;
          worktrees := wts;
          tmuxSessions := default [] (tmux w);
          unreadMailCount :=
            from_option (fun m => unreadTo m agentName) 0 (mailStore (env w));
          mergeQueueCount := mergeQueuePending (env w);
          recentMetricsCount := recentMetrics (env w);
          verboseDetails :=
            if verbose && negb (bool_decide (List.length r.1 = 0))
            then Some (foldl (fun acc session =>
                                Status.assign (s_agentName session)
                                  (Status.verboseDetail root
                                     (mailStore (env w)) session) acc)
                             ∅ r.1)
            else None |},
     if r.2 then (Status.persistReconciled root r.1 w).2 else w).
Proof.
  intros Hload Hwts r.
  unfold Status.gatherStatus, bind at 1.
  change (Status.loadSessions root)
    with (Coordinator.loadSessions (join3 root ".overstory" "sessions.json")).
  rewrite Hload. unfold bind at 1. rewrite Hwts.
  unfold bind at 1, try_catch, listSessions. subst r.
  destruct (tmux w) as [l|] eqn:Ht; simpl default;
    (unfold ret at 1;
     destruct (Status.reconcile _ sessions false) as [marked updated] eqn:Er;
     simpl;
     destruct updated;
     [ unfold bind at 1; rewrite persistReconciled_run; cbv zeta;
       unfold bind, get_world, ret; destruct (fs_readonly w); reflexivity
     | reflexivity ]).
Qed.

Lemma alive_listed w nm :
  sessionAlive w nm
  = existsb (fun t => String.eqb t.1 nm) (default [] (tmux w)).
Proof.
  unfold sessionAlive. destruct (tmux w) as [l|]; [|reflexivity]. simpl.
  apply eq_true_iff_eq. rewrite existsb_exists, bool_decide_eq_true.
  rewrite list_elem_of_fmap. split.
  - intros ([n p] & E & Hin). exists (n, p).
    split; [now apply list_elem_of_In|]. apply String.eqb_eq. now rewrite E.
  - intros ([n p] & Hin & E). apply String.eqb_eq in E. simpl in E.
    exists (n, p). split; [now rewrite <- E|now apply list_elem_of_In].
Qed.

(** X15: When the registry loads as a collection of session records (a
    missing or unparsable one loads as the empty collection), gathering the
    status fails only with the listing of the worktrees, and then before
    anything was written. Otherwise it returns, with or without a multiplexer
    server, on a writable or an unwritable project; it prints nothing and
    touches no multiplexer session; and no agent it returns as booting,
    working or stalled lacks a live multiplexer session. *)
Theorem gatherStatus_returns (w : World) (root agentName : string)
    (verbose : bool) (sessions : list AgentSession) :
  Coordinator.loadSessions (join3 root ".overstory" "sessions.json") w
    = (Return sessions, w) ->
  match listWorktrees_outcome (env w) with
  | inl x => Status.gatherStatus root agentName verbose w = (Throw x, w)
  | inr wts =>
      exists data w',
        Status.gatherStatus root agentName verbose w = (Return data, w') /\
        worktrees data = wts /\
        tmuxSessions data = default [] (tmux w) /\
        tmux w' = tmux w /\ stdout w' = stdout w /\ env w' = env w /\
        Forall (fun s =>
                  state s = booting \/ state s = working \/ state s = stalled ->
                  sessionAlive w (tmuxSession s) = true)
               (agents data)
  end.
Proof.
  intros Hload.
  destruct (listWorktrees_outcome (env w)) as [x|wts] eqn:Hwts.
  - unfold Status.gatherStatus, bind at 1.
    change (Status.loadSessions root)
      with (Coordinator.loadSessions (join3 root ".overstory" "sessions.json")).
    rewrite Hload. unfold bind at 1. now rewrite Hwts.
  - rewrite (gatherStatus_run w root agentName verbose sessions wts Hload Hwts).
    eexists. eexists. split; [reflexivity|].
    split; [reflexivity|]. split; [reflexivity|].
    assert (Hw : forall A (f : World -> A),
              f (Status.persistReconciled root
                   (Status.reconcile (default [] (tmux w)) sessions false).1 w).2
              = f w ->
              f (if (Status.reconcile (default [] (tmux w)) sessions false).2
                 then (Status.persistReconciled root
                         (Status.reconcile (default [] (tmux w)) sessions
                            false).1 w).2
                 else w) = f w).
    { intros A f Hf. now destruct (Status.reconcile _ _ _).2. }
    split; [apply (Hw _ tmux); rewrite persistReconciled_run;
            now destruct (fs_readonly w)|].
    split; [apply (Hw _ stdout); rewrite persistReconciled_run;
            now destruct (fs_readonly w)|].
    split; [apply (Hw _ env); rewrite persistReconciled_run;
            now destruct (fs_readonly w)|].
    simpl. rewrite reconcile_sessions. apply Forall_forall.
    intros s Hin Hstate. apply list_elem_of_fmap in Hin as (s0 & -> & _).
    rewrite alive_listed.
    destruct (Status.lost (default [] (tmux w)) s0) eqn:El.
    + simpl in Hstate. destruct Hstate as [?|[?|?]]; discriminate.
    + unfold Status.lost in El. rewrite bool_decide_eq_true_2 in El by exact Hstate.
      simpl in El. now apply negb_false_iff in El.
Qed.


Lemma reconcile_again tmuxSessions sessions :
  Status.reconcile tmuxSessions
    (Status.reconcile tmuxSessions sessions false).1 false
  = ((Status.reconcile tmuxSessions sessions false).1, false).
Proof.
  apply injective_projections.
  - rewrite !reconcile_sessions. simpl. rewrite map_map.
    apply map_ext. intros s. now rewrite lost_zombie.
  - rewrite reconcile_flag, reconcile_sessions. simpl.
    apply not_true_is_false. intros E.
    apply existsb_exists in E as (s & Hin & Hs).
    apply in_map_iff in Hin as (s0 & <- & _).
    now rewrite lost_zombie in Hs.
Qed.

Lemma tmp_path_differs (p : string) : p +:+ ".tmp" <> p.
Proof.
  intros E. apply (f_equal String.length) in E.
  rewrite length_append in E. simpl in E. lia.
Qed.

(** X16: When every booting, working or stalled session on record has a live
    multiplexer session, gathering the status returns the records as they are
    and leaves the world as it found it: no file is written. *)
Theorem gatherStatus_nothing_lost (w : World) (root agentName : string)
    (verbose : bool) (sessions : list AgentSession)
    (wts : list (string * string * string)) :
  Coordinator.loadSessions (join3 root ".overstory" "sessions.json") w
    = (Return sessions, w) ->
  listWorktrees_outcome (env w) = inr wts ->
  Forall (fun s =>
            state s = booting \/ state s = working \/ state s = stalled ->
            sessionAlive w (tmuxSession s) = true) sessions ->
  exists data,
    Status.gatherStatus root agentName verbose w = (Return data, w) /\
    agents data = sessions.
Proof.
  intros Hload Hwts Hall.
  rewrite (gatherStatus_run w root agentName verbose sessions wts Hload Hwts).
  assert (Hnone : existsb (Status.lost (default [] (tmux w))) sessions = false).
  { apply not_true_is_false. intros E.
    apply existsb_exists in E as (s & Hin & Hs).
    rewrite Forall_forall in Hall.
    unfold Status.lost in Hs. apply andb_true_iff in Hs as [Hst Hdead].
    apply bool_decide_eq_true in Hst.
    apply list_elem_of_In in Hin.
    rewrite <- alive_listed, (Hall s Hin Hst) in Hdead. discriminate. }
  rewrite reconcile_flag, reconcile_sessions, Hnone.
  rewrite (not_lost_fixed _ _ Hnone). simpl.
  eexists. split; reflexivity.
Qed.

(** X17: When a session was marked and the project is writable, the registry
    afterwards holds the reconciled collection, put there by a rename of the
    temporary file, which is gone; and a second status read, the runtime's
    JSON reading back what it wrote, returns the same agents and writes
    nothing. *)
Theorem gatherStatus_persists (w : World) (root agentName agentName' : string)
    (verbose verbose' : bool) (sessions : list AgentSession)
    (wts : list (string * string * string)) :
  let sessionsPath := join3 root ".overstory" "sessions.json" in
  let tmpPath := sessionsPath +:+ ".tmp" in
  let marked := (Status.reconcile (default [] (tmux w)) sessions false).1 in
  let content := JSON_stringify marked +:+ String "010" "" in
  Coordinator.loadSessions sessionsPath w = (Return sessions, w) ->
  listWorktrees_outcome (env w) = inr wts ->
  marked <> sessions ->
  fs_readonly w = false ->
  JSON_parse content = Some marked ->
  exists data w',
    Status.gatherStatus root agentName verbose w = (Return data, w') /\
    agents data = marked /\
    files w' !! sessionsPath = Some content /\
    files w' !! tmpPath = None /\
    fs_ops w' = fs_ops w ++
                [OpWrite tmpPath content; OpRename tmpPath sessionsPath] /\
    exists data',
      Status.gatherStatus root agentName' verbose' w' = (Return data', w') /\
      agents data' = marked.
Proof.
  intros sessionsPath tmpPath marked content Hload Hwts Hne Hrw Hrt.
  rewrite (gatherStatus_run w root agentName verbose sessions wts Hload Hwts).
  assert (Hflag : (Status.reconcile (default [] (tmux w)) sessions false).2
                  = true).
  { rewrite reconcile_flag. simpl.
    destruct (existsb (Status.lost (default [] (tmux w))) sessions) eqn:E;
      [reflexivity|].
    exfalso. apply Hne. unfold marked. rewrite reconcile_sessions.
    now apply not_lost_fixed. }
  rewrite Hflag, persistReconciled_run. cbv zeta. rewrite Hrw.
  fold sessionsPath. fold tmpPath. fold marked. fold content.
  eexists. eexists. split; [reflexivity|]. split; [reflexivity|].
  split; [apply lookup_insert_eq|].
  split.
  { simpl. rewrite lookup_insert_ne by (symmetry; apply tmp_path_differs).
    apply lookup_delete_eq. }
  split; [reflexivity|].
  match goal with
  | |- exists d, Status.gatherStatus _ _ _ ?w1 = _ /\ _ =>
      assert (Hload' : Coordinator.loadSessions sessionsPath w1
                       = (Return marked, w1))
  end.
  { apply loadSessions_parsed with content; [apply lookup_insert_eq|exact Hrt]. }
  rewrite (gatherStatus_run _ root agentName' verbose' marked wts Hload' Hwts).
  simpl tmux. unfold marked. rewrite reconcile_again. simpl.
  eexists. split; reflexivity.
Qed.

Lemma foldl_assign_lookup {A V} (k : A -> string) (f : A -> V) l
    (m : gmap string V) name :
  foldl (fun acc x => Status.assign (k x) (f x) acc) m l !! name
  = if String.eqb name "__proto__" then m !! name
    else
      match last (filter (fun x => k x = name) l) with
      | Some x => Some (f x)
      | None => m !! name
      end.
Proof.
  revert m. induction l as [|x l IH]; intros m.
  - simpl. now destruct (String.eqb name "__proto__").
  - simpl. rewrite IH, filter_cons. unfold Status.assign.
    destruct (String.eqb_spec name "__proto__") as [Hn|Hn].
    + destruct (String.eqb_spec (k x) "__proto__") as [_|Hk]; [reflexivity|].
      apply lookup_insert_ne. congruence.
    + destruct (decide (k x = name)) as [E|E].
      * destruct (String.eqb_spec (k x) "__proto__") as [Hk|_]; [congruence|].
        destruct (filter _ l) as [|y l'] eqn:F.
        -- simpl. now rewrite E, lookup_insert_eq.
        -- change (last (x :: y :: l')) with (last (y :: l')).
           destruct (last (y :: l')) eqn:L; [reflexivity|].
           apply last_None in L. discriminate.
      * destruct (last (filter _ l)); [reflexivity|].
        destruct (String.eqb_spec (k x) "__proto__") as [_|_]; [reflexivity|].
        now apply lookup_insert_ne.
Qed.

(** X18: The verbose details are absent unless they were asked for and there
    is a session; otherwise the object has one entry for each agent name on
    record, and where two records share a name the entry is that of the
    later one.  The name [__proto__] is the exception: it names the prototype
    of the object and gets no entry.  The directory of the logs in an entry
    is the normalized join of the root, [.overstory], [logs] and the name. *)
Theorem gatherStatus_verboseDetails (w : World) (root agentName : string)
    (verbose : bool) (sessions : list AgentSession)
    (wts : list (string * string * string)) :
  Coordinator.loadSessions (join3 root ".overstory" "sessions.json") w
    = (Return sessions, w) ->
  listWorktrees_outcome (env w) = inr wts ->
  exists data w',
    Status.gatherStatus root agentName verbose w = (Return data, w') /\
    agents data
    = (Status.reconcile (default [] (tmux w)) sessions false).1 /\
    match verboseDetails data with
    | None => verbose = false \/ sessions = []
    | Some details =>
        verbose = true /\ sessions <> [] /\
        details !! "__proto__" = None /\
        forall name,
          name <> "__proto__" ->
          details !! name
          = Status.verboseDetail root (mailStore (env w)) <$>
              last (filter (fun s => s_agentName s = name) (agents data)) /\
          (vd_logsDir <$> details !! name
           = (fun _ => Path.join [root; ".overstory"; "logs"; name]) <$>
               last (filter (fun s => s_agentName s = name) (agents data)))
    end.
Proof.
  intros Hload Hwts.
  rewrite (gatherStatus_run w root agentName verbose sessions wts Hload Hwts).
  eexists. eexists. split; [reflexivity|]. cbn [agents verboseDetails].
  split; [reflexivity|].
  set (marked := (Status.reconcile (default [] (tmux w)) sessions false).1).
  assert (Hlen : List.length marked = List.length sessions)
    by (unfold marked; rewrite reconcile_sessions; apply length_map).
  destruct verbose; cbn [andb]; [|now left].
  destruct sessions as [|s ss].
  - rewrite bool_decide_eq_true_2 by (rewrite Hlen; reflexivity). now right.
  - rewrite bool_decide_eq_false_2 by (rewrite Hlen; discriminate).
    cbn [negb]. split; [reflexivity|]. split; [discriminate|].
    assert (Hlook : forall name,
      foldl (fun acc session =>
               Status.assign (s_agentName session)
                 (Status.verboseDetail root (mailStore (env w)) session) acc)
        ∅ marked !! name
      = if String.eqb name "__proto__" then None
        else Status.verboseDetail root (mailStore (env w)) <$>
               last (filter (fun x => s_agentName x = name) marked)).
    { intros name.
      rewrite (foldl_assign_lookup s_agentName
                 (Status.verboseDetail root (mailStore (env w))) _ ∅ name).
      destruct (String.eqb name "__proto__"); [apply lookup_empty|].
      destruct (last _); [reflexivity|apply lookup_empty]. }
    split; [exact (Hlook "__proto__")|].
    intros name Hname.
    assert (Hd := Hlook name).
    destruct (String.eqb_spec name "__proto__") as [E|_]; [contradiction|].
    split; [exact Hd|].
    rewrite Hd.
    destruct (last _) as [x|] eqn:L; [|reflexivity].
    apply last_Some_elem_of in L. apply list_elem_of_filter in L as [Hx _].
    cbn [fmap option_fmap option_map]. f_equal.
    unfold Status.verboseDetail. cbn [vd_logsDir]. now rewrite Hx.
Qed.

End Gather.

Lemma gatherStatus_returns_witness :
  exists data w',
    @Status.gatherStatus SessionCodec.codec "/repo" "orchestrator" false
      Samples.crashed
    = (Return data, w') /\
    tmux w' = Some [] /\ stdout w' = [].
Proof.
  pose proof (@gatherStatus_returns SessionCodec.codec Samples.crashed "/repo"
                "orchestrator" false
                [Samples.coordinatorSession "session-1" working]
                ltac:(vm_compute; reflexivity)) as Hr.
  cbn [listWorktrees_outcome env Samples.crashed Samples.world
       Samples.surroundings] in Hr.
  destruct Hr as (data & w' & Hrun & _ & _ & Ht & Hout & _).
  exists data, w'. split; [exact Hrun|]. split; [exact Ht|exact Hout].
Defined.

Lemma gatherStatus_nothing_lost_witness :
  exists data,
    @Status.gatherStatus SessionCodec.codec "/repo" "orchestrator" true Samples.running
    = (Return data, Samples.running) /\
    agents data = [Samples.coordinatorSession "session-1" working].
Proof.
  apply (@gatherStatus_nothing_lost SessionCodec.codec Samples.running "/repo"
           "orchestrator" true
           [Samples.coordinatorSession "session-1" working] []).
  - vm_compute. reflexivity.
  - reflexivity.
  - repeat constructor.
Defined.

Lemma gatherStatus_persists_witness :
  exists data w',
    @Status.gatherStatus SessionCodec.codec "/repo" "orchestrator" false Samples.crashed
    = (Return data, w') /\
    agents data = [Samples.coordinatorSession "session-1" zombie] /\
    files w' !! "/repo/.overstory/sessions.json.tmp" = None /\
    exists data',
      @Status.gatherStatus SessionCodec.codec "/repo" "orchestrator" true w'
      = (Return data', w') /\
      agents data' = [Samples.coordinatorSession "session-1" zombie].
Proof.
  destruct (@gatherStatus_persists SessionCodec.codec Samples.crashed "/repo"
              "orchestrator" "orchestrator" false true
              [Samples.coordinatorSession "session-1" working] []
              ltac:(vm_compute; reflexivity) eq_refl
              ltac:(vm_compute; discriminate) eq_refl
              ltac:(vm_compute; reflexivity))
    as (data & w' & Hrun & Hagents & _ & Htmp & _ & data' & Hrun' & Hagents').
  exists data, w'. split; [exact Hrun|]. split; [exact Hagents|].
  split; [exact Htmp|]. exists data'. split; [exact Hrun'|exact Hagents'].
Defined.

Lemma gatherStatus_verboseDetails_witness :
  exists data w' details,
    @Status.gatherStatus SessionCodec.codec "/repo" "orchestrator" true Samples.running
    = (Return data, w') /\
    verboseDetails data = Some details /\
    vd_logsDir <$> details !! "coordinator"
    = Some "/repo/.overstory/logs/coordinator".
Proof.
  destruct (@gatherStatus_verboseDetails SessionCodec.codec Samples.running "/repo"
              "orchestrator" true
              [Samples.coordinatorSession "session-1" working] []
              ltac:(vm_compute; reflexivity) eq_refl)
    as (data & w' & Hrun & Hagents & Hdetails).
  destruct (verboseDetails data) as [details|] eqn:Hsome;
    [|destruct Hdetails; discriminate].
  exists data, w', details. split; [exact Hrun|]. split; [exact Hsome|].
  destruct Hdetails as (_ & _ & _ & Hd).
  destruct (Hd "coordinator" ltac:(discriminate)) as [Hentry _].
  rewrite Hentry, Hagents.
  vm_compute. reflexivity.
Defined.

(** What [Number.parseInt] makes of some texts: white space, also beyond
    ASCII, and a sign may come first; what follows the digits is ignored. *)
Example parseInt10_examples :
  Status.parseInt10 (String "194" (String "160" "600")) = Some 600%Z /\
  Status.parseInt10 (String "009" " +750ms") = Some 750%Z /\
  Status.parseInt10 "-0" = Some 0%Z /\
  Status.parseInt10 "0x10" = Some 0%Z /\
  Status.parseInt10 "ms" = None /\
  Status.parseInt10 "- 5" = None.
Proof. repeat split. Qed.

(** X19: The status command checks its polling interval before it reads
    anything, and whether or not polling was asked for: an interval that is
    given, not empty, and is not a number or is below 500 is refused with a
    validation error that carries the text given; asking for help comes
    first; and with no interval, an empty one, or one of at least 500 the
    command goes on to load the configuration.  Whether the text is a number
    is what [Number.parseInt] makes of it. *)
Theorem statusCommand_interval `{Json} (args : list string) (rounds : nat)
    (w : World) :
  ("--help" ∈ args \/ "-h" ∈ args ->
   Status.statusCommand args rounds w = (Return [Status.PrintedHelp], w))
  /\
  (forall str,
     "--help" ∉ args -> "-h" ∉ args ->
     Status.getFlag args "--interval" = Some str -> str <> "" ->
     (forall n, Status.parseInt10 str = Some n -> (n < 500)%Z) ->
     Status.statusCommand args rounds w
     = (Throw (Tagged (ValidationError
                 "--interval must be a number >= 500 (milliseconds)"
                 "interval" str)), w))
  /\
  (forall x,
     "--help" ∉ args -> "-h" ∉ args ->
     (Status.getFlag args "--interval" = None \/
      Status.getFlag args "--interval" = Some "" \/
      exists str n, Status.getFlag args "--interval" = Some str /\
                    Status.parseInt10 str = Some n /\ (500 <= n)%Z) ->
     loadConfig_outcome (env w) = inl x ->
     Status.statusCommand args rounds w = (Throw x, w)).
Proof.
  unfold Status.statusCommand, includes. split; [|split].
  - intros [Hh|Hh]; rewrite (bool_decide_eq_true_2 _ Hh);
      [reflexivity|now rewrite orb_true_r].
  - intros str Hh1 Hh2 Hflag Hne Hbad.
    rewrite (bool_decide_eq_false_2 _ Hh1), (bool_decide_eq_false_2 _ Hh2).
    simpl orb. cbv iota. rewrite Hflag.
    destruct (String.eqb_spec str "") as [E|_]; [contradiction|].
    destruct (Status.parseInt10 str) as [n|]; [|reflexivity].
    specialize (Hbad n eq_refl). now rewrite (proj2 (Z.ltb_lt _ _) Hbad).
  - intros x Hh1 Hh2 Hok Hcfg.
    rewrite (bool_decide_eq_false_2 _ Hh1), (bool_decide_eq_false_2 _ Hh2).
    simpl orb. cbv iota.
    assert (Hgo : match
                    match Status.getFlag args "--interval" with
                    | Some str =>
                        if String.eqb str "" then Some 3000%Z
                        else Status.parseInt10 str
                    | None => Some 3000%Z
                    end
                  with
                  | None => true
                  | Some n => (n <? 500)%Z
                  end = false).
    { destruct Hok as [->|[->|(str & n & -> & Hn & Hge)]]; [reflexivity..|].
      destruct (String.eqb str ""); [reflexivity|].
      rewrite Hn. now apply Z.ltb_ge. }
    rewrite Hgo. cbv zeta. apply bind_throw.
    unfold loadConfig. now rewrite Hcfg.
Qed.

Lemma statusCommand_interval_witness :
  @Status.statusCommand SessionCodec.codec ["--interval"; "250ms"] 0
    Samples.running
  = (Throw (Tagged (ValidationError
              "--interval must be a number >= 500 (milliseconds)"
              "interval" "250ms")), Samples.running) /\
  @Status.statusCommand SessionCodec.codec ["--watch"; "--interval"; "fast"] 3
    Samples.running
  = (Throw (Tagged (ValidationError
              "--interval must be a number >= 500 (milliseconds)"
              "interval" "fast")), Samples.running).
Proof.
  split.
  - apply (proj1 (proj2 (@statusCommand_interval SessionCodec.codec
                           ["--interval"; "250ms"] 0 Samples.running))).
    + apply (bool_decide_eq_false_1 _). vm_compute. reflexivity.
    + apply (bool_decide_eq_false_1 _). vm_compute. reflexivity.
    + vm_compute. reflexivity.
    + discriminate.
    + intros n Hn. vm_compute in Hn. injection Hn as <-. lia.
  - apply (proj1 (proj2 (@statusCommand_interval SessionCodec.codec
                           ["--watch"; "--interval"; "fast"] 3
                           Samples.running))).
    + apply (bool_decide_eq_false_1 _). vm_compute. reflexivity.
    + apply (bool_decide_eq_false_1 _). vm_compute. reflexivity.
    + vm_compute. reflexivity.
    + discriminate.
    + intros n Hn. vm_compute in Hn. discriminate.
Defined.

(** ** The mulch client (src/mulch/client.ts) *)

Lemma runMulch_run w cwd args context :
  Mulch.runMulch cwd args context w =
    let r := spawn (env w) ("mulch" :: args) cwd in
    if bool_decide (exitCode r = 0%Z)
    then (Return (cr_stdout r, cr_stderr r), w)
    else (Throw (Mulch.mulchFailed context r), w).
Proof.
  cbv zeta. case_bool_decide as E.
  - now apply runMulch_zero.
  - now apply runMulch_nonzero.
Qed.

Lemma substring_length n s : String.length (String.substring 0 n s) <= n.
Proof.
  revert s. induction n as [|n IH]; intros [|c s]; simpl; try lia.
  specialize (IH s). lia.
Qed.

Lemma prefix_app (p s : string) : String.prefix p (p +:+ s) = true.
Proof.
  induction p as [|a p IH]; [now destruct s|].
  rewrite append_cons. cbn [String.prefix].
  now destruct (Ascii.ascii_dec a a).
Qed.

(** X20: [mulch status]: output that is blank, white space of any kind
    included, stands for no domains and is not parsed; other output is parsed
    after trimming, and what the parser returns is returned; output that the
    parser rejects is reported by an AgentError without an agent name, whose
    message, for output of ASCII characters, ends in the first 200 characters
    of the trimmed output. *)
Theorem status_output `{Mulch.MulchJson} (w : World) (cwd : string) :
  let r := spawn (env w) ["mulch"; "status"; "--json"] cwd in
  let trimmed := trim (cr_stdout r) in
  exitCode r = 0%Z ->
  (trimmed = "" ->
   Mulch.status cwd w = (Return Mulch.noDomains, w)) /\
  (forall v, trimmed <> "" -> Mulch.JSON_parse_status trimmed = Some v ->
             Mulch.status cwd w = (Return v, w)) /\
  (trimmed <> "" -> Mulch.JSON_parse_status trimmed = None ->
   exists x,
     Mulch.status cwd w = (Throw x, w) /\
     isAgentError x = true /\ exn_agentName x = None /\
     String.prefix "Failed to parse JSON output from mulch status: "
       (exn_message x) = true /\
     (isAscii trimmed = true ->
      exn_message x
      = "Failed to parse JSON output from mulch status: " +:+
        String.substring 0 200 trimmed /\
      String.length (exn_message x) <= 247)).
Proof.
  intros r trimmed Hexit.
  assert (Hrun : Mulch.runMulch cwd ["status"; "--json"] "status" w
                 = (Return (cr_stdout r, cr_stderr r), w))
    by now apply runMulch_zero.
  unfold Mulch.status. rewrite (bind_return _ _ _ _ _ Hrun). cbn [fst].
  fold trimmed. split; [|split].
  - intros ->. reflexivity.
  - intros v Hne Hv.
    destruct (String.eqb_spec trimmed "") as [E|_]; [contradiction|].
    unfold try_catch. now rewrite Hv.
  - intros Hne Hv.
    destruct (String.eqb_spec trimmed "") as [E|_]; [contradiction|].
    unfold try_catch. rewrite Hv. eexists. split; [reflexivity|].
    split; [reflexivity|]. split; [reflexivity|].
    split; [apply prefix_app|].
    intros _. split; [reflexivity|].
    simpl exn_message. rewrite length_append.
    pose proof (substring_length 200 trimmed). simpl String.length at 1. lia.
Qed.

Lemma status_output_witness :
  @Mulch.status Mulch.documents "/repo"
    (Samples.printing ("  " +:+ String "194" (String "160" (String "010" ""))))
  = (Return (JSON.JObj [("domains", JSON.JArr [])]),
     Samples.printing ("  " +:+ String "194" (String "160" (String "010" ""))))
  /\
  @Mulch.status Mulch.documents "/repo" (Samples.printing "  []  ")
  = (Return (JSON.JArr []), Samples.printing "  []  ")
  /\
  exists x,
    @Mulch.status Mulch.documents "/repo" Samples.mulchGarbled
    = (Throw x, Samples.mulchGarbled) /\
    exn_message x
    = "Failed to parse JSON output from mulch status: not valid json".
Proof.
  split; [|split].
  - apply (proj1 (@status_output Mulch.documents
                    (Samples.printing
                       ("  " +:+ String "194" (String "160" (String "010" ""))))
                    "/repo" eq_refl)).
    vm_compute. reflexivity.
  - apply (proj1 (proj2 (@status_output Mulch.documents
                           (Samples.printing "  []  ") "/repo" eq_refl))).
    + vm_compute. discriminate.
    + vm_compute. reflexivity.
  - destruct (proj2 (proj2 (@status_output Mulch.documents Samples.mulchGarbled
                              "/repo" eq_refl))
                ltac:(vm_compute; discriminate) ltac:(vm_compute; reflexivity))
      as (x & Hrun & _ & _ & _ & Hmsg).
    exists x. split; [exact Hrun|].
    rewrite (proj1 (Hmsg ltac:(vm_compute; reflexivity))).
    vm_compute. reflexivity.
Defined.

Lemma pretty_N_go_length x s :
  String.length s <= String.length (pretty_N_go x s).
Proof.
  revert s. induction (N.lt_wf_0 x) as [x _ IH]; intros s.
  destruct (decide (x = 0)%N) as [->|Hx]; [now rewrite pretty_N_go_0|].
  rewrite pretty_N_go_step by lia.
  etrans; [|apply IH; apply N.div_lt; lia]. simpl. lia.
Qed.

Lemma pretty_Z_not_empty (n : Z) : pretty n <> "".
Proof.
  intros E. apply (f_equal String.length) in E. revert E.
  destruct n as [|p|p]; [discriminate| |discriminate].
  unfold pretty, pretty_Z, pretty, pretty_positive, pretty, pretty_N.
  rewrite decide_False by discriminate.
  rewrite (pretty_N_go_step (N.pos p)) by lia.
  pose proof (pretty_N_go_length (N.pos p `div` 10)
                (String (pretty_N_char (N.pos p `mod` 10)) "")) as L.
  simpl in L. simpl String.length at 2. lia.
Qed.

Lemma given_not_empty flag x :
  Forall (fun a => a <> "") flag -> Forall (fun a => a <> "") (Mulch.given flag x).
Proof.
  intros Hflag. destruct x as [v|]; simpl; [|constructor].
  destruct (String.eqb_spec v "") as [->|Hv]; [constructor|].
  apply Forall_app. split; [exact Hflag|]. now repeat constructor.
Qed.

(** X21: The guards on optional strings keep empty arguments out: whatever is
    given to [query], [diff], [learn], [ready], [prune] and [doctor], the
    command they run has no empty argument. *)
Theorem mulch_no_empty_argument (cwd : string) :
  (forall domain, exists args,
     Forall (fun a => a <> "") args /\
     Mulch.query cwd domain
     = (r ←← Mulch.runMulch cwd args "query" ; ret r.1)) /\
  (forall since, exists args,
     Forall (fun a => a <> "") args /\
     Mulch.diff cwd since
     = (r ←← Mulch.runMulch cwd args "diff" ; ret r.1)) /\
  (forall since, exists args,
     Forall (fun a => a <> "") args /\
     Mulch.learn cwd since
     = (r ←← Mulch.runMulch cwd args "learn" ; ret r.1)) /\
  (forall limit domain since, exists args,
     Forall (fun a => a <> "") args /\
     Mulch.ready cwd limit domain since
     = (r ←← Mulch.runMulch cwd args "ready" ; ret r.1)) /\
  (forall dryRun, exists args,
     Forall (fun a => a <> "") args /\
     Mulch.prune cwd dryRun
     = (r ←← Mulch.runMulch cwd args "prune" ; ret r.1)) /\
  (forall fix_, exists args,
     Forall (fun a => a <> "") args /\
     Mulch.doctor cwd fix_
     = (r ←← Mulch.runMulch cwd args "doctor" ; ret r.1)).
Proof.
  assert (Hflag : forall f : string, f <> "" -> Forall (fun a => a <> "") [f])
    by (intros f Hf; now repeat constructor).
  split; [|split; [|split; [|split; [|split]]]].
  - intros domain. eexists. split; [|reflexivity].
    apply Forall_app. split; [now apply Hflag|].
    destruct domain as [d|]; [|constructor].
    destruct (String.eqb_spec d "") as [->|Hd]; [constructor|].
    now repeat constructor.
  - intros since. eexists. split; [|reflexivity].
    apply Forall_app. split; [now apply Hflag|].
    apply given_not_empty. now apply Hflag.
  - intros since. eexists. split; [|reflexivity].
    apply Forall_app. split; [now apply Hflag|].
    apply given_not_empty. now apply Hflag.
  - intros limit domain since. eexists. split; [|reflexivity].
    apply Forall_app. split; [now apply Hflag|].
    apply Forall_app. split.
    { destruct limit as [n|]; simpl; [|constructor].
      repeat constructor; [discriminate|apply pretty_Z_not_empty]. }
    apply Forall_app. split; apply given_not_empty; now apply Hflag.
  - intros dryRun. eexists. split; [|reflexivity].
    destruct dryRun; now repeat constructor.
  - intros fix_. eexists. split; [|reflexivity].
    destruct fix_; now repeat constructor.
Qed.

Lemma join_comma_split xs a b ys :
  JSON.join "," (xs ++ (a +:+ "," +:+ b) :: ys)
  = JSON.join "," (xs ++ a :: b :: ys).
Proof.
  induction xs as [|x xs IH].
  - simpl app. destruct ys as [|y ys].
    + change (JSON.join "," [a; b]) with (a +:+ "," +:+ b). reflexivity.
    + change (JSON.join "," ((a +:+ "," +:+ b) :: y :: ys))
        with ((a +:+ "," +:+ b) +:+ "," +:+ JSON.join "," (y :: ys)).
      change (JSON.join "," (a :: b :: y :: ys))
        with (a +:+ "," +:+ b +:+ "," +:+ JSON.join "," (y :: ys)).
      now rewrite !append_assoc.
  - simpl app.
    destruct (xs ++ (a +:+ "," +:+ b) :: ys) as [|z zs] eqn:E1;
      [now destruct xs|].
    destruct (xs ++ a :: b :: ys) as [|z' zs'] eqn:E2; [now destruct xs|].
    change (JSON.join "," (x :: z :: zs))
      with (x +:+ "," +:+ JSON.join "," (z :: zs)).
    change (JSON.join "," (x :: z' :: zs'))
      with (x +:+ "," +:+ JSON.join "," (z' :: zs')).
    now rewrite IH.
Qed.

(** X22: List-valued options are joined with commas into one argument, so an
    element that contains a comma cannot be told from several elements: the
    files and excluded domains of [prime], the tags of [record] and the
    records of [compact]. *)
Theorem mulch_lists_split_at_commas (cwd : string) (xs ys : list string)
    (a b : string) :
  let whole := xs ++ (a +:+ "," +:+ b) :: ys in
  let parts := xs ++ a :: b :: ys in
  (forall domains format others,
     Mulch.prime cwd domains format (Some whole) others
       = Mulch.prime cwd domains format (Some parts) others /\
     Mulch.prime cwd domains format others (Some whole)
       = Mulch.prime cwd domains format others (Some parts)) /\
  (forall domain ty name description title rationale classification stdin
          evidenceBead,
     Mulch.record cwd domain
       (Mulch.mkRecordOptions ty name description title rationale (Some whole)
          classification stdin evidenceBead)
     = Mulch.record cwd domain
         (Mulch.mkRecordOptions ty name description title rationale
            (Some parts) classification stdin evidenceBead)) /\
  (forall domain analyze apply_ auto_ dryRun minGroup maxRecords yes,
     Mulch.compact cwd domain
       (Mulch.mkCompactOptions analyze apply_ auto_ dryRun minGroup maxRecords
          yes (Some whole))
     = Mulch.compact cwd domain
         (Mulch.mkCompactOptions analyze apply_ auto_ dryRun minGroup
            maxRecords yes (Some parts))).
Proof.
  intros whole parts.
  assert (Hlist : forall flag,
            Mulch.givenList flag (Some whole) = Mulch.givenList flag (Some parts)).
  { intros flag. unfold Mulch.givenList.
    destruct whole as [|w ws] eqn:Ew; [now destruct xs|].
    destruct parts as [|p ps] eqn:Ep; [now destruct xs|].
    rewrite <- Ew, <- Ep. unfold whole, parts. now rewrite join_comma_split. }
  split; [|split].
  - intros domains format others. unfold Mulch.prime. now rewrite !Hlist.
  - intros. unfold Mulch.record. cbn [Mulch.ro_tags]. now rewrite Hlist.
  - intros. unfold Mulch.compact. cbn [Mulch.co_records]. now rewrite Hlist.
Qed.
